(** * AutoType: command store, editor handlers and trigger registration

    A shallow embedding of [autotype.py]: the command collection kept in
    [commands.json], the form that edits one entry, the save handler that
    appends or updates and rewrites the file, the tree display and the
    registration of the abbreviations with the keyboard hook.

    The collection is whatever [json.load] returned: Python lists, dicts
    and strings with no schema.  It is modelled as such, with Python's own
    subscript, assignment and iteration rules and the exceptions they raise. *)

From Stdlib Require Import String Ascii.
From Stdlib Require Import List ZArith NArith Bool Lia.
From Stdlib Require Import Decimal DecimalFacts DecimalPos DecimalN.
Import ListNotations.

Set Implicit Arguments.

(* ================================================================== *)
(** ** Python strings *)
(* ================================================================== *)

(** A Python [str] is a sequence of code points. *)
Definition char := N.
Definition str := list char.

Definition ord (a : ascii) : char := N_of_ascii a.

(** ASCII literals of the source, as code points. *)
Definition u (s : string) : str := map ord (list_ascii_of_string s).

Fixpoint str_eqb (a b : str) : bool :=
  match a, b with
  | [], [] => true
  | x :: a', y :: b' => N.eqb x y && str_eqb a' b'
  | _, _ => false
  end.

(** [s.startswith(p)] *)
Fixpoint startswith (s p : str) {struct p} : bool :=
  match p with
  | [] => true
  | c :: p' =>
      match s with
      | [] => false
      | d :: s' => N.eqb d c && startswith s' p'
      end
  end.

(** The keys and constants the source spells out. *)
Definition k_name : str := Eval cbv in u "name".
Definition k_command : str := Eval cbv in u "command".
Definition k_text : str := Eval cbv in u "text".
Definition k_type : str := Eval cbv in u "type".
Definition k_children : str := Eval cbv in u "children".
Definition s_parent : str := Eval cbv in u "parent".
Definition s_child : str := Eval cbv in u "child".
Definition s_slash : str := Eval cbv in u "/".

(* ================================================================== *)
(** ** Python objects, exceptions *)
(* ================================================================== *)

(** The objects [json.load] builds: [None], [bool], [int], [str], [list]
    and [dict] with string keys.  A dict keeps its insertion order, which
    [json.dump] writes out, so it is an association list.  Floats are not
    modelled (see [Unmodelled]). *)
Unset Elimination Schemes.
Inductive value : Type :=
| PyNone
| PyBool (b : bool)
| PyInt (z : Z)
| PyStr (s : str)
| PyList (l : list value)
| PyDict (d : list (str * value)).
Set Elimination Schemes.

Inductive exn : Type :=
| FileNotFoundError
| JSONDecodeError
| IndexError
| KeyError
| TypeError
| AttributeError
| RecursionError
| OSError.

(** Outcome of a Python expression or statement.  [Unmodelled] marks the
    inputs on which this development makes no statement about the program
    (a float literal in the file, the formatting of a non-string by an
    f-string, a label that the tree widget would parse as markup). *)
Inductive result (A : Type) : Type :=
| Ok (a : A)
| Raise (e : exn)
| Unmodelled.

Arguments Raise {A} e.
Arguments Unmodelled {A}.

Definition rbind {A B} (r : result A) (k : A -> result B) : result B :=
  match r with
  | Ok a => k a
  | Raise e => Raise e
  | Unmodelled => Unmodelled
  end.

Declare Scope py_scope.
Delimit Scope py_scope with py.
Notation "x <- c ;; k" := (rbind c (fun x => k))
  (at level 61, c at next level, right associativity) : py_scope.
Notation "' p <- c ;; k" := (rbind c (fun x => match x with p => k end))
  (at level 61, p pattern, c at next level, right associativity) : py_scope.

Module Py.

Local Open Scope py_scope.

(** *** dict *)

Fixpoint dict_get (d : list (str * value)) (k : str) : option value :=
  match d with
  | [] => None
  | (k', v) :: d' => if str_eqb k' k then Some v else dict_get d' k
  end.

(** [d[k] = v]: an existing key keeps its position, a new key goes last. *)
Fixpoint dict_set (d : list (str * value)) (k : str) (v : value)
  : list (str * value) :=
  match d with
  | [] => [(k, v)]
  | (k', v') :: d' =>
      if str_eqb k' k then (k', v) :: d' else (k', v') :: dict_set d' k v
  end.

(** *** Indices *)

(** Position addressed by the integer index [i] in a sequence of length
    [len]; negative indices count from the end; [None] is [IndexError]. *)
Definition norm_index (len : nat) (i : Z) : option nat :=
  if (0 <=? i)%Z && (i <? Z.of_nat len)%Z then Some (Z.to_nat i)
  else if (- Z.of_nat len <=? i)%Z && (i <? 0)%Z
       then Some (Z.to_nat (Z.of_nat len + i))
       else None.

Fixpoint list_set {A} (l : list A) (n : nat) (x : A) : list A :=
  match l, n with
  | [], _ => []
  | _ :: l', O => x :: l'
  | y :: l', S n' => y :: list_set l' n' x
  end.

(** *** Subscripts, as expressions *)

(** [v[i]] for an integer [i]. *)
Definition getitem_int (v : value) (i : Z) : result value :=
  match v with
  | PyList l =>
      match norm_index (length l) i with
      | Some n => match nth_error l n with Some x => Ok x | None => Raise IndexError end
      | None => Raise IndexError
      end
  | PyStr s =>
      match norm_index (length s) i with
      | Some n => match nth_error s n with Some c => Ok (PyStr [c]) | None => Raise IndexError end
      | None => Raise IndexError
      end
  | PyDict _ => Raise KeyError
  | PyNone | PyBool _ | PyInt _ => Raise TypeError
  end.

(** [v[k]] for a string [k]. *)
Definition getitem_str (v : value) (k : str) : result value :=
  match v with
  | PyDict d => match dict_get d k with Some x => Ok x | None => Raise KeyError end
  | _ => Raise TypeError
  end.

(** [v == s] for a string literal [s]. *)
Definition eq_str (v : value) (s : str) : bool :=
  match v with
  | PyStr s' => str_eqb s' s
  | _ => false
  end.

(** [for x in v]: the items a [for] loop sees. *)
Definition iter (v : value) : result (list value) :=
  match v with
  | PyList l => Ok l
  | PyDict d => Ok (map (fun kv => PyStr (fst kv)) d)
  | PyStr s => Ok (map (fun c => PyStr [c]) s)
  | PyNone | PyBool _ | PyInt _ => Raise TypeError
  end.

(** *** Subscripts, as assignment targets

    [commands[p]["children"][i]["name"] = x] reaches an object through a
    chain of subscripts and mutates it in place.  The collection is a tree
    (built by [json.load] and by fresh dict displays), so the mutation is
    the functional update along the path: [at_int v i f] is [v] after [f]
    has acted on the object [v[i]]. *)

Definition at_int (v : value) (i : Z) (f : value -> result value)
  : result value :=
  match v with
  | PyList l =>
      match norm_index (length l) i with
      | Some n =>
          match nth_error l n with
          | Some x => x' <- f x ;; Ok (PyList (list_set l n x'))
          | None => Raise IndexError
          end
      | None => Raise IndexError
      end
  | PyStr s =>
      (* the one-character string is a temporary; [s] itself cannot change *)
      x <- getitem_int v i ;; _ <- f x ;; Ok v
  | PyDict _ => Raise KeyError
  | PyNone | PyBool _ | PyInt _ => Raise TypeError
  end.

Definition at_str (v : value) (k : str) (f : value -> result value)
  : result value :=
  match v with
  | PyDict d =>
      match dict_get d k with
      | Some x => x' <- f x ;; Ok (PyDict (dict_set d k x'))
      | None => Raise KeyError
      end
  | _ => Raise TypeError
  end.

(** [v[k] = x] *)
Definition setitem_str (k : str) (x : value) (v : value) : result value :=
  match v with
  | PyDict d => Ok (PyDict (dict_set d k x))
  | _ => Raise TypeError
  end.

(** [v.append(x)] *)
Definition append (x : value) (v : value) : result value :=
  match v with
  | PyList l => Ok (PyList (l ++ [x]))
  | _ => Raise AttributeError
  end.

(** [f"{v}"]: only the formatting of a string is modelled. *)
Definition format (v : value) : result str :=
  match v with
  | PyStr s => Ok s
  | _ => Unmodelled
  end.

End Py.

(* ================================================================== *)
(** ** The [json] module, as the program uses it *)
(* ================================================================== *)

(** The content of a text file, as the [str] that Python reads or writes. *)
Definition text := str.

Module Json.

Local Open Scope py_scope.
Local Open Scope N_scope.

Definition QUOTE : char := 34.      (* the double quote *)
Definition BACKSLASH : char := 92.
Definition SLASH : char := 47.
Definition COMMA : char := 44.
Definition COLON : char := 58.
Definition LBRACKET : char := 91.
Definition RBRACKET : char := 93.
Definition LBRACE : char := 123.
Definition RBRACE : char := 125.
Definition MINUS : char := 45.
Definition PLUS : char := 43.
Definition DOT : char := 46.
Definition SPACE : char := 32.
Definition NEWLINE : char := 10.

(** *** [json.dump(obj, file, indent=2)] *)

Fixpoint chars_of_uint (d : Decimal.uint) : text :=
  match d with
  | Nil => []
  | D0 d' => 48 :: chars_of_uint d'
  | D1 d' => 49 :: chars_of_uint d'
  | D2 d' => 50 :: chars_of_uint d'
  | D3 d' => 51 :: chars_of_uint d'
  | D4 d' => 52 :: chars_of_uint d'
  | D5 d' => 53 :: chars_of_uint d'
  | D6 d' => 54 :: chars_of_uint d'
  | D7 d' => 55 :: chars_of_uint d'
  | D8 d' => 56 :: chars_of_uint d'
  | D9 d' => 57 :: chars_of_uint d'
  end.

(** [int.__repr__] *)
Definition int_repr (z : Z) : text :=
  match z with
  | Z0 => [48]
  | Zpos p => chars_of_uint (Pos.to_uint p)
  | Zneg p => MINUS :: chars_of_uint (Pos.to_uint p)
  end.

Definition hexdigit (n : N) : char :=
  if n <? 10 then 48 + n else 87 + n.

(** ['\\u{0:04x}'.format(n)] *)
Definition u_escape (n : N) : text :=
  [BACKSLASH; 117;
   hexdigit (N.land (N.shiftr n 12) 15); hexdigit (N.land (N.shiftr n 8) 15);
   hexdigit (N.land (N.shiftr n 4) 15); hexdigit (N.land n 15)].

(** The surrogate pair of a code point above the basic plane:
    [s1 = 0xd800 | ((n >> 10) & 0x3ff)], [s2 = 0xdc00 | (n & 0x3ff)] for
    [n = c - 0x10000]. *)
Definition high_of (c : N) : N :=
  N.lor 0xd800 (N.land (N.shiftr (c - 0x10000) 10) 0x3ff).
Definition low_of (c : N) : N :=
  N.lor 0xdc00 (N.land (c - 0x10000) 0x3ff).

(** The replacement of one character by [encode_basestring_ascii]:
    [ESCAPE_DCT] first, then printable ASCII as it is, then [\uXXXX], as a
    surrogate pair above the basic plane. *)
Definition escape_char (c : char) : text :=
  if c =? BACKSLASH then [BACKSLASH; BACKSLASH]
  else if c =? QUOTE then [BACKSLASH; QUOTE]
  else if c =? 8 then [BACKSLASH; 98]
  else if c =? 12 then [BACKSLASH; 102]
  else if c =? 10 then [BACKSLASH; 110]
  else if c =? 13 then [BACKSLASH; 114]
  else if c =? 9 then [BACKSLASH; 116]
  else if (32 <=? c) && (c <=? 126) then [c]
  else if c <? 0x10000 then u_escape c
  else u_escape (high_of c) ++ u_escape (low_of c).

Definition encode_basestring_ascii (s : str) : text :=
  QUOTE :: flat_map escape_char s ++ [QUOTE].

(** ['\n' + _indent * _current_indent_level] with [indent=2] *)
Definition newline_indent (level : nat) : text :=
  NEWLINE :: repeat SPACE (2 * level).

Fixpoint join (sep : text) (parts : list text) : text :=
  match parts with
  | [] => []
  | [p] => p
  | p :: ps => p ++ sep ++ join sep ps
  end.

(** [_iterencode]: the text of [v] at nesting level [level]. *)
Fixpoint encode (level : nat) (v : value) : text :=
  match v with
  | PyNone => [110; 117; 108; 108]
  | PyBool true => [116; 114; 117; 101]
  | PyBool false => [102; 97; 108; 115; 101]
  | PyInt z => int_repr z
  | PyStr s => encode_basestring_ascii s
  | PyList [] => [LBRACKET; RBRACKET]
  | PyList l =>
      LBRACKET :: newline_indent (S level)
      ++ join (COMMA :: newline_indent (S level)) (map (encode (S level)) l)
      ++ newline_indent level ++ [RBRACKET]
  | PyDict [] => [LBRACE; RBRACE]
  | PyDict d =>
      LBRACE :: newline_indent (S level)
      ++ join (COMMA :: newline_indent (S level))
           (map (fun kv => encode_basestring_ascii (fst kv)
                           ++ COLON :: SPACE :: encode (S level) (snd kv)) d)
      ++ newline_indent level ++ [RBRACE]
  end.

Definition dumps (v : value) : text := encode 0 v.

(** *** [json.load(file)]

    The decoder follows CPython's scanner ([scan_once], [scanstring],
    [JSONArray], [JSONObject], the number pattern).  Every way the text
    can be rejected is the one exception [JSONDecodeError]. *)

Definition is_ws (c : char) : bool :=
  (c =? SPACE) || (c =? 9) || (c =? NEWLINE) || (c =? 13).

Fixpoint skip_ws (s : text) : text :=
  match s with
  | c :: s' => if is_ws c then skip_ws s' else s
  | [] => []
  end.

Definition is_digit (c : char) : bool := (48 <=? c) && (c <=? 57).

Definition hexval (c : char) : option N :=
  if is_digit c then Some (c - 48)
  else if (97 <=? c) && (c <=? 102) then Some (c - 87)
  else if (65 <=? c) && (c <=? 70) then Some (c - 55)
  else None.

(** The four hex digits after [\u]. *)
Definition decode_uXXXX (a b c d : char) : option N :=
  match hexval a, hexval b, hexval c, hexval d with
  | Some x, Some y, Some z, Some w =>
      Some (N.lor (N.shiftl (N.lor (N.shiftl (N.lor (N.shiftl x 4) y) 4) z) 4) w)
  | _, _, _, _ => None
  end.

Definition is_high_surrogate (c : N) : bool := (0xd800 <=? c) && (c <=? 0xdbff).
Definition is_low_surrogate (c : N) : bool := (0xdc00 <=? c) && (c <=? 0xdfff).

Definition join_surrogates (hi lo : N) : N :=
  0x10000 + N.lor (N.shiftl (hi - 0xd800) 10) (lo - 0xdc00).

(** The [BACKSLASH] table of the decoder. *)
Definition unescape (e : char) : option char :=
  if e =? QUOTE then Some QUOTE
  else if e =? BACKSLASH then Some BACKSLASH
  else if e =? SLASH then Some SLASH
  else if e =? 98 then Some 8
  else if e =? 102 then Some 12
  else if e =? 110 then Some 10
  else if e =? 114 then Some 13
  else if e =? 116 then Some 9
  else None.

Definition cons_char (c : char) (r : result (str * text)) : result (str * text) :=
  '(x, rest) <- r ;; Ok (c :: x, rest).

(** A character read from a text file is a Unicode scalar value: the
    decoding of the file never yields a surrogate or a value past
    [0x10FFFF]. *)
Definition is_scalar (c : char) : bool :=
  (c <? 0xd800) || ((0xdfff <? c) && (c <? 0x110000)).

(** [scanstring(s, end, strict=True)], entered after the opening quote:
    the string and the text after its closing quote. *)
Fixpoint scanstring (s : text) : result (str * text) :=
  match s with
  | [] => Raise JSONDecodeError
  | c :: s1 =>
      if c =? QUOTE then Ok ([], s1)
      else if c =? BACKSLASH then
        match s1 with
        | [] => Raise JSONDecodeError
        | e :: s2 =>
            if e =? 117 then
              match s2 with
              | h1 :: h2 :: h3 :: h4 :: s3 =>
                  match decode_uXXXX h1 h2 h3 h4 with
                  | None => Raise JSONDecodeError
                  | Some uni =>
                      if is_high_surrogate uni then
                        match s3 with
                        | b1 :: u1 :: g1 :: g2 :: g3 :: g4 :: s4 =>
                            if (b1 =? BACKSLASH) && (u1 =? 117) then
                              match decode_uXXXX g1 g2 g3 g4 with
                              | None => Raise JSONDecodeError
                              | Some uni2 =>
                                  if is_low_surrogate uni2
                                  then cons_char (join_surrogates uni uni2) (scanstring s4)
                                  else cons_char uni (scanstring s3)
                              end
                            else cons_char uni (scanstring s3)
                        | _ => cons_char uni (scanstring s3)
                        end
                      else cons_char uni (scanstring s3)
                  end
              | _ => Raise JSONDecodeError
              end
            else
              match unescape e with
              | Some ch => cons_char ch (scanstring s2)
              | None => Raise JSONDecodeError
              end
        end
      else if c <? 32 then Raise JSONDecodeError
      else if is_scalar c then cons_char c (scanstring s1)
      else Unmodelled
  end.

(** The [\\uXXXX] escape at the head of [s], if there is one: its four
    digits decoded. *)
Definition lookahead (s : text) : option (option N) :=
  match s with
  | b1 :: u1 :: g1 :: g2 :: g3 :: g4 :: _ =>
      if (b1 =? BACKSLASH) && (u1 =? 117)
      then Some (decode_uXXXX g1 g2 g3 g4)
      else None
  | _ => None
  end.

(** [p] holds on the [fuel] numbers from [x] on. *)
Fixpoint all_from (fuel : nat) (x : N) (p : N -> bool) : bool :=
  match fuel with
  | O => true
  | S f => p x && all_from f (N.succ x) p
  end.

Fixpoint span_digits (s : text) : text * text :=
  match s with
  | c :: r =>
      if is_digit c then let (ds, r') := span_digits r in (c :: ds, r')
      else ([], s)
  | [] => ([], [])
  end.

Definition digit_of_char (c : char) : Decimal.uint -> Decimal.uint :=
  match c - 48 with
  | 0 => D0 | 1 => D1 | 2 => D2 | 3 => D3 | 4 => D4
  | 5 => D5 | 6 => D6 | 7 => D7 | 8 => D8 | _ => D9
  end.

Fixpoint uint_of_chars (ds : text) : Decimal.uint :=
  match ds with
  | [] => Nil
  | c :: r => digit_of_char c (uint_of_chars r)
  end.

(** Does a fraction [\.[0-9]+] or an exponent [[eE][-+]?[0-9]+] follow
    the integer part?  Then the number is a float. *)
Definition float_follows (s : text) : bool :=
  match s with
  | c :: d :: r =>
      ((c =? DOT) && is_digit d)
      || (((c =? 101) || (c =? 69))
          && (is_digit d
              || (((d =? PLUS) || (d =? MINUS))
                  && match r with d' :: _ => is_digit d' | [] => false end)))
  | _ => false
  end.

(** [int(s)] refuses more than 4300 digits from Python 3.11 on and
    accepts them before: such a literal is left out of the model. *)
Definition max_str_digits : nat := 4300.

Definition scan_int (neg : bool) (ds rest : text) : result (value * text) :=
  if float_follows rest then Unmodelled
  else if Nat.ltb max_str_digits (length ds) then Unmodelled
  else
    let n := Z.of_N (N.of_uint (uint_of_chars ds)) in
    Ok (PyInt (if neg then (- n)%Z else n), rest).

Definition s_NaN : str := Eval cbv in u "NaN".
Definition s_Infinity : str := Eval cbv in u "Infinity".
Definition s_null : str := Eval cbv in u "null".
Definition s_true : str := Eval cbv in u "true".
Definition s_false : str := Eval cbv in u "false".

(** The number pattern, then the float constants [NaN], [Infinity] and
    [-Infinity]. *)
Definition scan_number (s : text) : result (value * text) :=
  let (neg, s1) :=
    match s with
    | c :: r => if c =? MINUS then (true, r) else (false, s)
    | [] => (false, s)
    end in
  match s1 with
  | c :: r =>
      if c =? 48 then scan_int neg [c] r
      else if is_digit c then
        let (ds, r') := span_digits r in scan_int neg (c :: ds) r'
      else if startswith s1 s_Infinity || (negb neg && startswith s1 s_NaN)
      then Unmodelled
      else Raise JSONDecodeError
  | [] => Raise JSONDecodeError
  end.

(** [dict(pairs)]: a repeated key keeps its first position and its last
    value. *)
Definition dict_of_pairs (l : list (str * value)) : list (str * value) :=
  fold_left (fun d kv => Py.dict_set d (fst kv) (snd kv)) l [].

(** [scan_once], with [JSONArray] and [JSONObject] after their first
    element.  [fuel] bounds the depth of the calls; [loads] gives enough
    of it for the whole text. *)
Fixpoint scan_once (fuel : nat) (s : text) : result (value * text) :=
  match fuel with
  | O => Unmodelled
  | S fuel' =>
      match s with
      | [] => Raise JSONDecodeError
      | c :: s1 =>
          if c =? QUOTE then
            '(x, r) <- scanstring s1 ;; Ok (PyStr x, r)
          else if c =? LBRACE then
            match skip_ws s1 with
            | c2 :: r =>
                if c2 =? RBRACE then Ok (PyDict [], r)
                else
                  '(kvs, r') <- object_items fuel' (skip_ws s1) ;;
                  Ok (PyDict (dict_of_pairs kvs), r')
            | [] => Raise JSONDecodeError
            end
          else if c =? LBRACKET then
            match skip_ws s1 with
            | c2 :: r =>
                if c2 =? RBRACKET then Ok (PyList [], r)
                else
                  '(l, r') <- array_items fuel' (skip_ws s1) ;;
                  Ok (PyList l, r')
            | [] => Raise JSONDecodeError
            end
          else if startswith s s_null then Ok (PyNone, skipn 4 s)
          else if startswith s s_true then Ok (PyBool true, skipn 4 s)
          else if startswith s s_false then Ok (PyBool false, skipn 5 s)
          else scan_number s
      end
  end

with array_items (fuel : nat) (s : text) : result (list value * text) :=
  match fuel with
  | O => Unmodelled
  | S fuel' =>
      '(x, r) <- scan_once fuel' s ;;
      match skip_ws r with
      | c :: r1 =>
          if c =? RBRACKET then Ok ([x], r1)
          else if c =? COMMA then
            '(xs, r2) <- array_items fuel' (skip_ws r1) ;; Ok (x :: xs, r2)
          else Raise JSONDecodeError
      | [] => Raise JSONDecodeError
      end
  end

with object_items (fuel : nat) (s : text) : result (list (str * value) * text) :=
  match fuel with
  | O => Unmodelled
  | S fuel' =>
      match s with
      | c :: s1 =>
          if c =? QUOTE then
            '(k, r) <- scanstring s1 ;;
            match skip_ws r with
            | c2 :: r1 =>
                if c2 =? COLON then
                  '(x, r2) <- scan_once fuel' (skip_ws r1) ;;
                  match skip_ws r2 with
                  | c3 :: r3 =>
                      if c3 =? RBRACE then Ok ([(k, x)], r3)
                      else if c3 =? COMMA then
                        '(kvs, r4) <- object_items fuel' (skip_ws r3) ;;
                        Ok ((k, x) :: kvs, r4)
                      else Raise JSONDecodeError
                  | [] => Raise JSONDecodeError
                  end
                else Raise JSONDecodeError
            | [] => Raise JSONDecodeError
            end
          else Raise JSONDecodeError
      | [] => Raise JSONDecodeError
      end
  end.

(** [json.loads]: no byte order mark, one value, nothing but white space
    around it.  This is the decoder with room for any nesting; what the
    recursion limit of the interpreter makes of a deeply nested text is
    said where the program calls the decoder ([CommandList.class_body]). *)
Definition BOM : str := [0xfeff].

Definition loads (s : text) : result value :=
  if startswith s BOM then Raise JSONDecodeError
  else
    '(v, r) <- scan_once (2 * length s + 2) (skip_ws s) ;;
    match skip_ws r with
    | [] => Ok v
    | _ :: _ => Raise JSONDecodeError
    end.

(** *** The values that [loads] can return

    Strings hold code points up to [0x10FFFF] and no high surrogate
    directly before a low one (the decoder joins such a pair); integers
    have at most [max_str_digits] digits; the keys of a dict are distinct. *)

Fixpoint wf_str (s : str) : bool :=
  match s with
  | [] => true
  | c :: r =>
      (c <? 0x110000)
      && negb (is_high_surrogate c
               && match r with d :: _ => is_low_surrogate d | [] => false end)
      && wf_str r
  end.

Definition wf_int (z : Z) : bool :=
  Nat.leb (length (chars_of_uint (N.to_uint (Z.abs_N z)))) max_str_digits.

Fixpoint distinct (keys : list str) : bool :=
  match keys with
  | [] => true
  | k :: r => negb (existsb (str_eqb k) r) && distinct r
  end.

Fixpoint wf_value (v : value) : bool :=
  match v with
  | PyNone | PyBool _ => true
  | PyInt z => wf_int z
  | PyStr s => wf_str s
  | PyList l => forallb wf_value l
  | PyDict d =>
      distinct (map fst d)
      && forallb (fun kv => wf_str (fst kv) && wf_value (snd kv)) d
  end.

(** The deepest nesting of arrays and objects in a text: the number of
    calls of the scanner that are open at once while it reads the text (it
    enters one for every opening bracket or brace, and leaves it at the
    closing one).  Brackets inside a string do not count. *)
Fixpoint nesting_from (s : text) (in_string : bool) (cur best : nat) : nat :=
  match s with
  | [] => best
  | c :: r =>
      if in_string then
        if c =? BACKSLASH then
          match r with
          | _ :: r' => nesting_from r' true cur best
          | [] => best
          end
        else if c =? QUOTE then nesting_from r false cur best
        else nesting_from r true cur best
      else if c =? QUOTE then nesting_from r true cur best
      else if (c =? LBRACKET) || (c =? LBRACE)
      then nesting_from r false (S cur) (Nat.max best (S cur))
      else if (c =? RBRACKET) || (c =? RBRACE)
      then nesting_from r false (Nat.pred cur) best
      else nesting_from r false cur best
  end.

Definition nesting (s : text) : nat := nesting_from s false 0 0.

(** The depth of calls that decoding the text of [v] takes. *)
Fixpoint cost (v : value) : nat :=
  match v with
  | PyList l => S (list_sum (map (fun x => S (cost x)) l))
  | PyDict d => S (list_sum (map (fun kv => S (cost (snd kv))) d))
  | _ => 1
  end.

End Json.

(* ================================================================== *)
(** ** [class Form] *)
(* ================================================================== *)

(** The form holds the dict [data] (a reactive attribute), two [Input]
    widgets and a [TextArea].  Two rules of the widget library are part of
    the model, because the source relies on them:
    - assigning a reactive attribute a value equal to its current one does
      nothing; assigning a different one stores it and runs the watcher
      ([watch_data] for [data]; for [Input.value], the posting of an
      [Input.Changed] message);
    - [TextArea.text = v] reloads the text and posts [TextArea.Changed].
    Messages wait in a queue and are handled one at a time, oldest first. *)
Module Form.

Inductive input_id : Type := Name | Command.

Inductive message : Type :=
| InputChanged (id : input_id)
| TextAreaChanged.

(** The dict [data].  Its keys are read with [.get] ([index], [parent],
    [type]) or by subscript ([name], [command], [text]); [None] stands for
    a key that is absent or holds [None]. *)
Record data_t : Type := Data {
  index : option Z;
  parent : option Z;
  type : option str;
  name : option str;
  command : option str;
  text : option str
}.

Record t : Type := Make {
  data : data_t;
  name_value : str;       (* query_one("#name").value *)
  command_value : str;    (* query_one("#command").value *)
  text_area : str;        (* query_one("#text").text *)
  pending : list message
}.

Definition opt_eqb {A} (eqb : A -> A -> bool) (a b : option A) : bool :=
  match a, b with
  | None, None => true
  | Some x, Some y => eqb x y
  | _, _ => false
  end.

Definition data_eqb (a b : data_t) : bool :=
  opt_eqb Z.eqb (index a) (index b) && opt_eqb Z.eqb (parent a) (parent b)
  && opt_eqb str_eqb (type a) (type b) && opt_eqb str_eqb (name a) (name b)
  && opt_eqb str_eqb (command a) (command b) && opt_eqb str_eqb (text a) (text b).

(** [data.get(key, "")] *)
Definition get_or_empty (o : option str) : str :=
  match o with Some s => s | None => [] end.

Definition input_value (id : input_id) (f : t) : str :=
  match id with Name => name_value f | Command => command_value f end.

(** [input.value = v] *)
Definition set_input_value (id : input_id) (v : str) (f : t) : t :=
  if str_eqb (input_value id f) v then f
  else
    match id with
    | Name => Make (data f) v (command_value f) (text_area f)
                (pending f ++ [InputChanged Name])
    | Command => Make (data f) (name_value f) v (text_area f)
                   (pending f ++ [InputChanged Command])
    end.

(** [text_area.text = v] *)
Definition set_text (v : str) (f : t) : t :=
  Make (data f) (name_value f) (command_value f) v
    (pending f ++ [TextAreaChanged]).

(** [watch_data] *)
Definition watch_data (d : data_t) (f : t) : t :=
  let f := set_input_value Name (get_or_empty (name d)) f in
  let f := set_input_value Command (get_or_empty (command d)) f in
  set_text (get_or_empty (text d)) f.

(** [self.data = d] *)
Definition set_data (d : data_t) (f : t) : t :=
  if data_eqb (data f) d then f
  else watch_data d
         (Make d (name_value f) (command_value f) (text_area f) (pending f)).

(** [{**self.data, event.input.id: input_value}] *)
Definition with_input (id : input_id) (v : str) (d : data_t) : data_t :=
  match id with
  | Name => Data (index d) (parent d) (type d) (Some v) (command d) (text d)
  | Command => Data (index d) (parent d) (type d) (name d) (Some v) (text d)
  end.

(** [on_input_changed]; the cursor moves are left out. *)
Definition on_input_changed (id : input_id) (f : t) : t :=
  let input_value := input_value id f in
  let f :=
    match id with
    | Command =>
        if negb (startswith input_value s_slash)
        then set_input_value Command (s_slash ++ input_value) f
        else f
    | Name => f
    end in
  set_data (with_input id input_value (data f)) f.

(** [on_text_area_changed]; the cursor moves are left out. *)
Definition on_text_area_changed (f : t) : t :=
  let d := data f in
  set_data (Data (index d) (parent d) (type d) (name d) (command d)
              (Some (text_area f))) f.

(** The handling of the oldest pending message. *)
Definition dispatch (f : t) : t :=
  match pending f with
  | [] => f
  | m :: q =>
      let f := Make (data f) (name_value f) (command_value f) (text_area f) q in
      match m with
      | InputChanged id => on_input_changed id f
      | TextAreaChanged => on_text_area_changed f
      end
  end.

Fixpoint run (fuel : nat) (f : t) : t :=
  match fuel with
  | O => f
  | S fuel' =>
      match pending f with
      | [] => f
      | _ :: _ => run fuel' (dispatch f)
      end
  end.

(** The user edits the command field so that it reads [v]. *)
Definition type_command (v : str) (f : t) : t := set_input_value Command v f.

(** [reactive({"index": None})] on a freshly composed form. *)
Definition initial : t :=
  Make (Data None None None None None None) [] [] [] [].

(** The form once it is mounted.  The watcher of [data] runs on the
    default when the widget is mounted; it reloads the text area, whose
    report puts the empty text in [data]. *)
Definition mounted : t := run 2 (watch_data (data initial) initial).

(** A form at rest: no message is pending and the three widgets show what
    [data] holds, as [watch_data] leaves them. *)
Definition settled (f : t) : Prop :=
  pending f = []
  /\ name_value f = get_or_empty (name (data f))
  /\ command_value f = get_or_empty (command (data f))
  /\ text_area f = get_or_empty (text (data f)).

(** The form at rest on the data [d]. *)
Definition showing (d : data_t) : t :=
  Make d (get_or_empty (name d)) (get_or_empty (command d))
    (get_or_empty (text d)) [].

(** The user edits the name field so that it reads [v]. *)
Definition type_name (v : str) (f : t) : t := set_input_value Name v f.

(** The user edits the text area so that it reads [v]. *)
Definition type_text (v : str) (f : t) : t := set_text v f.

End Form.

(* ================================================================== *)
(** ** [class CommandList] *)
(* ================================================================== *)

(** The file [commands.json] ([None] while it does not exist) and the class
    attribute [CommandList.commands].  The attribute is one list object,
    shared by every instance of the widget and mutated in place by the save
    handler. *)
Record store : Type := Store {
  commands : value;
  file : option text
}.

(** [with open("commands.json", "w") as file:
        json.dump(commands, file, indent=2)]
    as it goes through: the file is opened and the whole text is written.
    A write that the file system refuses, or that [json.dump] abandons
    half way, is not modelled. *)
Definition save_store (st : store) : store :=
  Store (commands st) (Some (Json.dumps (commands st))).

Module CommandList.

Import Py.
Local Open Scope py_scope.

(** [json.load(open("commands.json"))] *)
Definition json_load_open (f : option text) : result value :=
  match f with
  | None => Raise FileNotFoundError
  | Some t => Json.loads t
  end.

(** The class body, run once when the module is loaded:
<<
    commands = reactive([])
    try:
        commands = reactive(json.load(open("commands.json")))
    except Exception:
        with open("commands.json", "w") as file:
            json.dump([], file, indent=2)
>>
    What it does depends on two things that are not in the file.  The
    decoder recurses once per level of nesting and the interpreter stops it
    with [RecursionError] at its recursion limit: [max_nesting] is the
    nesting it lets the decoder reach (some 990 levels under CPython's
    default limit of 1000).  The handler of the exception opens the file
    for writing, which the file system may refuse: [can_write]. *)
Record env : Type := Env {
  max_nesting : nat;
  can_write : bool
}.

(** The [except] branch: the empty collection is written, unless the
    file cannot be opened for writing; then the exception of [open] leaves
    the class body and the program does not start. *)
Definition fallback (E : env) : result store :=
  if can_write E
  then Ok (Store (PyList []) (Some (Json.dumps (PyList []))))
  else Raise OSError.

(** The class body under [E].  Every exception of the [try] block takes
    the [except] branch: [FileNotFoundError] of [open], [JSONDecodeError]
    of a text that is not JSON, [RecursionError] of a text nested deeper
    than [max_nesting] (raised where the decoder enters the level it may
    not reach, unless it meets a fault of the text before). *)
Definition class_body (E : env) (f : option text) : result store :=
  match f with
  | None => fallback E
  | Some t =>
      match Json.loads t with
      | Ok v =>
          if Nat.ltb (max_nesting E) (Json.nesting t) then fallback E
          else Ok (Store v f)
      | Raise _ => fallback E
      | Unmodelled => Unmodelled
      end
  end.

(** The class body where nothing stands in its way: the file can be
    written and the text is within the nesting that the decoder reaches
    (see [LoadFacts.class_body_load]). *)
Definition load (f : option text) : result store :=
  match json_load_open f with
  | Ok v => Ok (Store v f)
  | Raise _ => Ok (Store (PyList []) (Some (Json.dumps (PyList []))))
  | Unmodelled => Unmodelled
  end.

(** The [data] dict attached to a tree node. *)
Record node_data : Type := NodeData {
  nd_index : nat;
  nd_parent : option nat;
  nd_type : str;
  nd_name : value;
  nd_command : value;
  nd_text : value
}.

(** What [compose] adds under the root of the tree: a branch with its
    leaves ([tree.root.add], [branch.add_leaf]) or a leaf
    ([tree.root.add_leaf]). *)
Inductive node : Type :=
| Branch (label : str) (data : node_data) (leaves : list (str * node_data))
| Leaf (label : str) (data : node_data).

Definition LBRACKET : char := 91%N.

(** The label given to [add] and [add_leaf].  The tree reads a string
    label as console markup; only a string without an opening bracket,
    which is plain text, is modelled. *)
Definition label_of (v : value) : result str :=
  match v with
  | PyStr s => if existsb (N.eqb LBRACKET) s then Unmodelled else Ok s
  | _ => Unmodelled
  end.

(** [branch.add_leaf(child["name"], data={...})] for the children from
    position [i] on. *)
Fixpoint compose_children (up : nat) (i : nat) (children : list value)
  : result (list (str * node_data)) :=
  match children with
  | [] => Ok []
  | child :: rest =>
      label <- getitem_str child k_name ;;
      n <- getitem_str child k_name ;;
      c <- getitem_str child k_command ;;
      t <- getitem_str child k_text ;;
      l <- label_of label ;;
      leaves <- compose_children up (S i) rest ;;
      Ok ((l, NodeData i (Some up) s_child n c t) :: leaves)
  end.

(** The body of the loop of [compose] for the entry at [index]. *)
Definition compose_entry (index : nat) (command : value) : result node :=
  ty <- getitem_str command k_type ;;
  if eq_str ty s_parent then
    label <- getitem_str command k_name ;;
    n <- getitem_str command k_name ;;
    c <- getitem_str command k_command ;;
    t <- getitem_str command k_text ;;
    l <- label_of label ;;
    children <- getitem_str command k_children ;;
    items <- iter children ;;
    leaves <- compose_children index 0 items ;;
    Ok (Branch l (NodeData index None s_parent n c t) leaves)
  else
    label <- getitem_str command k_name ;;
    n <- getitem_str command k_name ;;
    c <- getitem_str command k_command ;;
    t <- getitem_str command k_text ;;
    l <- label_of label ;;
    Ok (Leaf l (NodeData index None s_child n c t)).

Fixpoint compose_from (index : nat) (items : list value) : result (list node) :=
  match items with
  | [] => Ok []
  | command :: rest =>
      nd <- compose_entry index command ;;
      nds <- compose_from (S index) rest ;;
      Ok (nd :: nds)
  end.

(** [compose]: the nodes under the root of the tree, in order.  The
    generator yields the tree once per entry. *)
Definition compose (cmds : value) : result (list node) :=
  items <- iter cmds ;;
  compose_from 0 items.

(** The [data] of a node and the leaves under it. *)
Definition data_of (nd : node) : node_data :=
  match nd with
  | Branch _ d _ => d
  | Leaf _ d => d
  end.

Definition leaves_of (nd : node) : list (str * node_data) :=
  match nd with
  | Branch _ _ leaves => leaves
  | Leaf _ _ => []
  end.

End CommandList.

(* ================================================================== *)
(** ** [class AutoTypeApp] *)
(* ================================================================== *)

Module AutoTypeApp.

Import Py.
Local Open Scope py_scope.

(** What the handlers read and write: the store, the form, the [display]
    style of four widgets ([true] for ["block"]) and the abbreviations
    handed to the keyboard hook, oldest first. *)
Record state : Type := State {
  st_store : store;
  form : Form.t;
  text_opening_display : bool;
  form_display : bool;
  save_display : bool;
  add_child_display : bool;
  abbreviations : list (str * str)
}.

Definition with_store (s : state) (x : store) : state :=
  State x (form s) (text_opening_display s) (form_display s) (save_display s)
    (add_child_display s) (abbreviations s).

Definition with_form (s : state) (f : Form.t) : state :=
  State (st_store s) f (text_opening_display s) (form_display s)
    (save_display s) (add_child_display s) (abbreviations s).

(** A handler: a state transformer that may raise. *)
Definition M (A : Type) : Type := state -> state * result A.

Definition ret {A} (a : A) : M A := fun s => (s, Ok a).

Definition bind {A B} (m : M A) (k : A -> M B) : M B :=
  fun s =>
    match m s with
    | (s', Ok a) => k a s'
    | (s', Raise e) => (s', Raise e)
    | (s', Unmodelled) => (s', Unmodelled)
    end.

Definition lift {A} (r : result A) : M A := fun s => (s, r).

Declare Scope m_scope.
Delimit Scope m_scope with m.
Notation "x <~ c ;; k" := (bind c (fun x => k))
  (at level 61, c at next level, right associativity) : m_scope.
Notation "c ;;; k" := (bind c (fun _ => k))
  (at level 61, right associativity) : m_scope.
Local Open Scope m_scope.

(** An in-place mutation of [command_list.commands]. *)
Definition mutate (f : value -> result value) : M unit :=
  fun s =>
    match f (commands (st_store s)) with
    | Ok c => (with_store s (Store c (file (st_store s))), Ok tt)
    | Raise e => (s, Raise e)
    | Unmodelled => (s, Unmodelled)
    end.

(** [data[key]] for one of the keys [name], [command], [text]. *)
Definition data_item (o : option str) : M value :=
  lift (match o with Some x => Ok (PyStr x) | None => Raise KeyError end).

(** The data dict that [compose] attached to a node, as form data. *)
Definition data_of_node (d : CommandList.node_data) : result Form.data_t :=
  match CommandList.nd_name d, CommandList.nd_command d, CommandList.nd_text d with
  | PyStr n, PyStr c, PyStr t =>
      Ok (Form.Data (Some (Z.of_nat (CommandList.nd_index d)))
            (option_map Z.of_nat (CommandList.nd_parent d))
            (Some (CommandList.nd_type d)) (Some n) (Some c) (Some t))
  | _, _, _ => Unmodelled
  end.

(** [on_tree_node_selected]; the root node carries no data. *)
Definition on_tree_node_selected (nd : option CommandList.node_data) : M unit :=
  fun s =>
    match nd with
    | None =>
        (State (st_store s) (form s) true false false false (abbreviations s),
         Ok tt)
    | Some d =>
        match data_of_node d with
        | Ok fd =>
            (State (st_store s) (Form.set_data fd (form s)) false true true
               (str_eqb (CommandList.nd_type d) s_parent) (abbreviations s),
             Ok tt)
        | Raise e => (s, Raise e)
        | Unmodelled => (s, Unmodelled)
        end
    end.

(** The state with [l] appended to the registered abbreviations. *)
Definition registering (l : list (str * str)) (s : state) : state :=
  State (st_store s) (form s) (text_opening_display s) (form_display s)
    (save_display s) (add_child_display s) (abbreviations s ++ l).

(** [keyboard.add_abbreviation(source_text, replacement_text)]: one more
    word listener is hooked; the library replaces none. *)
Definition add_abbreviation (source replacement : value) : M unit :=
  fun s =>
    match source, replacement with
    | PyStr a, PyStr b => (registering [(a, b)] s, Ok tt)
    | _, _ => (s, Raise TypeError)
    end.

Fixpoint for_each (items : list value) (body : value -> M unit) : M unit :=
  match items with
  | [] => ret tt
  | x :: rest => body x ;;; for_each rest body
  end.

(** The body of the inner loop of [listen_keys]. *)
Definition register_child (command child : value) : M unit :=
  c <~ lift (getitem_str command k_command) ;;
  a <~ lift (format c) ;;
  cc <~ lift (getitem_str child k_command) ;;
  b <~ lift (format cc) ;;
  t <~ lift (getitem_str child k_text) ;;
  add_abbreviation (PyStr (a ++ b)) t.

(** The body of the outer loop of [listen_keys]. *)
Definition register_entry (command : value) : M unit :=
  c <~ lift (getitem_str command k_command) ;;
  t <~ lift (getitem_str command k_text) ;;
  add_abbreviation c t ;;;
  ty <~ lift (getitem_str command k_type) ;;
  if eq_str ty s_parent then
    children <~ lift (getitem_str command k_children) ;;
    kids <~ lift (iter children) ;;
    for_each kids (register_child command)
  else ret tt.

(** [listen_keys], up to the blocking [keyboard.wait('esc')]. *)
Definition listen_keys : M unit :=
  fun s =>
    (items <~ lift (iter (commands (st_store s))) ;;
     for_each items register_entry) s.

(** The saving at the end of the ["save"] branch (see [save_store]). *)
Definition save : M unit :=
  fun s => (with_store s (save_store (st_store s)), Ok tt).

(** [commands[index][key] = x] *)
Definition set_top (index : Z) (key : str) (x : value) : M unit :=
  mutate (fun cmds => at_int cmds index (setitem_str key x)).

(** [commands[parent]["children"][index][key] = x] *)
Definition set_nested (parent index : Z) (key : str) (x : value) : M unit :=
  mutate (fun cmds =>
    at_int cmds parent (fun entry =>
      at_str entry k_children (fun children =>
        at_int children index (setitem_str key x)))).

(** The ["save"] branch of [on_button_pressed] up to the writing of the
    file, for the form data [data]: the three assignments of an update, or
    the append of a new entry. *)
Definition save_body (data : Form.data_t) : M unit :=
  match Form.index data with
  | Some index =>
      match Form.parent data with
      | Some parent =>
          (x <~ data_item (Form.name data) ;; set_nested parent index k_name x) ;;;
          (x <~ data_item (Form.command data) ;; set_nested parent index k_command x) ;;;
          (x <~ data_item (Form.text data) ;; set_nested parent index k_text x)
      | None =>
          (x <~ data_item (Form.name data) ;; set_top index k_name x) ;;;
          (x <~ data_item (Form.command data) ;; set_top index k_command x) ;;;
          (x <~ data_item (Form.text data) ;; set_top index k_text x)
      end
  | None =>
      n <~ data_item (Form.name data) ;;
      c <~ data_item (Form.command data) ;;
      t <~ data_item (Form.text data) ;;
      let new_command :=
        PyDict [(k_name, n); (k_command, c); (k_text, t);
                (k_type, PyStr s_parent); (k_children, PyList [])] in
      match Form.parent data with
      | Some parent =>
          new_command <~ lift (setitem_str k_type (PyStr s_child) new_command) ;;
          mutate (fun cmds =>
            at_int cmds parent (fun entry =>
              at_str entry k_children (append new_command)))
      | None => mutate (append new_command)
      end
  end.

(** The ["save"] branch of [on_button_pressed], for the form data [data]. *)
Definition save_pressed (data : Form.data_t) : M unit :=
  save_body data ;;; save.

Inductive button : Type := Start | Add | AddChild | Save.

(** [on_button_pressed].  After a save the list widget is replaced by a
    new [CommandList()], whose [compose] runs when it is mounted. *)
Definition on_button_pressed (b : button) : M unit :=
  fun s =>
    match b with
    | Start => listen_keys s
    | Add =>
        let f := Form.set_data (Form.Data None None None None None None) (form s) in
        (State (st_store s) f false true true (add_child_display s)
           (abbreviations s), Ok tt)
    | AddChild =>
        let d := Form.Data None (Form.index (Form.data (form s)))
                   None None None None in
        (State (st_store s) (Form.set_data d (form s)) false true true
           (add_child_display s) (abbreviations s), Ok tt)
    | Save => save_pressed (Form.data (form s)) s
    end.

(** The state after the module is loaded and the app composed and
    mounted: the CSS hides the form and the save and add-child buttons. *)
Definition running (st : store) : state :=
  State st Form.mounted true false false false [].

Definition start (f : option text) : result state :=
  st <- CommandList.load f ;;
  Ok (running st).

(** The messages that wait in the form are handled, [fuel] of them at
    most, before the next event of the user. *)
Definition settle (fuel : nat) (s : state) : state :=
  with_form s (Form.run fuel (form s)).

(** The user types in the form. *)
Definition typing (edit : Form.t -> Form.t) (s : state) : state :=
  with_form s (edit (form s)).

End AutoTypeApp.

(* ================================================================== *)
(** ** The data model of the specification *)
(* ================================================================== *)

(** The typed reading of an entry that the specification has in mind
    (trigger, text, kind, children), and the way it is read off the dicts
    of the collection.  Used to state what the handlers do on collections
    of that shape. *)
Module Spec.

Import Py.

Inductive Kind : Type := Parent | Child.

Record Leaf : Type := MkLeaf {
  leaf_trigger : str;
  leaf_text : str
}.

Record Entry : Type := MkEntry {
  trigger : str;
  text : str;
  kind : Kind;
  children : list Leaf
}.

(** The pairs of the specification's [compile]: the entry's own pair, then
    for a parent one pair per child, under the compound trigger. *)
Definition compile_entry (e : Entry) : list (str * str) :=
  (trigger e, text e)
  :: match kind e with
     | Parent =>
         map (fun c => (trigger e ++ leaf_trigger c, leaf_text c)) (children e)
     | Child => []
     end.

Definition compile (es : list Entry) : list (str * str) :=
  flat_map compile_entry es.

Definition read_str (d : list (str * value)) (k : str) : option str :=
  match dict_get d k with
  | Some (PyStr s) => Some s
  | _ => None
  end.

Definition view_leaf (v : value) : option Leaf :=
  match v with
  | PyDict d =>
      match read_str d k_command, read_str d k_text with
      | Some c, Some t => Some (MkLeaf c t)
      | _, _ => None
      end
  | _ => None
  end.

Fixpoint view_list {A} (view : value -> option A) (l : list value)
  : option (list A) :=
  match l with
  | [] => Some []
  | v :: l' =>
      match view v, view_list view l' with
      | Some a, Some r => Some (a :: r)
      | _, _ => None
      end
  end.

(** An entry whose [type] is anything but ["parent"] is a leaf, and its
    [children] field, if any, is not looked at. *)
Definition view_entry (v : value) : option Entry :=
  match v with
  | PyDict d =>
      match read_str d k_command, read_str d k_text, dict_get d k_type with
      | Some c, Some t, Some ty =>
          if eq_str ty s_parent then
            match dict_get d k_children with
            | Some (PyList kids) =>
                option_map (MkEntry c t Parent) (view_list view_leaf kids)
            | _ => None
            end
          else Some (MkEntry c t Child [])
      | _, _, _ => None
      end
  | _ => None
  end.

(** All the bindings of the trigger [t] among registered pairs. *)
Definition bindings (t : str) (table : list (str * str)) : list (str * str) :=
  filter (fun p => str_eqb (fst p) t) table.

(** The trigger as the specification stores it. *)
Definition normalize (v : str) : str :=
  if startswith v s_slash then v else s_slash ++ v.

(** An index beyond a sequence of length [len], at either end. *)
Definition out_of_range (len : nat) (i : Z) : Prop :=
  (i < - Z.of_nat len \/ Z.of_nat len <= i)%Z.

(** The entry addressed by the pair [(parent, index)]: [commands[index]],
    or [commands[parent]["children"][index]]. *)
Definition entry_at (cmds : value) (parent : option Z) (index : Z)
  : result value :=
  match parent with
  | Some p =>
      rbind (getitem_int cmds p) (fun e =>
      rbind (getitem_str e k_children) (fun kids => getitem_int kids index))
  | None => getitem_int cmds index
  end.

(** The trigger stored at [(parent, index)]; without an index, that of the
    last entry of the addressed sequence, where an append puts it. *)
Definition stored_trigger (cmds : value) (parent index : option Z)
  : result value :=
  rbind (entry_at cmds parent (match index with Some i => i | None => (-1)%Z end))
    (fun e => getitem_str e k_command).

(** The entry as the save handler builds it for an append. *)
Definition new_entry (n c t ty : str) : value :=
  PyDict [(k_name, PyStr n); (k_command, PyStr c); (k_text, PyStr t);
          (k_type, PyStr ty); (k_children, PyList [])].

(** The specification's [update] of one entry: name, trigger and text
    replaced in place. *)
Definition update_fields (n c t : str) (d : list (str * value))
  : list (str * value) :=
  dict_set (dict_set (dict_set d k_name (PyStr n)) k_command (PyStr c))
    k_text (PyStr t).

(** [l'] is [l] but for position [k], which holds [x']. *)
Definition only_at {A} (k : nat) (x' : A) (l l' : list A) : Prop :=
  length l' = length l
  /\ nth_error l' k = Some x'
  /\ forall j, j <> k -> nth_error l' j = nth_error l j.

(** [d'] is [d] but for the key [key], which holds [x']. *)
Definition only_key (key : str) (x' : value) (d d' : list (str * value)) : Prop :=
  dict_get d' key = Some x'
  /\ forall k, k <> key -> dict_get d' k = dict_get d k.

(** [d'] is [d] with the new name, trigger and text and every other field
    ([type] and [children] among them) as before. *)
Definition fields_set (n c t : str) (d d' : list (str * value)) : Prop :=
  dict_get d' k_name = Some (PyStr n)
  /\ dict_get d' k_command = Some (PyStr c)
  /\ dict_get d' k_text = Some (PyStr t)
  /\ forall k, k <> k_name -> k <> k_command -> k <> k_text ->
       dict_get d' k = dict_get d k.

(** The effect of the specification's [update] on a sequence of entries:
    the entry at [i] has its three fields set, its siblings are as before. *)
Definition updated_in (i : Z) (n c t : str) (l l' : list value) : Prop :=
  exists k d d',
    norm_index (length l) i = Some k
    /\ nth_error l k = Some (PyDict d)
    /\ only_at k (PyDict d') l l'
    /\ fields_set n c t d d'.

(** The same at [(parent, index)]: at top level, or among the children of
    the entry at [parent], which is otherwise as before, as are its
    siblings. *)
Definition updated (parent : option Z) (i : Z) (n c t : str)
  (l l' : list value) : Prop :=
  match parent with
  | None => updated_in i n c t l l'
  | Some p =>
      exists kp d d' kids kids',
        norm_index (length l) p = Some kp
        /\ nth_error l kp = Some (PyDict d)
        /\ dict_get d k_children = Some (PyList kids)
        /\ only_at kp (PyDict d') l l'
        /\ only_key k_children (PyList kids') d d'
        /\ updated_in i n c t kids kids'
  end.

(** The node data [nd] shows an entry of the collection: the pair
    [(parent, index)] it carries addresses an entry whose name, trigger and
    text are the ones it carries. *)
Definition shows (cmds : value) (nd : CommandList.node_data) : Prop :=
  exists e,
    entry_at cmds (option_map Z.of_nat (CommandList.nd_parent nd))
      (Z.of_nat (CommandList.nd_index nd)) = Ok e
    /\ getitem_str e k_name = Ok (CommandList.nd_name nd)
    /\ getitem_str e k_command = Ok (CommandList.nd_command nd)
    /\ getitem_str e k_text = Ok (CommandList.nd_text nd).

End Spec.

(* ================================================================== *)
(** ** Sample entries *)
(* ================================================================== *)

Module Sample.

(** An entry as the save handler builds it: five fields, in this order. *)
Definition entry (n c t ty : string) (children : list value) : value :=
  PyDict [(k_name, PyStr (u n)); (k_command, PyStr (u c)); (k_text, PyStr (u t));
          (k_type, PyStr (u ty)); (k_children, PyList children)].

(** A leaf as the persisted layout of the specification has it: no
    [children] field. *)
Definition leaf (n c t : string) : value :=
  PyDict [(k_name, PyStr (u n)); (k_command, PyStr (u c)); (k_text, PyStr (u t));
          (k_type, PyStr s_child)].

(** A child as the persisted layout of the specification has it: three
    fields. *)
Definition child3 (n c t : string) : value :=
  PyDict [(k_name, PyStr (u n)); (k_command, PyStr (u c)); (k_text, PyStr (u t))].

(** The form data after the user filled in the three fields. *)
Definition filled (index parent : option Z) (n c t : string) : Form.data_t :=
  Form.Data index parent None (Some (u n)) (Some (u c)) (Some (u t)).

(** The app holding the collection [cmds], with no file yet. *)
Definition holding (cmds : value) : AutoTypeApp.state :=
  AutoTypeApp.running (Store cmds None).

(** The same while the form holds [data], with its widgets showing it and
    no message pending. *)
Definition editing (cmds : value) (data : Form.data_t) : AutoTypeApp.state :=
  AutoTypeApp.with_form (holding cmds)
    (Form.Make data (Form.get_or_empty (Form.name data))
       (Form.get_or_empty (Form.command data))
       (Form.get_or_empty (Form.text data)) []).

End Sample.
Unset Implicit Arguments.

(* ================================================================== *)
(** ** Strings and dicts *)
(* ================================================================== *)

Lemma str_eqb_refl (a : str) : str_eqb a a = true.
Proof. induction a as [|x a IH]; simpl; [reflexivity|]. now rewrite N.eqb_refl. Qed.

Lemma str_eqb_eq (a b : str) : str_eqb a b = true <-> a = b.
Proof.
  split.
  - revert b. induction a as [|x a IH]; intros [|y b] H; simpl in H;
      try discriminate; [reflexivity|].
    apply andb_true_iff in H as [Hx Hr]. apply N.eqb_eq in Hx.
    f_equal; auto.
  - intros ->. apply str_eqb_refl.
Qed.

Lemma str_eqb_neq (a b : str) : str_eqb a b = false <-> a <> b.
Proof.
  split.
  - intros H E. apply str_eqb_eq in E. congruence.
  - intros H. destruct (str_eqb a b) eqn:E; [|reflexivity].
    apply str_eqb_eq in E. contradiction.
Qed.

Module ListenFacts.
Import Py AutoTypeApp Spec.
Local Open Scope m_scope.

Lemma registering_nil s : registering [] s = s.
Proof. destruct s; unfold registering; simpl. now rewrite List.app_nil_r. Qed.

Lemma registering_app l1 l2 s :
  registering l2 (registering l1 s) = registering (l1 ++ l2) s.
Proof. unfold registering; simpl. now rewrite List.app_assoc. Qed.

Lemma read_str_getitem d k x :
  read_str d k = Some x -> getitem_str (PyDict d) k = Ok (PyStr x).
Proof.
  unfold read_str, getitem_str. destruct (dict_get d k) as [[]|]; try discriminate.
  now intros [= ->].
Qed.

Lemma for_each_app (l1 l2 : list value) (body : value -> M unit) s :
  for_each (l1 ++ l2) body s = (for_each l1 body ;;; for_each l2 body) s.
Proof.
  revert s. induction l1 as [|x l1 IH]; intros s; simpl.
  - reflexivity.
  - unfold bind. destruct (body x s) as [s' [[]| |]]; auto.
Qed.

Lemma for_each_cons (x : value) (l : list value) (body : value -> M unit) s :
  for_each (x :: l) body s
  = match body x s with
    | (s', Ok _) => for_each l body s'
    | (s', Raise e) => (s', Raise e)
    | (s', Unmodelled) => (s', Unmodelled)
    end.
Proof. reflexivity. Qed.

Lemma register_child_ok d c dk kc kt s :
  read_str d k_command = Some c ->
  read_str dk k_command = Some kc -> read_str dk k_text = Some kt ->
  register_child (PyDict d) (PyDict dk) s = (registering [(c ++ kc, kt)] s, Ok tt).
Proof.
  intros Hc Hkc Hkt. unfold register_child, bind, lift.
  rewrite (read_str_getitem _ _ _ Hc), (read_str_getitem _ _ _ Hkc),
    (read_str_getitem _ _ _ Hkt).
  reflexivity.
Qed.

Lemma register_children_ok d c (kids : list value) (ls : list Leaf) s :
  read_str d k_command = Some c ->
  view_list view_leaf kids = Some ls ->
  for_each kids (register_child (PyDict d)) s
  = (registering (map (fun l => (c ++ leaf_trigger l, leaf_text l)) ls) s, Ok tt).
Proof.
  intros Hc. revert ls s.
  induction kids as [|k kids IH]; intros ls s Hv; simpl in Hv.
  - injection Hv as <-. simpl. now rewrite registering_nil.
  - destruct (view_leaf k) as [l|] eqn:Hk; [|discriminate].
    destruct (view_list view_leaf kids) as [ls'|] eqn:Hks; [|discriminate].
    injection Hv as <-.
    unfold view_leaf in Hk. destruct k as [| | | | |dk]; try discriminate.
    destruct (read_str dk k_command) as [kc|] eqn:Hkc; [|discriminate].
    destruct (read_str dk k_text) as [kt|] eqn:Hkt; [|discriminate].
    injection Hk as <-.
    rewrite for_each_cons, (register_child_ok _ _ _ _ _ s Hc Hkc Hkt).
    rewrite (IH ls' _ eq_refl), registering_app. reflexivity.
Qed.

Lemma register_entry_ok (v : value) (e : Entry) s :
  view_entry v = Some e ->
  register_entry v s = (registering (compile_entry e) s, Ok tt).
Proof.
  unfold view_entry. destruct v as [| | | | |d]; try discriminate.
  destruct (read_str d k_command) as [c|] eqn:Hc; [|discriminate].
  destruct (read_str d k_text) as [t|] eqn:Ht; [|discriminate].
  destruct (dict_get d k_type) as [ty|] eqn:Hty; [|discriminate].
  unfold register_entry, bind, lift.
  rewrite (read_str_getitem _ _ _ Hc), (read_str_getitem _ _ _ Ht).
  unfold add_abbreviation at 1. cbv beta iota.
  unfold getitem_str at 1. rewrite Hty.
  destruct (eq_str ty s_parent) eqn:Hp.
  - destruct (dict_get d k_children) as [[| | | |kids|]|] eqn:Hch; try discriminate.
    destruct (view_list view_leaf kids) as [ls|] eqn:Hls; [|discriminate].
    intros [= <-]. unfold getitem_str. rewrite Hch. unfold iter.
    rewrite (register_children_ok _ _ kids _ _ Hc Hls).
    unfold registering, compile_entry; simpl. rewrite <- List.app_assoc. reflexivity.
  - intros [= <-]. reflexivity.
Qed.

Lemma for_each_register_ok (vs : list value) (es : list Entry) s :
  view_list view_entry vs = Some es ->
  for_each vs register_entry s = (registering (compile es) s, Ok tt).
Proof.
  revert es s. induction vs as [|v vs IH]; intros es s H; simpl in H.
  - injection H as <-. simpl. now rewrite registering_nil.
  - destruct (view_entry v) as [e|] eqn:He; [|discriminate].
    destruct (view_list view_entry vs) as [es'|] eqn:Hes; [|discriminate].
    injection H as <-.
    rewrite for_each_cons, (register_entry_ok _ _ s He).
    rewrite (IH _ _ eq_refl), registering_app. reflexivity.
Qed.

Lemma listen_keys_ok (vs : list value) (es : list Entry) s :
  commands (st_store s) = PyList vs ->
  view_list view_entry vs = Some es ->
  listen_keys s = (registering (compile es) s, Ok tt).
Proof.
  intros Hc Hv. unfold listen_keys, bind, lift. rewrite Hc. simpl iter.
  cbv beta iota. now apply for_each_register_ok.
Qed.

End ListenFacts.
Module JsonFacts.
Import Json.
Local Open Scope N_scope.

(** *** Hexadecimal escapes *)

Lemma all_from_spec (fuel : nat) (p : N -> bool) :
  forall x, all_from fuel x p = true ->
  forall y, x <= y -> y < x + N.of_nat fuel -> p y = true.
Proof.
  induction fuel as [|f IH]; intros x H y Hlo Hhi.
  - lia.
  - simpl in H. apply andb_true_iff in H as [H0 H1].
    destruct (N.eq_dec y x) as [->|Hne]; [assumption|].
    apply (IH (N.succ x)); [assumption|lia|lia].
Qed.

Definition hex4_ok (n : N) : bool :=
  match decode_uXXXX (hexdigit (N.land (N.shiftr n 12) 15))
          (hexdigit (N.land (N.shiftr n 8) 15))
          (hexdigit (N.land (N.shiftr n 4) 15)) (hexdigit (N.land n 15)) with
  | Some m => m =? n
  | None => false
  end.

Lemma hex4_ok_all : all_from (N.to_nat 0x10000) 0 hex4_ok = true.
Proof. vm_compute. reflexivity. Qed.

Lemma decode_hex4 (n : N) :
  n < 0x10000 ->
  decode_uXXXX (hexdigit (N.land (N.shiftr n 12) 15))
    (hexdigit (N.land (N.shiftr n 8) 15))
    (hexdigit (N.land (N.shiftr n 4) 15)) (hexdigit (N.land n 15)) = Some n.
Proof.
  intros H.
  pose proof (all_from_spec _ hex4_ok 0 hex4_ok_all n) as Hok.
  rewrite N2Nat.id in Hok. specialize (Hok (N.le_0_l n) H).
  unfold hex4_ok in Hok.
  destruct (decode_uXXXX _ _ _ _) as [m|]; [|discriminate Hok].
  f_equal. now apply N.eqb_eq.
Qed.





Lemma lor_shiftl_add (k a b : N) :
  b < 2 ^ k -> N.lor (N.shiftl a k) b = a * 2 ^ k + b.
Proof.
  intros Hb.
  assert (Hland : N.land (N.shiftl a k) b = 0).
  { apply N.bits_inj. intros m. rewrite N.land_spec, N.bits_0.
    destruct (N.lt_ge_cases m k) as [Hm|Hm].
    - now rewrite N.shiftl_spec_low.
    - rewrite <- (N.mod_small b (2 ^ k)) by assumption.
      rewrite N.mod_pow2_bits_high by assumption. apply andb_false_r. }
  rewrite <- N.lxor_lor by assumption.
  rewrite <- N.add_nocarry_lxor by assumption.
  now rewrite N.shiftl_mul_pow2.
Qed.

Lemma lor_surrogate_base (x : N) :
  x < 1024 -> N.lor 0xd800 x = 0xd800 + x /\ N.lor 0xdc00 x = 0xdc00 + x.
Proof.
  intros H.
  assert (Hall : all_from (N.to_nat 1024) 0
            (fun x => (N.lor 0xd800 x =? 0xd800 + x) && (N.lor 0xdc00 x =? 0xdc00 + x)) = true)
    by (vm_compute; reflexivity).
  pose proof (all_from_spec _ _ 0 Hall x (N.le_0_l x)) as Hx.
  rewrite N2Nat.id in Hx. specialize (Hx H).
  apply andb_true_iff in Hx as [H1 H2].
  split; now apply N.eqb_eq.
Qed.

Lemma land_3ff (n : N) : N.land n 0x3ff = n mod 1024.
Proof. change 0x3ff with (N.ones 10). now rewrite N.land_ones. Qed.

Lemma land_15 (n : N) : N.land n 15 = n mod 16.
Proof. change 15 with (N.ones 4). now rewrite N.land_ones. Qed.

Lemma surrogates_of (c : N) :
  0x10000 <= c -> c < 0x110000 ->
  is_high_surrogate (high_of c) = true /\ is_low_surrogate (low_of c) = true
  /\ join_surrogates (high_of c) (low_of c) = c.
Proof.
  intros Hlo Hhi. unfold high_of, low_of.
  set (n := c - 0x10000).
  assert (Hn : n < 0x100000) by (subst n; lia).
  assert (Hc : c = 0x10000 + n) by (subst n; lia).
  clearbody n.
  rewrite !land_3ff, N.shiftr_div_pow2. change (2 ^ 10) with 1024.
  assert (Hq : n / 1024 < 1024) by (apply N.Div0.div_lt_upper_bound; lia).
  rewrite (N.mod_small (n / 1024)) by assumption.
  assert (Hr : n mod 1024 < 1024) by (apply N.mod_lt; lia).
  destruct (lor_surrogate_base _ Hq) as [-> _].
  destruct (lor_surrogate_base _ Hr) as [_ ->].
  pose proof (N.div_mod n 1024) as Hdm.
  remember (n / 1024) as q. remember (n mod 1024) as r.
  unfold is_high_surrogate, is_low_surrogate, join_surrogates.
  repeat split.
  - apply andb_true_iff; split; apply N.leb_le; lia.
  - apply andb_true_iff; split; apply N.leb_le; lia.
  - replace (0xd800 + q - 0xd800) with q by lia.
    replace (0xdc00 + r - 0xdc00) with r by lia.
    rewrite lor_shiftl_add by (change (2 ^ 10) with 1024; assumption).
    change (2 ^ 10) with 1024. lia.
Qed.

Lemma join_surrogates_range (hi lo : N) :
  is_high_surrogate hi = true -> is_low_surrogate lo = true ->
  0x10000 <= join_surrogates hi lo /\ join_surrogates hi lo < 0x110000.
Proof.
  unfold is_high_surrogate, is_low_surrogate, join_surrogates.
  intros Hh Hl.
  apply andb_true_iff in Hh as [Hh1 Hh2]. apply andb_true_iff in Hl as [Hl1 Hl2].
  apply N.leb_le in Hh1, Hh2, Hl1, Hl2.
  rewrite lor_shiftl_add by (change (2 ^ 10) with 1024; lia).
  change (2 ^ 10) with 1024. lia.
Qed.

Lemma hexval_lt (c x : N) : hexval c = Some x -> x < 16.
Proof.
  unfold hexval, is_digit.
  destruct ((48 <=? c) && (c <=? 57)) eqn:E1.
  { intros [= <-]. apply andb_true_iff in E1 as [A B].
    apply N.leb_le in A, B. lia. }
  destruct ((97 <=? c) && (c <=? 102)) eqn:E2.
  { intros [= <-]. apply andb_true_iff in E2 as [A B].
    apply N.leb_le in A, B. lia. }
  destruct ((65 <=? c) && (c <=? 70)) eqn:E3; [|discriminate].
  intros [= <-]. apply andb_true_iff in E3 as [A B].
  apply N.leb_le in A, B. lia.
Qed.

Lemma decode_uXXXX_lt (a b c d n : N) :
  decode_uXXXX a b c d = Some n -> n < 0x10000.
Proof.
  unfold decode_uXXXX.
  destruct (hexval a) as [x|] eqn:Ha; [|discriminate].
  destruct (hexval b) as [y|] eqn:Hb; [|discriminate].
  destruct (hexval c) as [z|] eqn:Hc; [|discriminate].
  destruct (hexval d) as [w|] eqn:Hd; [|discriminate].
  intros [= <-].
  apply hexval_lt in Ha, Hb, Hc, Hd.
  rewrite !lor_shiftl_add by (change (2 ^ 4) with 16; assumption).
  change (2 ^ 4) with 16. lia.
Qed.



(** *** Strings: decoding what the encoder wrote *)

Lemma lookahead_u (g1 g2 g3 g4 : N) (t : text) :
  lookahead (BACKSLASH :: 117 :: g1 :: g2 :: g3 :: g4 :: t)
  = Some (decode_uXXXX g1 g2 g3 g4).
Proof. reflexivity. Qed.

Lemma lookahead_not_backslash (b : char) (t : text) :
  (b =? BACKSLASH) = false -> lookahead (b :: t) = None.
Proof.
  intros H. unfold lookahead.
  destruct t as [|? [|? [|? [|? [|? ?]]]]]; try reflexivity.
  now rewrite H.
Qed.

Lemma lookahead_not_u (b x : char) (t : text) :
  (x =? 117) = false -> lookahead (b :: x :: t) = None.
Proof.
  intros H. unfold lookahead.
  destruct t as [|? [|? [|? [|? ?]]]]; try reflexivity.
  rewrite H. now rewrite andb_false_r.
Qed.

(** One step of [scanstring] on an escape [\\uXXXX]. *)
Lemma scanstring_u (h1 h2 h3 h4 : N) (t : text) :
  scanstring (BACKSLASH :: 117 :: h1 :: h2 :: h3 :: h4 :: t)
  = match decode_uXXXX h1 h2 h3 h4 with
    | None => Raise JSONDecodeError
    | Some uni =>
        if is_high_surrogate uni then
          match lookahead t with
          | Some None => Raise JSONDecodeError
          | Some (Some uni2) =>
              if is_low_surrogate uni2
              then cons_char (join_surrogates uni uni2) (scanstring (skipn 6 t))
              else cons_char uni (scanstring t)
          | None => cons_char uni (scanstring t)
          end
        else cons_char uni (scanstring t)
    end.
Proof.
  change (scanstring (BACKSLASH :: 117 :: h1 :: h2 :: h3 :: h4 :: t))
    with (match decode_uXXXX h1 h2 h3 h4 with
          | None => Raise JSONDecodeError
          | Some uni =>
              if is_high_surrogate uni then
                match t with
                | b1 :: u1 :: g1 :: g2 :: g3 :: g4 :: s4 =>
                    if (b1 =? BACKSLASH) && (u1 =? 117) then
                      match decode_uXXXX g1 g2 g3 g4 with
                      | None => Raise JSONDecodeError
                      | Some uni2 =>
                          if is_low_surrogate uni2
                          then cons_char (join_surrogates uni uni2) (scanstring s4)
                          else cons_char uni (scanstring t)
                      end
                    else cons_char uni (scanstring t)
                | _ => cons_char uni (scanstring t)
                end
              else cons_char uni (scanstring t)
          end).
  destruct (decode_uXXXX h1 h2 h3 h4) as [uni|]; [|reflexivity].
  destruct (is_high_surrogate uni); [|reflexivity].
  unfold lookahead.
  destruct t as [|b1 [|u1 [|g1 [|g2 [|g3 [|g4 s4]]]]]]; try reflexivity.
  destruct ((b1 =? BACKSLASH) && (u1 =? 117)); [|reflexivity].
  destruct (decode_uXXXX g1 g2 g3 g4); reflexivity.
Qed.

(** One step of [scanstring] on a two-character escape. *)
Lemma scanstring_simple (e ch : N) (t : text) :
  (e =? 117) = false -> unescape e = Some ch ->
  scanstring (BACKSLASH :: e :: t) = cons_char ch (scanstring t).
Proof.
  intros He Hu.
  change (scanstring (BACKSLASH :: e :: t))
    with (if e =? 117 then
            match t with
            | h1 :: h2 :: h3 :: h4 :: s3 =>
                match decode_uXXXX h1 h2 h3 h4 with
                | None => Raise JSONDecodeError
                | Some uni =>
                    if is_high_surrogate uni then
                      match s3 with
                      | b1 :: u1 :: g1 :: g2 :: g3 :: g4 :: s4 =>
                          if (b1 =? BACKSLASH) && (u1 =? 117) then
                            match decode_uXXXX g1 g2 g3 g4 with
                            | None => Raise JSONDecodeError
                            | Some uni2 =>
                                if is_low_surrogate uni2
                                then cons_char (join_surrogates uni uni2) (scanstring s4)
                                else cons_char uni (scanstring s3)
                            end
                          else cons_char uni (scanstring s3)
                      | _ => cons_char uni (scanstring s3)
                      end
                    else cons_char uni (scanstring s3)
                end
            | _ => Raise JSONDecodeError
            end
          else match unescape e with
               | Some ch => cons_char ch (scanstring t)
               | None => Raise JSONDecodeError
               end).
  now rewrite He, Hu.
Qed.

(** One step of [scanstring] on a character that stands for itself. *)
Lemma scanstring_plain (c : char) (t : text) :
  (c =? QUOTE) = false -> (c =? BACKSLASH) = false -> (c <? 32) = false ->
  is_scalar c = true ->
  scanstring (c :: t) = cons_char c (scanstring t).
Proof.
  intros H1 H2 H3 H4. simpl. now rewrite H1, H2, H3, H4.
Qed.

(** What [lookahead] sees at the head of an encoded string body. *)
Definition no_low_escape (t : text) : Prop :=
  match lookahead t with
  | None => True
  | Some None => False
  | Some (Some x) => is_low_surrogate x = false
  end.

Definition head_not_low (s : str) : bool :=
  match s with
  | d :: _ => negb (is_low_surrogate d)
  | [] => true
  end.

Lemma u_escape_eq (n : N) (t : text) :
  u_escape n ++ t
  = BACKSLASH :: 117 :: hexdigit (N.land (N.shiftr n 12) 15)
      :: hexdigit (N.land (N.shiftr n 8) 15)
      :: hexdigit (N.land (N.shiftr n 4) 15) :: hexdigit (N.land n 15) :: t.
Proof. reflexivity. Qed.

Lemma high_not_low (x : N) :
  is_high_surrogate x = true -> is_low_surrogate x = false.
Proof.
  unfold is_high_surrogate, is_low_surrogate. intros H.
  apply andb_true_iff in H as [_ H]. apply N.leb_le in H.
  apply andb_false_iff. left. apply N.leb_gt. lia.
Qed.

Lemma high_lt (x : N) : is_high_surrogate x = true -> x < 0x10000.
Proof.
  unfold is_high_surrogate. intros H.
  apply andb_true_iff in H as [_ H]. apply N.leb_le in H. lia.
Qed.

Lemma low_lt (x : N) : is_low_surrogate x = true -> x < 0x10000.
Proof.
  unfold is_low_surrogate. intros H.
  apply andb_true_iff in H as [_ H]. apply N.leb_le in H. lia.
Qed.

Lemma no_low_escape_encoded (s : str) (rest : text) :
  wf_str s = true -> head_not_low s = true ->
  no_low_escape (flat_map escape_char s ++ QUOTE :: rest).
Proof.
  intros Hwf Hhd. unfold no_low_escape.
  destruct s as [|d s'].
  - cbn [flat_map List.app]. now rewrite lookahead_not_backslash.
  - simpl in Hwf, Hhd. apply andb_true_iff in Hwf as [Hwf _].
    apply andb_true_iff in Hwf as [Hd _]. apply N.ltb_lt in Hd.
    apply negb_true_iff in Hhd.
    cbn [flat_map]. rewrite <- List.app_assoc.
    set (T := flat_map escape_char s' ++ QUOTE :: rest).
    unfold escape_char.
    destruct (d =? BACKSLASH) eqn:E1; [cbn [List.app]; now rewrite lookahead_not_u|].
    destruct (d =? QUOTE) eqn:E2; [cbn [List.app]; now rewrite lookahead_not_u|].
    destruct (d =? 8) eqn:E3; [cbn [List.app]; now rewrite lookahead_not_u|].
    destruct (d =? 12) eqn:E4; [cbn [List.app]; now rewrite lookahead_not_u|].
    destruct (d =? 10) eqn:E5; [cbn [List.app]; now rewrite lookahead_not_u|].
    destruct (d =? 13) eqn:E6; [cbn [List.app]; now rewrite lookahead_not_u|].
    destruct (d =? 9) eqn:E7; [cbn [List.app]; now rewrite lookahead_not_u|].
    destruct ((32 <=? d) && (d <=? 126)) eqn:E8.
    { cbn [List.app]. now rewrite lookahead_not_backslash. }
    destruct (d <? 0x10000) eqn:E9.
    + apply N.ltb_lt in E9. rewrite u_escape_eq, lookahead_u, decode_hex4 by assumption.
      assumption.
    + apply N.ltb_ge in E9.
      destruct (surrogates_of d E9 Hd) as (Hh & Hl & _).
      rewrite <- List.app_assoc, u_escape_eq, lookahead_u.
      rewrite decode_hex4 by (now apply high_lt).
      now apply high_not_low.
Qed.

(** [scanstring] on the replacement of one character gives it back. *)
Lemma scanstring_escape_char (c : N) (t : text) :
  c < 0x110000 ->
  (is_high_surrogate c = true -> no_low_escape t) ->
  scanstring (escape_char c ++ t) = cons_char c (scanstring t).
Proof.
  intros Hc Hla. unfold escape_char.
  destruct (c =? BACKSLASH) eqn:E1.
  { apply N.eqb_eq in E1. subst c. now apply scanstring_simple. }
  destruct (c =? QUOTE) eqn:E2.
  { apply N.eqb_eq in E2. subst c. now apply scanstring_simple. }
  destruct (c =? 8) eqn:E3.
  { apply N.eqb_eq in E3. subst c. now apply scanstring_simple. }
  destruct (c =? 12) eqn:E4.
  { apply N.eqb_eq in E4. subst c. now apply scanstring_simple. }
  destruct (c =? 10) eqn:E5.
  { apply N.eqb_eq in E5. subst c. now apply scanstring_simple. }
  destruct (c =? 13) eqn:E6.
  { apply N.eqb_eq in E6. subst c. now apply scanstring_simple. }
  destruct (c =? 9) eqn:E7.
  { apply N.eqb_eq in E7. subst c. now apply scanstring_simple. }
  destruct ((32 <=? c) && (c <=? 126)) eqn:E8.
  { apply andb_true_iff in E8 as [A B]. apply N.leb_le in A, B.
    apply scanstring_plain; try assumption.
    - apply N.ltb_ge. exact A.
    - unfold is_scalar. apply orb_true_iff. left. apply N.ltb_lt. lia. }
  destruct (c <? 0x10000) eqn:E9.
  - apply N.ltb_lt in E9.
    rewrite u_escape_eq, scanstring_u, decode_hex4 by assumption.
    destruct (is_high_surrogate c) eqn:Hh; [|reflexivity].
    specialize (Hla eq_refl). unfold no_low_escape in Hla.
    destruct (lookahead t) as [[x|]|]; [|contradiction|reflexivity].
    now rewrite Hla.
  - apply N.ltb_ge in E9.
    destruct (surrogates_of c E9 Hc) as (Hh & Hl & Hj).
    rewrite <- List.app_assoc, u_escape_eq, scanstring_u.
    rewrite decode_hex4 by (now apply high_lt). rewrite Hh.
    rewrite u_escape_eq, lookahead_u, decode_hex4 by (now apply low_lt).
    rewrite Hl, Hj. reflexivity.
Qed.

Lemma wf_str_cons (c : N) (s : str) :
  wf_str (c :: s) = true ->
  c < 0x110000 /\ (is_high_surrogate c = true -> head_not_low s = true)
  /\ wf_str s = true.
Proof.
  simpl. intros H. apply andb_true_iff in H as [H H3].
  apply andb_true_iff in H as [H1 H2]. apply N.ltb_lt in H1.
  apply negb_true_iff in H2. repeat split; try assumption.
  intros Hh. rewrite Hh in H2. simpl in H2.
  destruct s; [reflexivity|]. simpl. now rewrite H2.
Qed.

(** The decoder reads back the body of an encoded string. *)
Lemma scanstring_encoded (s : str) (rest : text) :
  wf_str s = true ->
  scanstring (flat_map escape_char s ++ QUOTE :: rest) = Ok (s, rest).
Proof.
  induction s as [|c s IH]; intros Hwf.
  - reflexivity.
  - destruct (wf_str_cons _ _ Hwf) as (Hc & Hhd & Hs).
    cbn [flat_map]. rewrite <- List.app_assoc.
    rewrite scanstring_escape_char.
    + now rewrite IH.
    + assumption.
    + intros Hh. apply no_low_escape_encoded; auto.
Qed.

(** *** Strings: what the decoder can return *)

Lemma cons_char_ok (c : char) (r : result (str * text)) (x : str) (rest : text) :
  cons_char c r = Ok (x, rest) ->
  exists x', r = Ok (x', rest) /\ x = c :: x'.
Proof.
  unfold cons_char, rbind. destruct r as [[x' r']| |]; try discriminate.
  intros [= <- <-]. now exists x'.
Qed.

Lemma scanstring_u_short (t : text) :
  (length t < 4)%nat -> scanstring (BACKSLASH :: 117 :: t) = Raise JSONDecodeError.
Proof.
  intros H. destruct t as [|? [|? [|? [|? ?]]]]; try reflexivity.
  simpl in H. lia.
Qed.

Lemma scanstring_backslash_end : scanstring [BACKSLASH] = Raise JSONDecodeError.
Proof. reflexivity. Qed.

Lemma scanstring_bad_escape (e : char) (t : text) :
  (e =? 117) = false -> unescape e = None ->
  scanstring (BACKSLASH :: e :: t) = Raise JSONDecodeError.
Proof.
  intros He Hu. destruct t; simpl; now rewrite He, Hu.
Qed.

Lemma scanstring_raw (c : char) (t : text) :
  (c =? QUOTE) = false -> (c =? BACKSLASH) = false ->
  scanstring (c :: t)
  = if c <? 32 then Raise JSONDecodeError
    else if is_scalar c then cons_char c (scanstring t) else Unmodelled.
Proof. intros H1 H2. simpl. now rewrite H1, H2. Qed.

Lemma unescape_small (e ch : char) :
  unescape e = Some ch -> ch < 0x80.
Proof.
  unfold unescape.
  repeat match goal with
         | |- (if ?b then _ else _) = _ -> _ => destruct b
         end; try discriminate; intros [= <-]; reflexivity.
Qed.

Lemma lookahead_length (t : text) (o : option N) :
  lookahead t = Some o -> (length (skipn 6 t) < length t)%nat.
Proof.
  destruct t as [|? [|? [|? [|? [|? [|? ?]]]]]]; try discriminate.
  intros _. simpl. lia.
Qed.

Lemma small_not_surrogate (c : N) :
  c < 0xd800 -> is_high_surrogate c = false /\ is_low_surrogate c = false.
Proof.
  intros H. unfold is_high_surrogate, is_low_surrogate.
  split; apply andb_false_iff; left; apply N.leb_gt; lia.
Qed.

Lemma big_not_surrogate (c : N) :
  0xdfff < c -> is_high_surrogate c = false /\ is_low_surrogate c = false.
Proof.
  intros H. unfold is_high_surrogate, is_low_surrogate.
  split; apply andb_false_iff; right; apply N.leb_gt; lia.
Qed.

Lemma wf_str_intro (c : N) (x : str) :
  c < 0x110000 ->
  (is_high_surrogate c = true -> head_not_low x = true) ->
  wf_str x = true -> wf_str (c :: x) = true.
Proof.
  intros Hc Hp Hx. simpl. rewrite Hx, andb_true_r.
  apply andb_true_iff. split; [now apply N.ltb_lt|].
  apply negb_true_iff.
  destruct (is_high_surrogate c); [|reflexivity].
  specialize (Hp eq_refl). destruct x as [|d x']; [reflexivity|].
  simpl in Hp. apply negb_true_iff in Hp. now rewrite Hp.
Qed.

(** What [scanstring] returns is well formed, and begins with a low
    surrogate only when the text begins with the escape of one. *)
Lemma scanstring_sound_aux (n : nat) :
  forall s x r, (length s < n)%nat -> scanstring s = Ok (x, r) ->
  wf_str x = true
  /\ match x with
     | h :: _ => is_low_surrogate h = true -> lookahead s = Some (Some h)
     | [] => True
     end.
Proof.
  induction n as [|n IH]; intros s x r Hlen H; [lia|].
  destruct s as [|c s1]; [discriminate|].
  destruct (c =? QUOTE) eqn:Eq.
  { simpl in H. rewrite Eq in H. injection H as <- <-. now split. }
  destruct (c =? BACKSLASH) eqn:Eb.
  - apply N.eqb_eq in Eb. subst c.
    destruct s1 as [|e s2]; [discriminate|].
    destruct (e =? 117) eqn:Eu.
    + apply N.eqb_eq in Eu. subst e.
      destruct (Nat.ltb (length s2) 4) eqn:Es.
      { apply Nat.ltb_lt in Es. rewrite scanstring_u_short in H by assumption.
        discriminate. }
      apply Nat.ltb_ge in Es.
      destruct s2 as [|h1 [|h2 [|h3 [|h4 s3]]]]; try (simpl in Es; lia).
      rewrite scanstring_u in H. rewrite lookahead_u.
      destruct (decode_uXXXX h1 h2 h3 h4) as [uni|] eqn:Hd; [|discriminate].
      pose proof (decode_uXXXX_lt _ _ _ _ _ Hd) as Huni.
      assert (Hplain : forall x', scanstring s3 = Ok (x', r) -> x = uni :: x' ->
                (is_high_surrogate uni = true -> head_not_low x' = true) ->
                wf_str x = true
                /\ match x with
                   | h :: _ => is_low_surrogate h = true -> Some (Some uni) = Some (Some h)
                   | [] => True
                   end).
      { intros x' Hs -> Hp.
        destruct (IH s3 x' r) as [Hw _]; [simpl in Hlen; lia|assumption|].
        split; [|reflexivity]. apply wf_str_intro; [lia|assumption|assumption]. }
      destruct (is_high_surrogate uni) eqn:Hh.
      * destruct (lookahead s3) as [[uni2|]|] eqn:Hla; [| discriminate |].
        -- destruct (is_low_surrogate uni2) eqn:Hl.
           ++ apply cons_char_ok in H as (x' & Hs & ->).
              destruct (join_surrogates_range _ _ Hh Hl) as [J1 J2].
              destruct (big_not_surrogate (join_surrogates uni uni2)) as [N1 N2]; [lia|].
              pose proof (lookahead_length _ _ Hla) as Hsk.
              destruct (IH (skipn 6 s3) x' r) as [Hw _];
                [simpl in Hlen; lia|assumption|].
              split.
              ** apply wf_str_intro; [assumption| |assumption].
                 rewrite N1. discriminate.
              ** rewrite N2. discriminate.
           ++ apply cons_char_ok in H as (x' & Hs & ->).
              apply (Hplain x' Hs eq_refl). intros _.
              destruct (IH s3 x' r) as [_ Hhd]; [simpl in Hlen; lia|assumption|].
              destruct x' as [|h x'']; [reflexivity|]. simpl.
              destruct (is_low_surrogate h) eqn:Hlh; [|reflexivity].
              specialize (Hhd eq_refl). rewrite Hla in Hhd.
              injection Hhd as ->. congruence.
        -- apply cons_char_ok in H as (x' & Hs & ->).
           apply (Hplain x' Hs eq_refl). intros _.
           destruct (IH s3 x' r) as [_ Hhd]; [simpl in Hlen; lia|assumption|].
           destruct x' as [|h x'']; [reflexivity|]. simpl.
           destruct (is_low_surrogate h) eqn:Hlh; [|reflexivity].
           specialize (Hhd eq_refl). rewrite Hla in Hhd. discriminate.
      * apply cons_char_ok in H as (x' & Hs & ->).
        apply (Hplain x' Hs eq_refl). discriminate.
    + destruct (unescape e) as [ch|] eqn:Hu.
      * rewrite (scanstring_simple _ _ _ Eu Hu) in H.
        apply cons_char_ok in H as (x' & Hs & ->).
        pose proof (unescape_small _ _ Hu) as Hch.
        destruct (small_not_surrogate ch) as [N1 N2]; [lia|].
        destruct (IH s2 x' r) as [Hw _]; [simpl in Hlen; lia|assumption|].
        split.
        -- apply wf_str_intro; [lia| |assumption]. rewrite N1. discriminate.
        -- rewrite N2. discriminate.
      * rewrite (scanstring_bad_escape _ _ Eu Hu) in H. discriminate.
  - rewrite (scanstring_raw _ _ Eq Eb) in H.
    destruct (c <? 32); [discriminate|].
    destruct (is_scalar c) eqn:Hsc; [|discriminate].
    apply cons_char_ok in H as (x' & Hs & ->).
    destruct (IH s1 x' r) as [Hw _]; [simpl in Hlen; lia|assumption|].
    unfold is_scalar in Hsc. apply orb_true_iff in Hsc.
    assert (Hns : is_high_surrogate c = false /\ is_low_surrogate c = false
                  /\ c < 0x110000).
    { destruct Hsc as [Hsc|Hsc].
      - apply N.ltb_lt in Hsc. destruct (small_not_surrogate c Hsc). repeat split; auto; lia.
      - apply andb_true_iff in Hsc as [A B]. apply N.ltb_lt in A, B.
        destruct (big_not_surrogate c A). repeat split; auto. }
    destruct Hns as (N1 & N2 & N3).
    split.
    + apply wf_str_intro; [assumption| |assumption]. rewrite N1. discriminate.
    + rewrite N2. discriminate.
Qed.

Lemma scanstring_sound (s : text) (x : str) (r : text) :
  scanstring s = Ok (x, r) -> wf_str x = true.
Proof.
  intros H. now destruct (scanstring_sound_aux (S (length s)) s x r (Nat.lt_succ_diag_r _) H).
Qed.
End JsonFacts.
Module NumberFacts.
Import Json.
Local Open Scope N_scope.

(** *** Integers *)

Lemma uint_of_chars_of_uint (d : Decimal.uint) :
  uint_of_chars (chars_of_uint d) = d.
Proof. induction d; simpl; unfold digit_of_char; simpl; now f_equal. Qed.

Lemma length_chars_of_uint (d : Decimal.uint) :
  length (chars_of_uint d) = nb_digits d.
Proof. induction d; simpl; now f_equal. Qed.

Lemma digit_of_char_cases (c : char) (d : Decimal.uint) :
  nb_digits (digit_of_char c d) = S (nb_digits d) /\ digit_of_char c d <> Nil.
Proof.
  unfold digit_of_char.
  destruct (c - 48) as [|p]; [now split|].
  do 4 (destruct p as [p|p|]; try (now split)).
Qed.

Lemma nb_digits_uint_of_chars (ds : text) :
  nb_digits (uint_of_chars ds) = length ds.
Proof.
  induction ds as [|c ds IH]; [reflexivity|].
  simpl. destruct (digit_of_char_cases c (uint_of_chars ds)) as [-> _].
  now f_equal.
Qed.

Lemma chars_of_uint_digits (d : Decimal.uint) :
  forallb is_digit (chars_of_uint d) = true.
Proof. induction d; simpl; auto. Qed.

(** A character after which a number cannot go on. *)
Definition ends_number (rest : text) : bool :=
  match rest with
  | [] => true
  | c :: _ => (c =? COMMA) || (c =? NEWLINE) || (c =? RBRACKET) || (c =? RBRACE)
              || (c =? SPACE)
  end.

Lemma ends_number_no_float (rest : text) :
  ends_number rest = true -> float_follows rest = false.
Proof.
  destruct rest as [|c [|d r]]; try reflexivity.
  unfold ends_number, float_follows. intros H.
  repeat (apply orb_true_iff in H as [H|H]); apply N.eqb_eq in H; subst c; reflexivity.
Qed.

Lemma span_digits_app (ds rest : text) :
  forallb is_digit ds = true -> ends_number rest = true ->
  span_digits (ds ++ rest) = (ds, rest).
Proof.
  intros Hds Hrest. induction ds as [|c ds IH].
  - destruct rest as [|c r]; [reflexivity|].
    cbn [List.app span_digits]. unfold ends_number in Hrest.
    assert (Hc : is_digit c = false).
    { repeat (apply orb_true_iff in Hrest as [Hrest|Hrest]);
        apply N.eqb_eq in Hrest; subst c; reflexivity. }
    now rewrite Hc.
  - simpl in Hds. apply andb_true_iff in Hds as [Hc Hds].
    cbn [List.app span_digits]. rewrite Hc, (IH Hds). reflexivity.
Qed.

(** The decimal digits of a positive number begin with a digit from 1
    to 9. *)
Lemma to_uint_head (p : positive) :
  exists c ds, chars_of_uint (Pos.to_uint p) = c :: ds
               /\ (c =? 48) = false /\ is_digit c = true.
Proof.
  assert (Hn : Pos.to_uint p = unorm (Pos.to_uint p)).
  { rewrite <- DecimalPos.Unsigned.to_of, DecimalPos.Unsigned.of_to. reflexivity. }
  pose proof (DecimalPos.Unsigned.to_uint_nonzero p) as Hz.
  unfold unorm in Hn.
  pose proof (nzhead_nonzero (Pos.to_uint p)) as Hnz.
  destruct (nzhead (Pos.to_uint p)) as [|d|d|d|d|d|d|d|d|d|d] eqn:E;
    rewrite Hn; try (eexists; eexists; repeat split; reflexivity).
  - rewrite Hn in Hz. now contradiction Hz.
  - now contradiction (Hnz d).
Qed.

Lemma int_repr_head (z : Z) :
  exists c t, int_repr z = c :: t /\ (is_digit c = true \/ c = MINUS).
Proof.
  destruct z as [|p|p]; simpl.
  - exists 48, []. now split; [|left].
  - destruct (to_uint_head p) as (c & ds & -> & _ & Hc). exists c, ds. now split; [|left].
  - eexists; eexists. split; [reflexivity|now right].
Qed.

Lemma scan_digits_pos (p : positive) (neg : bool) (rest : text) :
  wf_int (Zpos p) = true -> ends_number rest = true ->
  match chars_of_uint (Pos.to_uint p) ++ rest with
  | c :: r =>
      if c =? 48 then scan_int neg [c] r
      else if is_digit c then
             let (ds, r') := span_digits r in scan_int neg (c :: ds) r'
           else Raise JSONDecodeError
  | [] => Raise JSONDecodeError
  end = Ok (PyInt (if neg then Zneg p else Zpos p), rest).
Proof.
  intros Hwf Hrest.
  destruct (to_uint_head p) as (c & ds & E & Hc0 & Hcd).
  pose proof (chars_of_uint_digits (Pos.to_uint p)) as Hall.
  rewrite E in Hall |- *. simpl in Hall. apply andb_true_iff in Hall as [_ Hds].
  cbn [List.app]. rewrite Hc0, Hcd, (span_digits_app _ _ Hds Hrest).
  unfold scan_int. rewrite (ends_number_no_float _ Hrest).
  unfold wf_int in Hwf. simpl in Hwf. rewrite E in Hwf.
  assert (Hlim : Nat.ltb max_str_digits (length (c :: ds)) = false).
  { apply Nat.ltb_ge. now apply Nat.leb_le. }
  rewrite Hlim, <- E, uint_of_chars_of_uint.
  unfold N.of_uint. rewrite DecimalPos.Unsigned.of_to.
  now destruct neg.
Qed.

(** The decoder reads back a printed integer. *)
Lemma scan_number_int_repr (z : Z) (rest : text) :
  wf_int z = true -> ends_number rest = true ->
  scan_number (int_repr z ++ rest) = Ok (PyInt z, rest).
Proof.
  intros Hwf Hrest. destruct z as [|p|p].
  - cbn. unfold scan_int. now rewrite (ends_number_no_float _ Hrest).
  - unfold scan_number, int_repr.
    destruct (to_uint_head p) as (c & ds & E & Hc0 & Hcd).
    assert (Hm : (c =? MINUS) = false).
    { unfold is_digit in Hcd. apply andb_true_iff in Hcd as [A _].
      apply N.leb_le in A. apply N.eqb_neq. unfold MINUS. lia. }
    pose proof (scan_digits_pos p false rest Hwf Hrest) as H.
    rewrite E in H |- *. cbn [List.app] in H |- *. rewrite Hm.
    rewrite Hc0, Hcd in H |- *. exact H.
  - unfold scan_number, int_repr. cbn [List.app]. rewrite N.eqb_refl.
    pose proof (scan_digits_pos p true rest Hwf Hrest) as H.
    destruct (chars_of_uint (Pos.to_uint p) ++ rest) as [|c r]; [discriminate|].
    destruct (c =? 48); [exact H|].
    destruct (is_digit c); [exact H|discriminate].
Qed.

(** An integer that the decoder returns has few enough digits. *)
Lemma scan_int_sound (neg : bool) (ds rest : text) (v : value) (r : text) :
  ds <> [] -> scan_int neg ds rest = Ok (v, r) ->
  exists z, v = PyInt z /\ wf_int z = true.
Proof.
  intros Hne. unfold scan_int.
  destruct (float_follows rest); [discriminate|].
  destruct (Nat.ltb max_str_digits (length ds)) eqn:Hl; [discriminate|].
  intros [= <- <-]. eexists. split; [reflexivity|].
  apply Nat.ltb_ge in Hl. unfold wf_int. apply Nat.leb_le.
  set (n := N.of_uint (uint_of_chars ds)).
  assert (Habs : Z.abs_N (if neg then (- Z.of_N n)%Z else Z.of_N n) = n).
  { destruct neg; [rewrite Zabs2N.inj_opp|]; apply Zabs2N.id. }
  rewrite Habs. subst n. rewrite DecimalN.Unsigned.to_of, length_chars_of_uint.
  etransitivity; [apply nb_digits_unorm|].
  - destruct ds as [|c ds]; [contradiction|]. simpl.
    apply (digit_of_char_cases c (uint_of_chars ds)).
  - now rewrite nb_digits_uint_of_chars.
Qed.

Lemma scan_number_sound (s : text) (v : value) (r : text) :
  scan_number s = Ok (v, r) -> exists z, v = PyInt z /\ wf_int z = true.
Proof.
  unfold scan_number.
  destruct (match s with
            | c :: r0 => if c =? MINUS then (true, r0) else (false, s)
            | [] => (false, s)
            end) as [neg s1].
  destruct s1 as [|c r0]; [discriminate|].
  destruct (c =? 48).
  { apply scan_int_sound. discriminate. }
  destruct (is_digit c).
  { destruct (span_digits r0) as [ds r']. apply scan_int_sound. discriminate. }
  destruct (startswith (c :: r0) s_Infinity || negb neg && startswith (c :: r0) s_NaN);
    discriminate.
Qed.

End NumberFacts.
Module ValueFacts.
Import Py Json JsonFacts NumberFacts.
Local Open Scope N_scope.

(** *** Induction on Python objects *)

Lemma value_induction (P : value -> Prop) :
  P PyNone -> (forall b, P (PyBool b)) -> (forall z, P (PyInt z)) ->
  (forall s, P (PyStr s)) ->
  (forall l, Forall P l -> P (PyList l)) ->
  (forall d, Forall (fun kv => P (snd kv)) d -> P (PyDict d)) ->
  forall v, P v.
Proof.
  intros HN HB HI HS HL HD. fix IH 1. intros [| b | z | s | l | d].
  - exact HN.
  - apply HB.
  - apply HI.
  - apply HS.
  - apply HL. induction l as [|x l IHl]; constructor; [apply IH|exact IHl].
  - apply HD. induction d as [|[k x] d IHd]; constructor; [apply IH|exact IHd].
Qed.

(** *** White space and the first character of a value *)

(** The characters a printed value can begin with. *)
Definition starts_value (c : char) : bool :=
  (c =? QUOTE) || (c =? LBRACE) || (c =? LBRACKET) || (c =? 110) || (c =? 116)
  || (c =? 102) || is_digit c || (c =? MINUS).

Lemma encode_head (level : nat) (v : value) :
  exists c t, encode level v = c :: t /\ starts_value c = true.
Proof.
  destruct v as [| [|] | z | s | [|x l] | [|kv d]];
    try (eexists; eexists; split; [reflexivity|reflexivity]).
  destruct (int_repr_head z) as (c & t & E & [Hc|Hc]).
  - exists c, t. split; [exact E|]. unfold starts_value. rewrite Hc.
    now rewrite !orb_true_r.
  - exists c, t. split; [exact E|]. subst c. reflexivity.
Qed.

Lemma starts_value_not_ws (c : char) : starts_value c = true -> is_ws c = false.
Proof.
  unfold starts_value, is_ws, is_digit. intros H.
  repeat (apply orb_true_iff in H as [H|H]);
    try (apply N.eqb_eq in H; subst c; reflexivity).
  apply andb_true_iff in H as [A B]. apply N.leb_le in A, B.
  repeat (apply orb_false_iff; split); apply N.eqb_neq;
    unfold SPACE, NEWLINE; lia.
Qed.

Lemma skip_ws_head (c : char) (t : text) :
  is_ws c = false -> skip_ws (c :: t) = c :: t.
Proof. intros H. simpl. now rewrite H. Qed.

Lemma skip_ws_spaces (n : nat) (t : text) :
  skip_ws (repeat SPACE n ++ t) = skip_ws t.
Proof. induction n as [|n IH]; [reflexivity|exact IH]. Qed.

Lemma skip_ws_newline_indent (level : nat) (t : text) :
  skip_ws (newline_indent level ++ t) = skip_ws t.
Proof. unfold newline_indent. cbn [List.app skip_ws is_ws]. apply skip_ws_spaces. Qed.

Lemma ends_number_newline_indent (level : nat) (t : text) :
  ends_number (newline_indent level ++ t) = true.
Proof. reflexivity. Qed.

(** *** Unfolding the decoder by one call *)

Lemma scan_once_string (fuel : nat) (s1 : text) :
  scan_once (S fuel) (QUOTE :: s1)
  = rbind (scanstring s1) (fun xr => match xr with (x, r) => Ok (PyStr x, r) end).
Proof. reflexivity. Qed.

Lemma scan_once_array (fuel : nat) (s1 : text) :
  scan_once (S fuel) (LBRACKET :: s1)
  = match skip_ws s1 with
    | c2 :: r =>
        if c2 =? RBRACKET then Ok (PyList [], r)
        else rbind (array_items fuel (skip_ws s1))
               (fun lr => match lr with (l, r') => Ok (PyList l, r') end)
    | [] => Raise JSONDecodeError
    end.
Proof. reflexivity. Qed.

Lemma scan_once_object (fuel : nat) (s1 : text) :
  scan_once (S fuel) (LBRACE :: s1)
  = match skip_ws s1 with
    | c2 :: r =>
        if c2 =? RBRACE then Ok (PyDict [], r)
        else rbind (object_items fuel (skip_ws s1))
               (fun lr => match lr with
                          | (kvs, r') => Ok (PyDict (dict_of_pairs kvs), r')
                          end)
    | [] => Raise JSONDecodeError
    end.
Proof. reflexivity. Qed.

Lemma scan_once_number (fuel : nat) (c : char) (t : text) :
  is_digit c = true \/ c = MINUS ->
  scan_once (S fuel) (c :: t) = scan_number (c :: t).
Proof.
  intros H.
  assert (Hc : (c =? QUOTE) = false /\ (c =? LBRACE) = false
               /\ (c =? LBRACKET) = false /\ (c =? 110) = false
               /\ (c =? 116) = false /\ (c =? 102) = false).
  { destruct H as [H| ->]; [|repeat split; reflexivity].
    unfold is_digit in H. apply andb_true_iff in H as [A B].
    apply N.leb_le in A, B.
    repeat split; apply N.eqb_neq; unfold QUOTE, LBRACE, LBRACKET; lia. }
  destruct Hc as (H1 & H2 & H3 & H4 & H5 & H6).
  cbn [scan_once]. rewrite H1, H2, H3.
  unfold s_null, s_true, s_false. cbn [startswith]. rewrite H4, H5, H6.
  reflexivity.
Qed.

Lemma array_items_step (fuel : nat) (s : text) :
  array_items (S fuel) s
  = rbind (scan_once fuel s) (fun xr =>
      match xr with
      | (x, r) =>
          match skip_ws r with
          | c :: r1 =>
              if c =? RBRACKET then Ok ([x], r1)
              else if c =? COMMA then
                rbind (array_items fuel (skip_ws r1))
                  (fun xsr => match xsr with (xs, r2) => Ok (x :: xs, r2) end)
              else Raise JSONDecodeError
          | [] => Raise JSONDecodeError
          end
      end).
Proof. reflexivity. Qed.

Lemma object_items_step (fuel : nat) (s1 : text) :
  object_items (S fuel) (QUOTE :: s1)
  = rbind (scanstring s1) (fun kr =>
      match kr with
      | (k, r) =>
          match skip_ws r with
          | c2 :: r1 =>
              if c2 =? COLON then
                rbind (scan_once fuel (skip_ws r1)) (fun xr =>
                  match xr with
                  | (x, r2) =>
                      match skip_ws r2 with
                      | c3 :: r3 =>
                          if c3 =? RBRACE then Ok ([(k, x)], r3)
                          else if c3 =? COMMA then
                            rbind (object_items fuel (skip_ws r3))
                              (fun kvsr => match kvsr with
                                           | (kvs, r4) => Ok ((k, x) :: kvs, r4)
                                           end)
                          else Raise JSONDecodeError
                      | [] => Raise JSONDecodeError
                      end
                  end)
              else Raise JSONDecodeError
          | [] => Raise JSONDecodeError
          end
      end).
Proof. reflexivity. Qed.



(** *** Decoding what the encoder wrote *)

Definition items_cost (l : list value) : nat :=
  list_sum (map (fun x => S (cost x)) l).

Definition members_cost (d : list (str * value)) : nat :=
  list_sum (map (fun kv => S (cost (snd kv))) d).

(** [scan_once] reads [x] back from any of its encodings. *)
Definition reads_back (x : value) : Prop :=
  forall level fuel rest,
    (cost x <= fuel)%nat -> ends_number rest = true ->
    scan_once fuel (encode level x ++ rest) = Ok (x, rest).

Lemma items_cost_cons (x : value) (l : list value) :
  items_cost (x :: l) = S (cost x + items_cost l).
Proof. reflexivity. Qed.

Lemma cost_list (l : list value) : cost (PyList l) = S (items_cost l).
Proof. reflexivity. Qed.

Lemma members_cost_cons (kv : str * value) (d : list (str * value)) :
  members_cost (kv :: d) = S (cost (snd kv) + members_cost d).
Proof. reflexivity. Qed.

Lemma cost_dict (d : list (str * value)) : cost (PyDict d) = S (members_cost d).
Proof. reflexivity. Qed.

Lemma skip_ws_encode (level : nat) (v : value) (t : text) :
  skip_ws (encode level v ++ t) = encode level v ++ t.
Proof.
  destruct (encode_head level v) as (c & r & -> & Hc).
  cbn [List.app]. apply skip_ws_head. now apply starts_value_not_ws.
Qed.

Lemma join_cons2 (sep p q : text) (ps : list text) :
  join sep (p :: q :: ps) = p ++ sep ++ join sep (q :: ps).
Proof. reflexivity. Qed.

Lemma array_items_encoded (level : nat) (rest : text) (l : list value) :
  l <> [] -> Forall reads_back l ->
  forall fuel, (items_cost l <= fuel)%nat ->
  array_items fuel
    (join (COMMA :: newline_indent (S level)) (map (encode (S level)) l)
     ++ newline_indent level ++ RBRACKET :: rest) = Ok (l, rest).
Proof.
  induction l as [|x l IH]; [contradiction|].
  intros _ Hall fuel Hfuel.
  inversion Hall as [|? ? Hx Hl]; subst.
  rewrite items_cost_cons in Hfuel.
  destruct fuel as [|fuel]; [lia|].
  rewrite array_items_step.
  destruct l as [|y ys].
  - cbn [map join].
    rewrite Hx; [|lia|apply ends_number_newline_indent].
    cbn [rbind]. rewrite skip_ws_newline_indent.
    rewrite skip_ws_head by reflexivity.
    change (RBRACKET =? RBRACKET) with true. reflexivity.
  - cbn [map]. rewrite join_cons2, <- !List.app_assoc.
    rewrite Hx; [|lia|reflexivity].
    cbn [rbind]. cbn [List.app]. rewrite skip_ws_head by reflexivity.
    change (COMMA =? RBRACKET) with false. change (COMMA =? COMMA) with true.
    cbv iota. rewrite skip_ws_newline_indent.
    assert (Hsk : forall t, skip_ws (join (COMMA :: newline_indent (S level))
                                      (map (encode (S level)) (y :: ys)) ++ t)
                            = join (COMMA :: newline_indent (S level))
                                (map (encode (S level)) (y :: ys)) ++ t).
    { intros t. cbn [map]. destruct ys as [|y' ys'].
      - cbn [map join]. apply skip_ws_encode.
      - cbn [map]. rewrite join_cons2, <- !List.app_assoc. apply skip_ws_encode. }
    rewrite Hsk.
    change (map (encode (S level)) (y :: ys)) with (map (encode (S level)) (y :: ys)).
    rewrite IH; [reflexivity|discriminate|assumption|lia].
Qed.

Lemma encode_list_cons (level : nat) (x : value) (l : list value) :
  encode level (PyList (x :: l))
  = LBRACKET :: newline_indent (S level)
      ++ join (COMMA :: newline_indent (S level)) (map (encode (S level)) (x :: l))
      ++ newline_indent level ++ [RBRACKET].
Proof. reflexivity. Qed.

Lemma reads_back_list (l : list value) :
  Forall reads_back l -> reads_back (PyList l).
Proof.
  intros Hall level fuel rest Hfuel Hrest.
  rewrite cost_list in Hfuel.
  destruct fuel as [|fuel]; [lia|].
  destruct l as [|x l].
  - reflexivity.
  - rewrite encode_list_cons. cbn [List.app].
    rewrite scan_once_array, <- !List.app_assoc.
    rewrite skip_ws_newline_indent.
    assert (Hsk : forall t, skip_ws (join (COMMA :: newline_indent (S level))
                                      (map (encode (S level)) (x :: l)) ++ t)
                            = join (COMMA :: newline_indent (S level))
                                (map (encode (S level)) (x :: l)) ++ t).
    { intros t. cbn [map]. destruct l as [|y' ys'].
      - cbn [map join]. apply skip_ws_encode.
      - cbn [map]. rewrite join_cons2, <- !List.app_assoc. apply skip_ws_encode. }
    rewrite Hsk.
    assert (Hhd : exists c t, join (COMMA :: newline_indent (S level))
                                (map (encode (S level)) (x :: l))
                              ++ newline_indent level ++ [RBRACKET] ++ rest = c :: t
                              /\ (c =? RBRACKET) = false).
    { cbn [map]. destruct (encode_head (S level) x) as (c & t & E & Hc).
      destruct l as [|y' ys'].
      - cbn [map join]. rewrite E. eexists; eexists; split; [reflexivity|].
        unfold starts_value, is_digit in Hc.
        destruct (c =? RBRACKET) eqn:Ec; [|reflexivity].
        apply N.eqb_eq in Ec. subst c. discriminate.
      - cbn [map]. rewrite join_cons2, E. eexists; eexists; split; [reflexivity|].
        destruct (c =? RBRACKET) eqn:Ec; [|reflexivity].
        apply N.eqb_eq in Ec. subst c. discriminate. }
    destruct Hhd as (c & t & E & Hc).
    rewrite E, Hc, <- E.
    change (newline_indent level ++ [RBRACKET] ++ rest)
      with (newline_indent level ++ RBRACKET :: rest).
    rewrite array_items_encoded; [reflexivity|discriminate|assumption|lia].
Qed.

(** The text of one member of a dict. *)
Definition member_text (level : nat) (kv : str * value) : text :=
  encode_basestring_ascii (fst kv) ++ COLON :: SPACE :: encode level (snd kv).

Lemma member_text_eq (level : nat) (k : str) (x : value) (t : text) :
  member_text level (k, x) ++ t
  = QUOTE :: flat_map escape_char k
      ++ QUOTE :: COLON :: SPACE :: encode level x ++ t.
Proof.
  unfold member_text, encode_basestring_ascii. cbn [fst snd List.app].
  now rewrite <- !List.app_assoc.
Qed.

Lemma skip_ws_members (level : nat) (kv : str * value) (d : list (str * value))
  (t : text) :
  skip_ws (join (COMMA :: newline_indent level) (map (member_text level) (kv :: d)) ++ t)
  = join (COMMA :: newline_indent level) (map (member_text level) (kv :: d)) ++ t.
Proof.
  destruct kv as [k x]. cbn [map]. destruct d as [|kv' d'].
  - cbn [map join]. rewrite member_text_eq. now apply skip_ws_head.
  - cbn [map]. rewrite join_cons2, <- !List.app_assoc, member_text_eq.
    now apply skip_ws_head.
Qed.

Lemma join_map_cons2 {A} (sep : text) (f : A -> text) (a b : A) (l : list A) :
  join sep (map f (a :: b :: l)) = f a ++ sep ++ join sep (map f (b :: l)).
Proof. reflexivity. Qed.

Lemma skip_ws_space (t : text) : skip_ws (SPACE :: t) = skip_ws t.
Proof. reflexivity. Qed.

Lemma object_items_encoded (level : nat) (rest : text) (d : list (str * value)) :
  d <> [] -> Forall (fun kv => reads_back (snd kv)) d ->
  forallb (fun kv => wf_str (fst kv)) d = true ->
  forall fuel, (members_cost d <= fuel)%nat ->
  object_items fuel
    (join (COMMA :: newline_indent (S level)) (map (member_text (S level)) d)
     ++ newline_indent level ++ RBRACE :: rest) = Ok (d, rest).
Proof.
  induction d as [|[k x] d IH]; [contradiction|].
  intros _ Hall Hkeys fuel Hfuel.
  inversion Hall as [|? ? Hx Hd]; subst. cbn [snd] in Hx.
  cbn [forallb fst] in Hkeys. apply andb_true_iff in Hkeys as [Hk Hkeys].
  rewrite members_cost_cons in Hfuel. cbn [snd] in Hfuel.
  destruct fuel as [|fuel]; [lia|].
  destruct d as [|kv' d'].
  - cbn [map join]. rewrite member_text_eq, object_items_step.
    rewrite scanstring_encoded by assumption. cbn [rbind].
    rewrite skip_ws_head by reflexivity.
    change (COLON =? COLON) with true. cbv iota.
    rewrite skip_ws_space, skip_ws_encode.
    rewrite Hx; [|lia|apply ends_number_newline_indent].
    cbn [rbind]. rewrite skip_ws_newline_indent, skip_ws_head by reflexivity.
    change (RBRACE =? RBRACE) with true. reflexivity.
  - rewrite join_map_cons2, <- !List.app_assoc.
    rewrite member_text_eq, object_items_step.
    rewrite scanstring_encoded by assumption. cbn [rbind].
    rewrite skip_ws_head by reflexivity.
    change (COLON =? COLON) with true. cbv iota.
    rewrite skip_ws_space, skip_ws_encode.
    rewrite Hx; [|lia|reflexivity].
    cbn [rbind List.app]. rewrite skip_ws_head by reflexivity.
    change (COMMA =? RBRACE) with false. change (COMMA =? COMMA) with true.
    cbv iota. rewrite skip_ws_newline_indent, skip_ws_members.
    rewrite IH; [reflexivity|discriminate|assumption|assumption|lia].
Qed.

(** [dict(pairs)] on pairs with distinct keys. *)
Lemma distinct_app_cons (l1 l2 : list str) (k : str) :
  distinct (l1 ++ k :: l2) = true ->
  existsb (fun a => str_eqb a k) l1 = false /\ distinct (l1 ++ l2) = true.
Proof.
  induction l1 as [|a l1 IH]; cbn [List.app distinct existsb]; intros H.
  - apply andb_true_iff in H as [_ H]. now split.
  - apply andb_true_iff in H as [Ha H]. destruct (IH H) as [H1 H2].
    apply negb_true_iff in Ha. rewrite existsb_app in Ha.
    apply orb_false_iff in Ha as [Ha1 Ha2]. cbn [existsb] in Ha2.
    apply orb_false_iff in Ha2 as [Ha2 Ha3].
    split.
    + now rewrite Ha2, H1.
    + rewrite H2, andb_true_r. apply negb_true_iff. rewrite existsb_app.
      now rewrite Ha1, Ha3.
Qed.

Lemma dict_set_fresh (acc : list (str * value)) (k : str) (x : value) :
  existsb (fun a => str_eqb a k) (map fst acc) = false ->
  dict_set acc k x = acc ++ [(k, x)].
Proof.
  induction acc as [|[a y] acc IH]; cbn [map fst existsb dict_set List.app]; intros H.
  - reflexivity.
  - apply orb_false_iff in H as [H1 H2]. rewrite H1. f_equal. now apply IH.
Qed.

Lemma dict_of_pairs_acc (l acc : list (str * value)) :
  distinct (map fst acc ++ map fst l) = true ->
  fold_left (fun d kv => dict_set d (fst kv) (snd kv)) l acc = acc ++ l.
Proof.
  revert acc. induction l as [|[k x] l IH]; intros acc H; cbn [fold_left fst snd].
  - now rewrite List.app_nil_r.
  - cbn [map fst] in H.
    destruct (distinct_app_cons _ _ _ H) as [Hf _].
    rewrite (dict_set_fresh _ _ _ Hf).
    rewrite IH.
    + now rewrite <- List.app_assoc.
    + rewrite map_app, <- List.app_assoc. exact H.
Qed.

Lemma dict_of_pairs_distinct (d : list (str * value)) :
  distinct (map fst d) = true -> dict_of_pairs d = d.
Proof. intros H. unfold dict_of_pairs. now rewrite dict_of_pairs_acc. Qed.

Lemma encode_dict_cons (level : nat) (kv : str * value) (d : list (str * value)) :
  encode level (PyDict (kv :: d))
  = LBRACE :: newline_indent (S level)
      ++ join (COMMA :: newline_indent (S level))
           (map (member_text (S level)) (kv :: d))
      ++ newline_indent level ++ [RBRACE].
Proof. reflexivity. Qed.

Lemma reads_back_dict (d : list (str * value)) :
  distinct (map fst d) = true ->
  forallb (fun kv => wf_str (fst kv)) d = true ->
  Forall (fun kv => reads_back (snd kv)) d -> reads_back (PyDict d).
Proof.
  intros Hdis Hkeys Hall level fuel rest Hfuel Hrest.
  rewrite cost_dict in Hfuel.
  destruct fuel as [|fuel]; [lia|].
  destruct d as [|[k x] d].
  - reflexivity.
  - rewrite encode_dict_cons. cbn [List.app].
    rewrite scan_once_object, <- !List.app_assoc.
    rewrite skip_ws_newline_indent, skip_ws_members.
    assert (Hhd : exists t, join (COMMA :: newline_indent (S level))
                              (map (member_text (S level)) ((k, x) :: d))
                            ++ newline_indent level ++ [RBRACE] ++ rest = QUOTE :: t).
    { cbn [map]. destruct d as [|kv' d'].
      - cbn [map join]. rewrite member_text_eq. eexists; reflexivity.
      - cbn [map]. rewrite join_cons2, <- !List.app_assoc, member_text_eq.
        eexists; reflexivity. }
    destruct Hhd as (t & E). rewrite E.
    change (QUOTE =? RBRACE) with false. cbv iota. rewrite <- E.
    change (newline_indent level ++ [RBRACE] ++ rest)
      with (newline_indent level ++ RBRACE :: rest).
    rewrite object_items_encoded; [|discriminate|assumption|assumption|lia].
    cbn [rbind]. now rewrite dict_of_pairs_distinct.
Qed.

Lemma reads_back_int (z : Z) : wf_int z = true -> reads_back (PyInt z).
Proof.
  intros Hwf level fuel rest Hfuel Hrest. cbn [encode].
  destruct fuel as [|fuel]; [simpl in Hfuel; lia|].
  destruct (int_repr_head z) as (c & t & E & Hc).
  pose proof (scan_number_int_repr z rest Hwf Hrest) as H.
  rewrite E in H |- *. cbn [List.app] in H |- *.
  now rewrite scan_once_number.
Qed.

Lemma reads_back_str (s : str) : wf_str s = true -> reads_back (PyStr s).
Proof.
  intros Hwf level fuel rest Hfuel Hrest. cbn [encode].
  destruct fuel as [|fuel]; [simpl in Hfuel; lia|].
  unfold encode_basestring_ascii. cbn [List.app].
  rewrite scan_once_string, <- List.app_assoc. cbn [List.app].
  now rewrite scanstring_encoded.
Qed.

(** The decoder reads back every well-formed value from its encoding. *)
Lemma scan_once_encode (v : value) : wf_value v = true -> reads_back v.
Proof.
  induction v as [| b | z | s | l IH | d IH] using value_induction; intros Hwf.
  - intros level [|fuel] rest Hfuel Hrest; [simpl in Hfuel; lia|reflexivity].
  - intros level [|fuel] rest Hfuel Hrest; [simpl in Hfuel; lia|].
    destruct b; reflexivity.
  - now apply reads_back_int.
  - now apply reads_back_str.
  - apply reads_back_list. cbn [wf_value] in Hwf.
    rewrite forallb_forall in Hwf. rewrite Forall_forall in IH |- *.
    intros x Hx. apply IH; auto.
  - cbn [wf_value] in Hwf. apply andb_true_iff in Hwf as [Hdis Hall].
    rewrite forallb_forall in Hall.
    apply reads_back_dict; [assumption| |].
    + apply forallb_forall. intros kv Hkv. specialize (Hall kv Hkv).
      now apply andb_true_iff in Hall as [? _].
    + rewrite Forall_forall in IH |- *. intros kv Hkv. apply IH; [assumption|].
      specialize (Hall kv Hkv). now apply andb_true_iff in Hall as [_ ?].
Qed.


(** *** The fuel that [loads] gives is enough *)

Lemma length_newline_indent (level : nat) : (1 <= length (newline_indent level))%nat.
Proof. unfold newline_indent. simpl. lia. Qed.

Lemma items_cost_le (lv : nat) (l : list value) :
  l <> [] ->
  Forall (fun x => forall level, (cost x <= length (encode level x))%nat) l ->
  (items_cost l
   <= length (join (COMMA :: newline_indent lv) (map (encode lv) l)) + 1)%nat.
Proof.
  induction l as [|x l IH]; [contradiction|]. intros _ Hall.
  inversion Hall as [|? ? Hx Hl]; subst. rewrite items_cost_cons.
  destruct l as [|y ys].
  - cbn [map join]. specialize (Hx lv). change (items_cost []) with 0%nat. lia.
  - rewrite join_map_cons2, !List.length_app. specialize (Hx lv).
    assert (IH' := IH ltac:(discriminate) Hl).
    simpl length at 2. lia.
Qed.

Lemma members_cost_le (lv : nat) (d : list (str * value)) :
  d <> [] ->
  Forall (fun kv => forall level, (cost (snd kv) <= length (encode level (snd kv)))%nat) d ->
  (members_cost d
   <= length (join (COMMA :: newline_indent lv) (map (member_text lv) d)) + 1)%nat.
Proof.
  induction d as [|kv d IH]; [contradiction|]. intros _ Hall.
  inversion Hall as [|? ? Hx Hd]; subst. rewrite members_cost_cons.
  assert (Hm : (cost (snd kv) <= length (member_text lv kv))%nat).
  { unfold member_text. rewrite List.length_app. simpl length. specialize (Hx lv). lia. }
  destruct d as [|kv' d'].
  - cbn [map join]. change (members_cost []) with 0%nat. lia.
  - rewrite join_map_cons2, !List.length_app.
    assert (IH' := IH ltac:(discriminate) Hd).
    simpl length at 2. lia.
Qed.

Lemma cost_le_length (v : value) :
  forall level, (cost v <= length (encode level v))%nat.
Proof.
  induction v as [| b | z | s | l IH | d IH] using value_induction; intros level.
  - simpl. lia.
  - destruct b; simpl; lia.
  - cbn [cost encode]. destruct (int_repr_head z) as (c & t & -> & _). simpl. lia.
  - cbn [cost encode]. unfold encode_basestring_ascii. simpl. lia.
  - destruct l as [|x l]; [simpl; lia|].
    rewrite cost_list, encode_list_cons.
    pose proof (items_cost_le (S level) (x :: l) ltac:(discriminate) IH).
    pose proof (length_newline_indent (S level)).
    cbn [length]. rewrite !List.length_app. unfold text, str, char in *. lia.
  - destruct d as [|kv d]; [simpl; lia|].
    rewrite cost_dict, encode_dict_cons.
    pose proof (members_cost_le (S level) (kv :: d) ltac:(discriminate) IH).
    pose proof (length_newline_indent (S level)).
    cbn [length]. rewrite !List.length_app. unfold text, str, char in *. lia.
Qed.

(** *** [loads (dumps v)] *)

Lemma starts_value_not_bom (c : char) :
  starts_value c = true -> (c =? 0xfeff) = false.
Proof.
  unfold starts_value, is_digit. intros H.
  repeat (apply orb_true_iff in H as [H|H]);
    try (apply N.eqb_eq in H; subst c; reflexivity).
  apply andb_true_iff in H as [A B]. apply N.leb_le in A, B.
  apply N.eqb_neq. lia.
Qed.

(** The decoder returns a well-formed value from the text that the
    encoder wrote for it. *)
Lemma loads_dumps (v : value) : wf_value v = true -> loads (dumps v) = Ok v.
Proof.
  intros Hwf. unfold loads, dumps.
  destruct (encode_head 0 v) as (c & t & E & Hc).
  assert (Hbom : startswith (encode 0 v) BOM = false).
  { rewrite E. unfold BOM. cbn [startswith].
    now rewrite (starts_value_not_bom _ Hc). }
  rewrite Hbom.
  assert (Hsk : skip_ws (encode 0 v) = encode 0 v).
  { rewrite E. apply skip_ws_head. now apply starts_value_not_ws. }
  rewrite Hsk.
  pose proof (scan_once_encode v Hwf 0%nat (2 * length (encode 0 v) + 2)%nat []) as H.
  rewrite List.app_nil_r in H. rewrite H; [reflexivity| |reflexivity].
  pose proof (cost_le_length v 0). lia.
Qed.
End ValueFacts.
Module SoundFacts.
Import Py Json JsonFacts NumberFacts ValueFacts.
Local Open Scope N_scope.

(** *** What the decoder can return *)

Definition wf_pair (kv : str * value) : bool :=
  wf_str (fst kv) && wf_value (snd kv).

Lemma keys_dict_set (d : list (str * value)) (k : str) (x : value) :
  map fst (dict_set d k x)
  = if existsb (fun a => str_eqb a k) (map fst d) then map fst d
    else map fst d ++ [k].
Proof.
  induction d as [|[a y] d IH]; cbn [dict_set map fst existsb List.app].
  - reflexivity.
  - destruct (str_eqb a k); cbn [orb map fst]; [reflexivity|].
    rewrite IH. now destruct (existsb _ _).
Qed.

Lemma distinct_snoc (l : list str) (k : str) :
  distinct l = true -> existsb (fun a => str_eqb a k) l = false ->
  distinct (l ++ [k]) = true.
Proof.
  induction l as [|a l IH]; cbn [distinct existsb List.app]; intros Hd Hk.
  - reflexivity.
  - apply andb_true_iff in Hd as [Ha Hd]. apply orb_false_iff in Hk as [Hak Hk].
    rewrite (IH Hd Hk), andb_true_r. apply negb_true_iff.
    rewrite existsb_app. apply negb_true_iff in Ha. rewrite Ha.
    cbn [existsb]. now rewrite Hak.
Qed.

Lemma distinct_dict_set (d : list (str * value)) (k : str) (x : value) :
  distinct (map fst d) = true -> distinct (map fst (dict_set d k x)) = true.
Proof.
  intros H. rewrite keys_dict_set.
  destruct (existsb _ _) eqn:E; [assumption|]. now apply distinct_snoc.
Qed.

Lemma wf_dict_set (d : list (str * value)) (k : str) (x : value) :
  forallb wf_pair d = true -> wf_pair (k, x) = true ->
  forallb wf_pair (dict_set d k x) = true.
Proof.
  intros Hd Hkx. induction d as [|[a y] d IH]; cbn [dict_set forallb].
  - now rewrite Hkx.
  - cbn [forallb] in Hd. apply andb_true_iff in Hd as [Ha Hd].
    destruct (str_eqb a k) eqn:E.
    + apply str_eqb_eq in E. subst a. cbn [forallb]. rewrite Hd, andb_true_r.
      unfold wf_pair in *. cbn [fst snd] in *.
      apply andb_true_iff in Ha as [Ha _]. apply andb_true_iff in Hkx as [_ Hx].
      now rewrite Ha, Hx.
    + cbn [forallb]. now rewrite Ha, (IH Hd).
Qed.

Lemma wf_dict_of_pairs (kvs : list (str * value)) :
  forallb wf_pair kvs = true -> wf_value (PyDict (dict_of_pairs kvs)) = true.
Proof.
  intros H. unfold dict_of_pairs.
  assert (Hacc : forall acc,
             distinct (map fst acc) = true -> forallb wf_pair acc = true ->
             let d := fold_left (fun d kv => dict_set d (fst kv) (snd kv)) kvs acc in
             distinct (map fst d) = true /\ forallb wf_pair d = true).
  { induction kvs as [|[k x] kvs IH]; intros acc Hd Hw; cbn [fold_left fst snd].
    - now split.
    - cbn [forallb] in H. apply andb_true_iff in H as [Hkx H].
      apply (IH H).
      + now apply distinct_dict_set.
      + now apply wf_dict_set. }
  destruct (Hacc [] eq_refl eq_refl) as [H1 H2].
  cbn [wf_value]. rewrite H1. exact H2.
Qed.

Lemma scan_once_other (fuel : nat) (c : char) (s1 : text) :
  (c =? QUOTE) = false -> (c =? LBRACE) = false -> (c =? LBRACKET) = false ->
  scan_once (S fuel) (c :: s1)
  = if startswith (c :: s1) s_null then Ok (PyNone, skipn 4 (c :: s1))
    else if startswith (c :: s1) s_true then Ok (PyBool true, skipn 4 (c :: s1))
    else if startswith (c :: s1) s_false then Ok (PyBool false, skipn 5 (c :: s1))
    else scan_number (c :: s1).
Proof. intros H1 H2 H3. cbn [scan_once]. now rewrite H1, H2, H3. Qed.

Lemma object_items_not_quote (fuel : nat) (c : char) (s1 : text) :
  (c =? QUOTE) = false ->
  object_items (S fuel) (c :: s1) = Raise JSONDecodeError.
Proof. intros H. cbn [object_items]. now rewrite H. Qed.

Lemma rbind_ok {A B} (r : result A) (k : A -> result B) (b : B) :
  rbind r k = Ok b -> exists a, r = Ok a /\ k a = Ok b.
Proof. destruct r as [a| |]; try discriminate. intros H. now exists a. Qed.

Lemma scan_sound (fuel : nat) :
  (forall s v r, scan_once fuel s = Ok (v, r) -> wf_value v = true)
  /\ (forall s l r, array_items fuel s = Ok (l, r) -> forallb wf_value l = true)
  /\ (forall s kvs r, object_items fuel s = Ok (kvs, r) ->
        forallb wf_pair kvs = true).
Proof.
  induction fuel as [|fuel (IHv & IHa & IHo)].
  { repeat split; intros; discriminate. }
  repeat split.
  - intros s v r H. destruct s as [|c s1]; [discriminate|].
    destruct (c =? QUOTE) eqn:E1.
    { apply N.eqb_eq in E1. subst c. rewrite scan_once_string in H.
      apply rbind_ok in H as ([x r'] & Hs & H). injection H as <- <-.
      cbn [wf_value]. now apply scanstring_sound in Hs. }
    destruct (c =? LBRACE) eqn:E2.
    { apply N.eqb_eq in E2. subst c. rewrite scan_once_object in H.
      destruct (skip_ws s1) as [|c2 r2]; [discriminate|].
      destruct (c2 =? RBRACE); [now injection H as <- <-|].
      apply rbind_ok in H as ([kvs r'] & Ho & H). injection H as <- <-.
      apply wf_dict_of_pairs. now apply IHo in Ho. }
    destruct (c =? LBRACKET) eqn:E3.
    { apply N.eqb_eq in E3. subst c. rewrite scan_once_array in H.
      destruct (skip_ws s1) as [|c2 r2]; [discriminate|].
      destruct (c2 =? RBRACKET); [now injection H as <- <-|].
      apply rbind_ok in H as ([l r'] & Ha & H). injection H as <- <-.
      cbn [wf_value]. now apply IHa in Ha. }
    rewrite (scan_once_other _ _ _ E1 E2 E3) in H.
    destruct (startswith (c :: s1) s_null); [now injection H as <- <-|].
    destruct (startswith (c :: s1) s_true); [now injection H as <- <-|].
    destruct (startswith (c :: s1) s_false); [now injection H as <- <-|].
    apply scan_number_sound in H as (z & -> & Hz). exact Hz.
  - intros s l r H. rewrite array_items_step in H.
    apply rbind_ok in H as ([x r1] & Hx & H). apply IHv in Hx.
    destruct (skip_ws r1) as [|c r2]; [discriminate|].
    destruct (c =? RBRACKET).
    { injection H as <- <-. cbn [forallb]. now rewrite Hx. }
    destruct (c =? COMMA); [|discriminate].
    apply rbind_ok in H as ([xs r3] & Hxs & H). injection H as <- <-.
    apply IHa in Hxs. cbn [forallb]. now rewrite Hx, Hxs.
  - intros s kvs r H. destruct s as [|c s1]; [discriminate|].
    destruct (c =? QUOTE) eqn:E1.
    2:{ rewrite object_items_not_quote in H by assumption. discriminate. }
    apply N.eqb_eq in E1. subst c. rewrite object_items_step in H.
    apply rbind_ok in H as ([k r1] & Hk & H). apply scanstring_sound in Hk.
    destruct (skip_ws r1) as [|c2 r2]; [discriminate|].
    destruct (c2 =? COLON); [|discriminate].
    apply rbind_ok in H as ([x r3] & Hx & H). apply IHv in Hx.
    assert (Hkx : wf_pair (k, x) = true) by (unfold wf_pair; cbn; now rewrite Hk, Hx).
    destruct (skip_ws r3) as [|c3 r4]; [discriminate|].
    destruct (c3 =? RBRACE).
    { injection H as <- <-. cbn [forallb]. now rewrite Hkx. }
    destruct (c3 =? COMMA); [|discriminate].
    apply rbind_ok in H as ([kvs' r5] & Hkvs & H). injection H as <- <-.
    apply IHo in Hkvs. cbn [forallb]. now rewrite Hkx, Hkvs.
Qed.

(** What [loads] returns is well formed. *)
Lemma loads_sound (s : text) (v : value) :
  loads s = Ok v -> wf_value v = true.
Proof.
  unfold loads. destruct (startswith s BOM); [discriminate|].
  intros H. apply rbind_ok in H as ([v' r] & Hs & H).
  destruct (skip_ws r); [|discriminate]. injection H as <-.
  now apply (proj1 (scan_sound _)) in Hs.
Qed.

(** Decoding, encoding and decoding again gives the first value. *)
Lemma loads_dumps_loads (s : text) (v : value) :
  loads s = Ok v -> loads (dumps v) = Ok v.
Proof. intros H. apply loads_dumps. now apply loads_sound in H. Qed.

End SoundFacts.

Module ComposeFacts.
Import Py CommandList.
Local Open Scope py_scope.

Lemma compose_from_app (i : nat) (l1 l2 : list value) :
  compose_from i (l1 ++ l2)
  = (nds1 <- compose_from i l1 ;;
     nds2 <- compose_from (i + length l1) l2 ;;
     Ok (nds1 ++ nds2)).
Proof.
  revert i. induction l1 as [|x l1 IH]; intros i.
  - cbn [List.app compose_from rbind length]. rewrite Nat.add_0_r.
    now destruct (compose_from i l2).
  - cbn [List.app compose_from length]. destruct (compose_entry i x) as [nd| |];
      cbn [rbind]; try reflexivity.
    rewrite IH. replace (S i + length l1)%nat with (i + S (length l1))%nat by lia.
    destruct (compose_from (S i) l1) as [nds1| |]; cbn [rbind]; try reflexivity.
    now destruct (compose_from (i + S (length l1)) l2).
Qed.

Lemma compose_entry_leaf (i : nat) (d : list (str * value)) (n c t : str)
  (ty : value) :
  dict_get d k_name = Some (PyStr n) -> existsb (N.eqb LBRACKET) n = false ->
  dict_get d k_command = Some (PyStr c) -> dict_get d k_text = Some (PyStr t) ->
  dict_get d k_type = Some ty -> eq_str ty s_parent = false ->
  compose_entry i (PyDict d)
  = Ok (Leaf n (NodeData i None s_child (PyStr n) (PyStr c) (PyStr t))).
Proof.
  intros Hn Hl Hc Ht Hty Hp. unfold compose_entry, getitem_str.
  rewrite Hty. cbn [rbind]. rewrite Hp, Hn, Hc, Ht. cbn [rbind].
  unfold label_of. now rewrite Hl.
Qed.

(** An entry whose [type] is not ["parent"] registers its own pair only. *)
Lemma register_entry_leaf (d : list (str * value)) (c t : str) (ty : value)
  (s : AutoTypeApp.state) :
  dict_get d k_command = Some (PyStr c) -> dict_get d k_text = Some (PyStr t) ->
  dict_get d k_type = Some ty -> eq_str ty s_parent = false ->
  AutoTypeApp.register_entry (PyDict d) s
  = (AutoTypeApp.registering [(c, t)] s, Ok tt).
Proof.
  intros Hc Ht Hty Hp.
  apply (ListenFacts.register_entry_ok (PyDict d) (Spec.MkEntry c t Spec.Child [])).
  unfold Spec.view_entry, Spec.read_str. now rewrite Hc, Ht, Hty, Hp.
Qed.

End ComposeFacts.

Module LoadFacts.
Import Json SoundFacts CommandList.

Lemma load_absent :
  load None = Ok (Store (PyList []) (Some [LBRACKET; RBRACKET])).
Proof. reflexivity. Qed.

Lemma load_decoded (t : text) (v : value) :
  loads t = Ok v -> load (Some t) = Ok (Store v (Some t)).
Proof. intros H. unfold load, json_load_open. now rewrite H. Qed.

Lemma load_rejected (t : text) (e : exn) :
  loads t = Raise e ->
  load (Some t) = Ok (Store (PyList []) (Some [LBRACKET; RBRACKET])).
Proof. intros H. unfold load, json_load_open. now rewrite H. Qed.

Lemma load_never_raises (f : option text) (e : exn) : load f <> Raise e.
Proof.
  unfold load. destruct (json_load_open f); discriminate.
Qed.

(** A well-formed collection is read back after a save. *)
Lemma load_after_save (st : store) :
  wf_value (commands st) = true ->
  load (file (save_store st)) = Ok (save_store st).
Proof.
  intros Hwf. unfold save_store. cbn [file commands].
  apply load_decoded. now apply ValueFacts.loads_dumps.
Qed.

Lemma load_wf (f : option text) (st : store) :
  load f = Ok st -> wf_value (commands st) = true.
Proof.
  unfold load, json_load_open. destruct f as [t|].
  - destruct (loads t) as [v| |] eqn:E; try discriminate.
    + intros [= <-]. now apply loads_sound in E.
    + now intros [= <-].
  - now intros [= <-].
Qed.

End LoadFacts.

(* ================================================================== *)
(** ** Lists and dicts under assignment *)
(* ================================================================== *)

Module SeqFacts.
Import Py Json SoundFacts.

Lemma norm_index_lt (len : nat) (i : Z) (k : nat) :
  norm_index len i = Some k -> (k < len)%nat.
Proof.
  unfold norm_index.
  destruct ((0 <=? i)%Z && (i <? Z.of_nat len)%Z) eqn:E1.
  - apply andb_true_iff in E1 as [H1 H2].
    apply Z.leb_le in H1. apply Z.ltb_lt in H2. intros [= <-]. lia.
  - destruct ((- Z.of_nat len <=? i)%Z && (i <? 0)%Z) eqn:E2; [|discriminate].
    apply andb_true_iff in E2 as [H1 H2].
    apply Z.leb_le in H1. apply Z.ltb_lt in H2. intros [= <-]. lia.
Qed.

Lemma norm_index_none (len : nat) (i : Z) :
  norm_index len i = None <-> (i < - Z.of_nat len \/ Z.of_nat len <= i)%Z.
Proof.
  unfold norm_index.
  destruct (0 <=? i)%Z eqn:A; destruct (i <? Z.of_nat len)%Z eqn:B;
    destruct (- Z.of_nat len <=? i)%Z eqn:C; destruct (i <? 0)%Z eqn:D;
    cbn [andb];
    try apply Z.leb_le in A; try apply Z.leb_gt in A;
    try apply Z.ltb_lt in B; try apply Z.ltb_ge in B;
    try apply Z.leb_le in C; try apply Z.leb_gt in C;
    try apply Z.ltb_lt in D; try apply Z.ltb_ge in D;
    split; intros H; try discriminate; try reflexivity; lia.
Qed.

Lemma norm_index_of_nat (len k : nat) :
  (k < len)%nat -> norm_index len (Z.of_nat k) = Some k.
Proof.
  intros H. unfold norm_index.
  replace (0 <=? Z.of_nat k)%Z with true by (symmetry; apply Z.leb_le; lia).
  replace (Z.of_nat k <? Z.of_nat len)%Z with true by (symmetry; apply Z.ltb_lt; lia).
  cbn [andb]. now rewrite Nat2Z.id.
Qed.

Lemma norm_index_last (len : nat) : norm_index (S len) (-1) = Some len.
Proof.
  unfold norm_index. cbn [Z.leb Z.compare andb].
  replace (- Z.of_nat (S len) <=? -1)%Z with true by (symmetry; apply Z.leb_le; lia).
  cbn [Z.ltb Z.compare andb]. f_equal. lia.
Qed.

Lemma list_set_length {A} (l : list A) (k : nat) (x : A) :
  length (list_set l k x) = length l.
Proof.
  revert k. induction l as [|y l IH]; intros [|k]; cbn [list_set length]; auto.
Qed.

Lemma nth_error_list_set_same {A} (l : list A) (k : nat) (x : A) :
  (k < length l)%nat -> nth_error (list_set l k x) k = Some x.
Proof.
  revert k. induction l as [|y l IH]; intros [|k] H; cbn [length] in H;
    cbn [list_set nth_error]; try lia; [reflexivity|].
  apply IH. lia.
Qed.

Lemma nth_error_list_set_other {A} (l : list A) (k j : nat) (x : A) :
  j <> k -> nth_error (list_set l k x) j = nth_error l j.
Proof.
  revert k j. induction l as [|y l IH]; intros [|k] [|j] H;
    cbn [list_set nth_error]; try reflexivity; try contradiction.
  apply IH. congruence.
Qed.

Lemma list_set_twice {A} (l : list A) (k : nat) (x y : A) :
  list_set (list_set l k x) k y = list_set l k y.
Proof.
  revert k. induction l as [|z l IH]; intros [|k]; cbn [list_set]; try reflexivity.
  now rewrite IH.
Qed.

Lemma list_set_snoc {A} (l : list A) (x y : A) :
  list_set (l ++ [x]) (length l) y = l ++ [y].
Proof.
  induction l as [|z l IH]; cbn [List.app length list_set]; [reflexivity|].
  now rewrite IH.
Qed.

Lemma nth_error_snoc {A} (l : list A) (x : A) :
  nth_error (l ++ [x]) (length l) = Some x.
Proof.
  rewrite nth_error_app2 by lia. now rewrite Nat.sub_diag.
Qed.

Lemma forallb_list_set {A} (p : A -> bool) (l : list A) (k : nat) (x : A) :
  forallb p l = true -> p x = true -> forallb p (list_set l k x) = true.
Proof.
  intros Hl Hx. revert k Hl.
  induction l as [|y l IH]; intros [|k] Hl; cbn [list_set forallb] in *;
    try reflexivity; apply andb_true_iff in Hl as [Hy Hl].
  - now rewrite Hx.
  - now rewrite Hy, IH.
Qed.

Lemma forallb_nth_error {A} (p : A -> bool) (l : list A) (k : nat) (x : A) :
  forallb p l = true -> nth_error l k = Some x -> p x = true.
Proof.
  revert k. induction l as [|y l IH]; intros [|k] Hl Hk; cbn [nth_error] in Hk;
    try discriminate; cbn [forallb] in Hl; apply andb_true_iff in Hl as [Hy Hl].
  - now injection Hk as <-.
  - now apply (IH k).
Qed.

Lemma forallb_snoc {A} (p : A -> bool) (l : list A) (x : A) :
  forallb p l = true -> p x = true -> forallb p (l ++ [x]) = true.
Proof.
  intros Hl Hx. rewrite forallb_app, Hl. cbn [forallb]. now rewrite Hx.
Qed.

Lemma dict_get_set_same (d : list (str * value)) (k : str) (x : value) :
  dict_get (dict_set d k x) k = Some x.
Proof.
  induction d as [|[a y] d IH]; cbn [dict_set dict_get].
  - now rewrite str_eqb_refl.
  - destruct (str_eqb a k) eqn:E; cbn [dict_get]; rewrite E; auto.
Qed.

Lemma dict_get_set_other (d : list (str * value)) (k k' : str) (x : value) :
  k' <> k -> dict_get (dict_set d k x) k' = dict_get d k'.
Proof.
  intros H. induction d as [|[a y] d IH]; cbn [dict_set dict_get].
  - replace (str_eqb k k') with false; [reflexivity|].
    symmetry. apply str_eqb_neq. congruence.
  - destruct (str_eqb a k) eqn:E; cbn [dict_get].
    + apply str_eqb_eq in E. subst a.
      replace (str_eqb k k') with false; [reflexivity|].
      symmetry. apply str_eqb_neq. congruence.
    + now rewrite IH.
Qed.

Lemma dict_set_twice (d : list (str * value)) (k : str) (x y : value) :
  dict_set (dict_set d k x) k y = dict_set d k y.
Proof.
  induction d as [|[a z] d IH]; cbn [dict_set].
  - now rewrite str_eqb_refl.
  - destruct (str_eqb a k) eqn:E; cbn [dict_set]; rewrite E; [reflexivity|].
    now rewrite IH.
Qed.

(** The keys of a dict do not change when a present key is assigned. *)
Lemma keys_dict_set_present (d : list (str * value)) (k : str) (x y : value) :
  dict_get d k = Some y -> map fst (dict_set d k x) = map fst d.
Proof.
  induction d as [|[a z] d IH]; cbn [dict_set dict_get map fst]; [discriminate|].
  destruct (str_eqb a k) eqn:E; cbn [map fst]; [reflexivity|].
  intros H. now rewrite IH.
Qed.

Lemma wf_dict_get (d : list (str * value)) (k : str) (x : value) :
  wf_value (PyDict d) = true -> dict_get d k = Some x -> wf_value x = true.
Proof.
  cbn [wf_value]. intros H. apply andb_true_iff in H as [_ H].
  induction d as [|[a y] d IH]; cbn [dict_get]; [discriminate|].
  cbn [forallb fst snd] in H. apply andb_true_iff in H as [Ha H].
  apply andb_true_iff in Ha as [_ Hy].
  destruct (str_eqb a k); [now intros [= <-]|]. now apply IH.
Qed.

Lemma wf_value_dict_set (d : list (str * value)) (k : str) (x : value) :
  wf_value (PyDict d) = true -> wf_str k = true -> wf_value x = true ->
  wf_value (PyDict (dict_set d k x)) = true.
Proof.
  cbn [wf_value]. intros H Hk Hx. apply andb_true_iff in H as [H1 H2].
  apply andb_true_iff. split.
  - now apply distinct_dict_set.
  - apply (wf_dict_set d k x); [exact H2|].
    unfold wf_pair. cbn [fst snd]. now rewrite Hk, Hx.
Qed.

Lemma wf_value_list_set (l : list value) (k : nat) (x : value) :
  wf_value (PyList l) = true -> wf_value x = true ->
  wf_value (PyList (list_set l k x)) = true.
Proof. cbn [wf_value]. apply forallb_list_set. Qed.

Lemma wf_value_nth (l : list value) (k : nat) (x : value) :
  wf_value (PyList l) = true -> nth_error l k = Some x -> wf_value x = true.
Proof. cbn [wf_value]. apply forallb_nth_error. Qed.

Lemma wf_value_snoc (l : list value) (x : value) :
  wf_value (PyList l) = true -> wf_value x = true ->
  wf_value (PyList (l ++ [x])) = true.
Proof. cbn [wf_value]. apply forallb_snoc. Qed.

End SeqFacts.

(* ================================================================== *)
(** ** The save handler *)
(* ================================================================== *)

Module SaveFacts.
Import Py Json SeqFacts AutoTypeApp.
Local Open Scope py_scope.
Local Open Scope m_scope.

(** *** The handler monad *)

Lemma bind_ok {A B} (m : M A) (k : A -> M B) (s s1 : state) (a : A) :
  m s = (s1, Ok a) -> bind m k s = k a s1.
Proof. intros H. unfold bind. now rewrite H. Qed.

Lemma bind_raise {A B} (m : M A) (k : A -> M B) (s s1 : state) (e : exn) :
  m s = (s1, Raise e) -> bind m k s = (s1, Raise e).
Proof. intros H. unfold bind. now rewrite H. Qed.

Lemma bind_inv {A B} (m : M A) (k : A -> M B) (s s' : state) (b : B) :
  bind m k s = (s', Ok b) ->
  exists a s1, m s = (s1, Ok a) /\ k a s1 = (s', Ok b).
Proof.
  unfold bind. destruct (m s) as [s1 [a| |]]; intros H; try discriminate.
  now exists a, s1.
Qed.

Lemma data_item_some (x : str) (s : state) :
  data_item (Some x) s = (s, Ok (PyStr x)).
Proof. reflexivity. Qed.

Lemma data_item_inv (o : option str) (s s' : state) (x : value) :
  data_item o s = (s', Ok x) -> s' = s /\ exists y, o = Some y /\ x = PyStr y.
Proof.
  unfold data_item, lift. destruct o as [y|]; intros [= <- <-].
  split; [reflexivity|]. now exists y.
Qed.

Lemma mutate_ok (f : value -> result value) (s : state) (c : value) :
  f (commands (st_store s)) = Ok c ->
  mutate f s = (with_store s (Store c (file (st_store s))), Ok tt).
Proof. intros H. unfold mutate. now rewrite H. Qed.

Lemma mutate_raise (f : value -> result value) (s : state) (e : exn) :
  f (commands (st_store s)) = Raise e -> mutate f s = (s, Raise e).
Proof. intros H. unfold mutate. now rewrite H. Qed.

Lemma mutate_inv (f : value -> result value) (s s' : state) :
  mutate f s = (s', Ok tt) ->
  exists c, f (commands (st_store s)) = Ok c
            /\ s' = with_store s (Store c (file (st_store s))).
Proof.
  unfold mutate. destruct (f (commands (st_store s))) as [c| |];
    intros [= <-]. now exists c.
Qed.

(** *** Assignment through subscripts *)

Lemma at_int_list (l : list value) (i : Z) (k : nat) (x : value)
  (f : value -> result value) :
  norm_index (length l) i = Some k -> nth_error l k = Some x ->
  at_int (PyList l) i f = (x' <- f x ;; Ok (PyList (list_set l k x'))).
Proof. intros H1 H2. unfold at_int. now rewrite H1, H2. Qed.

Lemma at_int_list_none (l : list value) (i : Z) (f : value -> result value) :
  norm_index (length l) i = None -> at_int (PyList l) i f = Raise IndexError.
Proof. intros H. unfold at_int. now rewrite H. Qed.

Lemma at_str_dict (d : list (str * value)) (key : str) (x : value)
  (f : value -> result value) :
  dict_get d key = Some x ->
  at_str (PyDict d) key f = (x' <- f x ;; Ok (PyDict (dict_set d key x'))).
Proof. intros H. unfold at_str. now rewrite H. Qed.

Lemma at_str_dict_none (d : list (str * value)) (key : str)
  (f : value -> result value) :
  dict_get d key = None -> at_str (PyDict d) key f = Raise KeyError.
Proof. intros H. unfold at_str. now rewrite H. Qed.

(** An assignment through [v[i]] that succeeds was made in a list, as long
    as the assignment below it cannot be made in a string. *)
Lemma at_int_inv (v v' : value) (i : Z) (f : value -> result value) :
  (forall s y, f (PyStr s) <> Ok y) ->
  at_int v i f = Ok v' ->
  exists l k x x',
    v = PyList l /\ norm_index (length l) i = Some k /\ nth_error l k = Some x
    /\ f x = Ok x' /\ v' = PyList (list_set l k x').
Proof.
  intros Hf. destruct v as [| | |s|l|d]; cbn [at_int]; try discriminate.
  - unfold getitem_int. destruct (norm_index (length s) i) as [k|]; try discriminate.
    destruct (nth_error s k) as [c|]; try discriminate. cbn [rbind].
    destruct (f (PyStr [c])) as [y| |] eqn:E; try discriminate.
    now apply Hf in E.
  - destruct (norm_index (length l) i) as [k|] eqn:Hk; try discriminate.
    destruct (nth_error l k) as [x|] eqn:Hx; try discriminate.
    destruct (f x) as [x'| |] eqn:E; try discriminate. cbn [rbind].
    intros [= <-]. now exists l, k, x, x'.
Qed.

Lemma at_str_inv (v v' : value) (key : str) (f : value -> result value) :
  at_str v key f = Ok v' ->
  exists d x x',
    v = PyDict d /\ dict_get d key = Some x /\ f x = Ok x'
    /\ v' = PyDict (dict_set d key x').
Proof.
  destruct v as [| | | | |d]; cbn [at_str]; try discriminate.
  destruct (dict_get d key) as [x|] eqn:Hx; try discriminate.
  destruct (f x) as [x'| |] eqn:E; try discriminate. cbn [rbind].
  intros [= <-]. now exists d, x, x'.
Qed.

Lemma setitem_str_inv (key : str) (x v v' : value) :
  setitem_str key x v = Ok v' ->
  exists d, v = PyDict d /\ v' = PyDict (dict_set d key x).
Proof.
  destruct v as [| | | | |d]; cbn [setitem_str]; try discriminate.
  intros [= <-]. now exists d.
Qed.

Lemma append_inv (x v v' : value) :
  append x v = Ok v' -> exists l, v = PyList l /\ v' = PyList (l ++ [x]).
Proof.
  destruct v as [| | | |l|]; cbn [append]; try discriminate.
  intros [= <-]. now exists l.
Qed.

Lemma setitem_str_not_str (key : str) (x : value) (s : str) (y : value) :
  setitem_str key x (PyStr s) <> Ok y.
Proof. discriminate. Qed.

Lemma at_str_not_str (key : str) (f : value -> result value) (s : str)
  (y : value) : at_str (PyStr s) key f <> Ok y.
Proof. discriminate. Qed.

(** *** One assignment *)

Lemma set_top_ok (s : state) (l : list value) (i : Z) (k : nat)
  (d : list (str * value)) (key : str) (x : value) :
  commands (st_store s) = PyList l ->
  norm_index (length l) i = Some k -> nth_error l k = Some (PyDict d) ->
  set_top i key x s
  = (with_store s
       (Store (PyList (list_set l k (PyDict (dict_set d key x))))
          (file (st_store s))), Ok tt).
Proof.
  intros Hc Hk Hd. unfold set_top. apply mutate_ok. rewrite Hc.
  now rewrite (at_int_list l i k (PyDict d) _ Hk Hd).
Qed.

Lemma set_top_inv (s s' : state) (i : Z) (key : str) (x : value) :
  set_top i key x s = (s', Ok tt) ->
  exists l k d,
    commands (st_store s) = PyList l
    /\ norm_index (length l) i = Some k /\ nth_error l k = Some (PyDict d).
Proof.
  unfold set_top. intros H. apply mutate_inv in H as (c & H & _).
  apply at_int_inv in H as (l & k & e & e' & Hv & Hk & He & Hs & _);
    [|apply setitem_str_not_str].
  apply setitem_str_inv in Hs as (d & -> & _). now exists l, k, d.
Qed.

Lemma set_nested_ok (s : state) (l : list value) (p i : Z) (kp k : nat)
  (d dc : list (str * value)) (kids : list value) (key : str) (x : value) :
  commands (st_store s) = PyList l ->
  norm_index (length l) p = Some kp -> nth_error l kp = Some (PyDict d) ->
  dict_get d k_children = Some (PyList kids) ->
  norm_index (length kids) i = Some k -> nth_error kids k = Some (PyDict dc) ->
  set_nested p i key x s
  = (with_store s
       (Store
          (PyList
             (list_set l kp
                (PyDict
                   (dict_set d k_children
                      (PyList (list_set kids k (PyDict (dict_set dc key x))))))))
          (file (st_store s))), Ok tt).
Proof.
  intros Hc Hkp Hd Hch Hk Hdc. unfold set_nested. apply mutate_ok. rewrite Hc.
  rewrite (at_int_list l p kp (PyDict d) _ Hkp Hd).
  rewrite (at_str_dict d k_children (PyList kids) _ Hch).
  now rewrite (at_int_list kids i k (PyDict dc) _ Hk Hdc).
Qed.

Lemma set_nested_inv (s s' : state) (p i : Z) (key : str) (x : value) :
  set_nested p i key x s = (s', Ok tt) ->
  exists l kp d kids k dc,
    commands (st_store s) = PyList l
    /\ norm_index (length l) p = Some kp /\ nth_error l kp = Some (PyDict d)
    /\ dict_get d k_children = Some (PyList kids)
    /\ norm_index (length kids) i = Some k /\ nth_error kids k = Some (PyDict dc).
Proof.
  unfold set_nested. intros H. apply mutate_inv in H as (c & H & _).
  apply at_int_inv in H as (l & kp & e & e' & Hv & Hkp & He & Hs & _);
    [|intros; apply at_str_not_str].
  apply at_str_inv in Hs as (d & ch & ch' & -> & Hch & Hs & _).
  apply at_int_inv in Hs as (kids & k & c1 & c1' & -> & Hk & Hc1 & Hs & _);
    [|apply setitem_str_not_str].
  apply setitem_str_inv in Hs as (dc & -> & _).
  now exists l, kp, d, kids, k, dc.
Qed.

(** *** States *)

Lemma with_store_self (s : state) (c : value) :
  commands (st_store s) = c -> with_store s (Store c (file (st_store s))) = s.
Proof. destruct s as [[c0 f] fm a1 a2 a3 a4 ab]. cbn. now intros ->. Qed.

Lemma list_set_same {A} (l : list A) (k : nat) (x : A) :
  nth_error l k = Some x -> list_set l k x = l.
Proof.
  revert k. induction l as [|y l IH]; intros [|k]; cbn [nth_error list_set];
    try discriminate.
  - now intros [= ->].
  - intros H. now rewrite IH.
Qed.

Lemma dict_set_same (d : list (str * value)) (key : str) (x : value) :
  dict_get d key = Some x -> dict_set d key x = d.
Proof.
  induction d as [|[a y] d IH]; cbn [dict_get dict_set]; [discriminate|].
  destruct (str_eqb a key); [now intros [= ->]|]. intros H. now rewrite IH.
Qed.

(** *** Reading back *)

Lemma getitem_int_list_set (l : list value) (i : Z) (k : nat) (x : value) :
  norm_index (length l) i = Some k ->
  getitem_int (PyList (list_set l k x)) i = Ok x.
Proof.
  intros H. unfold getitem_int. rewrite list_set_length, H.
  rewrite nth_error_list_set_same; [reflexivity|]. now apply (norm_index_lt _ i).
Qed.

Lemma getitem_int_last (l : list value) (x : value) :
  getitem_int (PyList (l ++ [x])) (-1) = Ok x.
Proof.
  unfold getitem_int. rewrite length_app. cbn [length]. rewrite Nat.add_1_r.
  rewrite norm_index_last. now rewrite nth_error_snoc.
Qed.

Lemma getitem_str_dict_set (d : list (str * value)) (key : str) (x : value) :
  getitem_str (PyDict (dict_set d key x)) key = Ok x.
Proof. unfold getitem_str. now rewrite dict_get_set_same. Qed.

Lemma update_fields_get (n c t : str) (d : list (str * value)) :
  Spec.fields_set n c t d (Spec.update_fields n c t d).
Proof.
  unfold Spec.fields_set, Spec.update_fields. repeat split.
  - rewrite !dict_get_set_other by discriminate. apply dict_get_set_same.
  - rewrite dict_get_set_other by discriminate. apply dict_get_set_same.
  - apply dict_get_set_same.
  - intros k H1 H2 H3. now rewrite !dict_get_set_other by assumption.
Qed.

(** *** The update path *)

(** The three assignments of the top-level update. *)
Definition update_top (i : Z) (n c t : str) : M unit :=
  (x <~ data_item (Some n) ;; set_top i k_name x) ;;;
  (x <~ data_item (Some c) ;; set_top i k_command x) ;;;
  (x <~ data_item (Some t) ;; set_top i k_text x).

(** The three assignments of the nested update. *)
Definition update_nested (p i : Z) (n c t : str) : M unit :=
  (x <~ data_item (Some n) ;; set_nested p i k_name x) ;;;
  (x <~ data_item (Some c) ;; set_nested p i k_command x) ;;;
  (x <~ data_item (Some t) ;; set_nested p i k_text x).

Lemma set_top_again (s : state) (f : option text) (l : list value) (i : Z)
  (k : nat) (d : list (str * value)) (key : str) (x : value) :
  norm_index (length l) i = Some k ->
  set_top i key x (with_store s (Store (PyList (list_set l k (PyDict d))) f))
  = (with_store s
       (Store (PyList (list_set l k (PyDict (dict_set d key x)))) f), Ok tt).
Proof.
  intros Hk.
  rewrite set_top_ok with (l := list_set l k (PyDict d)) (k := k) (d := d).
  - cbn [with_store st_store file commands]. now rewrite list_set_twice.
  - reflexivity.
  - now rewrite list_set_length.
  - apply nth_error_list_set_same. now apply (norm_index_lt _ i).
Qed.

Lemma update_top_steps (s : state) (f : option text) (l : list value) (i : Z)
  (k : nat) (d : list (str * value)) (n c t : str) :
  norm_index (length l) i = Some k ->
  update_top i n c t
    (with_store s (Store (PyList (list_set l k (PyDict d))) f))
  = (with_store s
       (Store (PyList (list_set l k (PyDict (Spec.update_fields n c t d)))) f),
     Ok tt).
Proof.
  intros Hk. unfold update_top, Spec.update_fields.
  rewrite (bind_ok _ _ _ _ tt
             (set_top_again s f l i k d k_name (PyStr n) Hk)).
  rewrite (bind_ok _ _ _ _ tt
             (set_top_again s f l i k _ k_command (PyStr c) Hk)).
  exact (set_top_again s f l i k _ k_text (PyStr t) Hk).
Qed.

Lemma set_nested_again (s : state) (f : option text) (l kids : list value)
  (p i : Z) (kp k : nat) (d dc : list (str * value)) (key : str) (x : value) :
  norm_index (length l) p = Some kp -> norm_index (length kids) i = Some k ->
  set_nested p i key x
    (with_store s
       (Store
          (PyList
             (list_set l kp
                (PyDict
                   (dict_set d k_children
                      (PyList (list_set kids k (PyDict dc))))))) f))
  = (with_store s
       (Store
          (PyList
             (list_set l kp
                (PyDict
                   (dict_set d k_children
                      (PyList (list_set kids k (PyDict (dict_set dc key x))))))))
          f), Ok tt).
Proof.
  intros Hkp Hk.
  rewrite set_nested_ok
    with (l := list_set l kp
                 (PyDict (dict_set d k_children
                            (PyList (list_set kids k (PyDict dc))))))
         (kp := kp) (k := k)
         (d := dict_set d k_children (PyList (list_set kids k (PyDict dc))))
         (dc := dc) (kids := list_set kids k (PyDict dc)).
  - cbn [with_store st_store file commands].
    now rewrite !list_set_twice, dict_set_twice.
  - reflexivity.
  - now rewrite list_set_length.
  - apply nth_error_list_set_same. now apply (norm_index_lt _ p).
  - apply dict_get_set_same.
  - now rewrite list_set_length.
  - apply nth_error_list_set_same. now apply (norm_index_lt _ i).
Qed.

Lemma update_nested_steps (s : state) (f : option text) (l kids : list value)
  (p i : Z) (kp k : nat) (d dc : list (str * value)) (n c t : str) :
  norm_index (length l) p = Some kp -> norm_index (length kids) i = Some k ->
  update_nested p i n c t
    (with_store s
       (Store
          (PyList
             (list_set l kp
                (PyDict
                   (dict_set d k_children
                      (PyList (list_set kids k (PyDict dc))))))) f))
  = (with_store s
       (Store
          (PyList
             (list_set l kp
                (PyDict
                   (dict_set d k_children
                      (PyList
                         (list_set kids k
                            (PyDict (Spec.update_fields n c t dc))))))))
          f), Ok tt).
Proof.
  intros Hkp Hk. unfold update_nested, Spec.update_fields.
  rewrite (bind_ok _ _ _ _ tt
             (set_nested_again s f l kids p i kp k d dc k_name (PyStr n) Hkp Hk)).
  rewrite (bind_ok _ _ _ _ tt
             (set_nested_again s f l kids p i kp k d _ k_command (PyStr c) Hkp Hk)).
  exact (set_nested_again s f l kids p i kp k d _ k_text (PyStr t) Hkp Hk).
Qed.

(** The collection after an update at top level. *)
Definition top_updated (l : list value) (k : nat) (d : list (str * value))
  (n c t : str) : value :=
  PyList (list_set l k (PyDict (Spec.update_fields n c t d))).

(** The collection after an update among the children of an entry. *)
Definition nested_updated (l kids : list value) (kp k : nat)
  (d dc : list (str * value)) (n c t : str) : value :=
  PyList
    (list_set l kp
       (PyDict
          (dict_set d k_children
             (PyList (list_set kids k (PyDict (Spec.update_fields n c t dc))))))).

Lemma update_top_ok (s : state) (data : Form.data_t) (l : list value) (i : Z)
  (k : nat) (d : list (str * value)) (n c t : str) :
  commands (st_store s) = PyList l ->
  norm_index (length l) i = Some k -> nth_error l k = Some (PyDict d) ->
  Form.index data = Some i -> Form.parent data = None ->
  Form.name data = Some n -> Form.command data = Some c ->
  Form.text data = Some t ->
  save_pressed data s
  = (with_store s
       (save_store (Store (top_updated l k d n c t) (file (st_store s)))),
     Ok tt).
Proof.
  intros Hc Hk Hd Hi Hp Hn Hcm Ht. unfold save_pressed, save_body.
  rewrite Hi, Hp, Hn, Hcm, Ht. fold (update_top i n c t).
  rewrite <- (with_store_self s (PyList l) Hc) at 1.
  rewrite <- (list_set_same l k (PyDict d) Hd) at 1.
  rewrite (bind_ok _ _ _ _ tt
             (update_top_steps s (file (st_store s)) l i k d n c t Hk)).
  reflexivity.
Qed.

Lemma update_nested_ok (s : state) (data : Form.data_t) (l kids : list value)
  (p i : Z) (kp k : nat) (d dc : list (str * value)) (n c t : str) :
  commands (st_store s) = PyList l ->
  norm_index (length l) p = Some kp -> nth_error l kp = Some (PyDict d) ->
  dict_get d k_children = Some (PyList kids) ->
  norm_index (length kids) i = Some k -> nth_error kids k = Some (PyDict dc) ->
  Form.index data = Some i -> Form.parent data = Some p ->
  Form.name data = Some n -> Form.command data = Some c ->
  Form.text data = Some t ->
  save_pressed data s
  = (with_store s
       (save_store
          (Store (nested_updated l kids kp k d dc n c t) (file (st_store s)))),
     Ok tt).
Proof.
  intros Hc Hkp Hd Hch Hk Hdc Hi Hp Hn Hcm Ht. unfold save_pressed, save_body.
  rewrite Hi, Hp, Hn, Hcm, Ht. fold (update_nested p i n c t).
  rewrite <- (with_store_self s (PyList l) Hc) at 1.
  rewrite <- (list_set_same l kp (PyDict d) Hd) at 1.
  rewrite <- (dict_set_same d k_children (PyList kids) Hch) at 1.
  rewrite <- (list_set_same kids k (PyDict dc) Hdc) at 1.
  rewrite (bind_ok _ _ _ _ tt
             (update_nested_steps s (file (st_store s)) l kids p i kp k d dc
                n c t Hkp Hk)).
  reflexivity.
Qed.

(** *** The add path *)

Lemma add_top_ok (s : state) (data : Form.data_t) (l : list value)
  (n c t : str) :
  commands (st_store s) = PyList l ->
  Form.index data = None -> Form.parent data = None ->
  Form.name data = Some n -> Form.command data = Some c ->
  Form.text data = Some t ->
  save_pressed data s
  = (with_store s
       (save_store
          (Store (PyList (l ++ [Spec.new_entry n c t s_parent]))
             (file (st_store s)))), Ok tt).
Proof.
  intros Hc Hi Hp Hn Hcm Ht. unfold save_pressed, save_body.
  rewrite Hi, Hp, Hn, Hcm, Ht.
  rewrite bind_ok
    with (s1 := with_store s
                  (Store (PyList (l ++ [Spec.new_entry n c t s_parent]))
                     (file (st_store s)))) (a := tt).
  - reflexivity.
  - rewrite (bind_ok _ _ _ _ _ (data_item_some n s)).
    rewrite (bind_ok _ _ _ _ _ (data_item_some c s)).
    rewrite (bind_ok _ _ _ _ _ (data_item_some t s)).
    apply mutate_ok. now rewrite Hc.
Qed.

(** The collection after a child was appended under the entry at [kp]. *)
Definition child_added (l kids : list value) (kp : nat)
  (d : list (str * value)) (n c t : str) : value :=
  PyList
    (list_set l kp
       (PyDict
          (dict_set d k_children
             (PyList (kids ++ [Spec.new_entry n c t s_child]))))).

Lemma add_child_steps (s : state) (data : Form.data_t) (p : Z) (n c t : str) :
  Form.index data = None -> Form.parent data = Some p ->
  Form.name data = Some n -> Form.command data = Some c ->
  Form.text data = Some t ->
  save_pressed data s
  = (mutate (fun cmds =>
       at_int cmds p (fun entry =>
         at_str entry k_children (append (Spec.new_entry n c t s_child)))) ;;;
     save) s.
Proof.
  intros Hi Hp Hn Hcm Ht. unfold save_pressed, save_body.
  rewrite Hi, Hp, Hn, Hcm, Ht. reflexivity.
Qed.

Lemma add_child_ok (s : state) (data : Form.data_t) (l kids : list value)
  (p : Z) (kp : nat) (d : list (str * value)) (n c t : str) :
  commands (st_store s) = PyList l ->
  norm_index (length l) p = Some kp -> nth_error l kp = Some (PyDict d) ->
  dict_get d k_children = Some (PyList kids) ->
  Form.index data = None -> Form.parent data = Some p ->
  Form.name data = Some n -> Form.command data = Some c ->
  Form.text data = Some t ->
  save_pressed data s
  = (with_store s
       (save_store (Store (child_added l kids kp d n c t) (file (st_store s)))),
     Ok tt).
Proof.
  intros Hc Hkp Hd Hch Hi Hp Hn Hcm Ht.
  rewrite (add_child_steps s data p n c t Hi Hp Hn Hcm Ht).
  rewrite bind_ok
    with (s1 := with_store s
                  (Store (child_added l kids kp d n c t) (file (st_store s))))
         (a := tt).
  - reflexivity.
  - apply mutate_ok. rewrite Hc.
    rewrite (at_int_list l p kp (PyDict d) _ Hkp Hd).
    now rewrite (at_str_dict d k_children (PyList kids) _ Hch).
Qed.

Lemma add_child_raises (s : state) (data : Form.data_t) (p : Z) (n c t : str)
  (e : exn) :
  Form.index data = None -> Form.parent data = Some p ->
  Form.name data = Some n -> Form.command data = Some c ->
  Form.text data = Some t ->
  at_int (commands (st_store s)) p (fun entry =>
    at_str entry k_children (append (Spec.new_entry n c t s_child))) = Raise e ->
  save_pressed data s = (s, Raise e).
Proof.
  intros Hi Hp Hn Hcm Ht H.
  rewrite (add_child_steps s data p n c t Hi Hp Hn Hcm Ht).
  apply bind_raise. now apply mutate_raise.
Qed.

(** *** Updates that raise *)

Lemma update_top_raises (s : state) (data : Form.data_t) (i : Z) (n : str)
  (e : exn) :
  Form.index data = Some i -> Form.parent data = None ->
  Form.name data = Some n ->
  at_int (commands (st_store s)) i (setitem_str k_name (PyStr n)) = Raise e ->
  save_pressed data s = (s, Raise e).
Proof.
  intros Hi Hp Hn H. unfold save_pressed, save_body. rewrite Hi, Hp, Hn.
  apply bind_raise. apply bind_raise.
  rewrite (bind_ok _ _ _ _ _ (data_item_some n s)).
  unfold set_top. now apply mutate_raise.
Qed.

Lemma update_nested_raises (s : state) (data : Form.data_t) (p i : Z)
  (n : str) (e : exn) :
  Form.index data = Some i -> Form.parent data = Some p ->
  Form.name data = Some n ->
  at_int (commands (st_store s)) p (fun entry =>
    at_str entry k_children (fun children =>
      at_int children i (setitem_str k_name (PyStr n)))) = Raise e ->
  save_pressed data s = (s, Raise e).
Proof.
  intros Hi Hp Hn H. unfold save_pressed, save_body. rewrite Hi, Hp, Hn.
  apply bind_raise. apply bind_raise.
  rewrite (bind_ok _ _ _ _ _ (data_item_some n s)).
  unfold set_nested. now apply mutate_raise.
Qed.

End SaveFacts.

(* ================================================================== *)
(** ** What an update changes and what it leaves *)
(* ================================================================== *)

Module FrameFacts.
Import Py Json SeqFacts SaveFacts AutoTypeApp.

Lemma only_at_list_set {A} (l : list A) (k : nat) (x : A) :
  (k < length l)%nat -> Spec.only_at k x l (list_set l k x).
Proof.
  intros H. unfold Spec.only_at. repeat split.
  - apply list_set_length.
  - now apply nth_error_list_set_same.
  - intros j Hj. now apply nth_error_list_set_other.
Qed.

Lemma only_key_dict_set (d : list (str * value)) (key : str) (x : value) :
  Spec.only_key key x d (dict_set d key x).
Proof.
  unfold Spec.only_key. split.
  - apply dict_get_set_same.
  - intros k Hk. now apply dict_get_set_other.
Qed.

Lemma updated_in_list_set (l : list value) (i : Z) (k : nat)
  (d : list (str * value)) (n c t : str) :
  norm_index (length l) i = Some k -> nth_error l k = Some (PyDict d) ->
  Spec.updated_in i n c t l
    (list_set l k (PyDict (Spec.update_fields n c t d))).
Proof.
  intros Hk Hd. exists k, d, (Spec.update_fields n c t d). repeat split; auto.
  - apply list_set_length.
  - apply nth_error_list_set_same. now apply (norm_index_lt _ i).
  - intros j Hj. now apply nth_error_list_set_other.
  - apply (update_fields_get n c t d).
  - apply (update_fields_get n c t d).
  - apply (update_fields_get n c t d).
  - apply (update_fields_get n c t d).
Qed.

(** *** Well-formed collections stay so *)

Lemma wf_update_fields (d : list (str * value)) (n c t : str) :
  wf_value (PyDict d) = true ->
  wf_str n = true -> wf_str c = true -> wf_str t = true ->
  wf_value (PyDict (Spec.update_fields n c t d)) = true.
Proof.
  intros Hd Hn Hc Ht. unfold Spec.update_fields.
  repeat (apply wf_value_dict_set; try reflexivity; try assumption).
Qed.

Lemma wf_new_entry (n c t ty : str) :
  wf_str n = true -> wf_str c = true -> wf_str t = true -> wf_str ty = true ->
  wf_value (Spec.new_entry n c t ty) = true.
Proof.
  intros Hn Hc Ht Hty. unfold Spec.new_entry.
  cbn [wf_value forallb map fst snd]. rewrite Hn, Hc, Ht, Hty. reflexivity.
Qed.

Lemma wf_top_updated (l : list value) (k : nat) (d : list (str * value))
  (n c t : str) :
  wf_value (PyList l) = true -> nth_error l k = Some (PyDict d) ->
  wf_str n = true -> wf_str c = true -> wf_str t = true ->
  wf_value (top_updated l k d n c t) = true.
Proof.
  intros Hl Hd Hn Hc Ht. unfold top_updated.
  apply wf_value_list_set; [assumption|].
  apply wf_update_fields; try assumption. now apply (wf_value_nth l k).
Qed.

Lemma wf_nested_updated (l kids : list value) (kp k : nat)
  (d dc : list (str * value)) (n c t : str) :
  wf_value (PyList l) = true -> nth_error l kp = Some (PyDict d) ->
  dict_get d k_children = Some (PyList kids) ->
  nth_error kids k = Some (PyDict dc) ->
  wf_str n = true -> wf_str c = true -> wf_str t = true ->
  wf_value (nested_updated l kids kp k d dc n c t) = true.
Proof.
  intros Hl Hd Hch Hdc Hn Hc Ht. unfold nested_updated.
  assert (Wd : wf_value (PyDict d) = true) by now apply (wf_value_nth l kp).
  assert (Wk : wf_value (PyList kids) = true)
    by now apply (wf_dict_get d k_children).
  apply wf_value_list_set; [assumption|].
  apply wf_value_dict_set; [assumption|reflexivity|].
  apply (wf_top_updated kids k dc n c t); assumption.
Qed.

Lemma wf_child_added (l kids : list value) (kp : nat) (d : list (str * value))
  (n c t : str) :
  wf_value (PyList l) = true -> nth_error l kp = Some (PyDict d) ->
  dict_get d k_children = Some (PyList kids) ->
  wf_str n = true -> wf_str c = true -> wf_str t = true ->
  wf_value (child_added l kids kp d n c t) = true.
Proof.
  intros Hl Hd Hch Hn Hc Ht. unfold child_added.
  assert (Wd : wf_value (PyDict d) = true) by now apply (wf_value_nth l kp).
  assert (Wk : wf_value (PyList kids) = true)
    by now apply (wf_dict_get d k_children).
  apply wf_value_list_set; [assumption|].
  apply wf_value_dict_set; [assumption|reflexivity|].
  apply wf_value_snoc; [assumption|]. now apply wf_new_entry.
Qed.

(** A saved well-formed collection is what the next start of the program
    loads. *)
Lemma reload_saved (s : state) (v : value) (f : option text) :
  wf_value v = true ->
  CommandList.load (file (st_store (with_store s (save_store (Store v f)))))
  = Ok (st_store (with_store s (save_store (Store v f)))).
Proof.
  intros H. cbn [with_store st_store].
  apply (LoadFacts.load_after_save (Store v f)). exact H.
Qed.

(** *** The addressed entry, read back *)

Lemma entry_at_top_inv (l : list value) (i : Z) (x : value) :
  Spec.entry_at (PyList l) None i = Ok x ->
  exists k, norm_index (length l) i = Some k /\ nth_error l k = Some x.
Proof.
  cbn [Spec.entry_at getitem_int].
  destruct (norm_index (length l) i) as [k|]; [|discriminate].
  destruct (nth_error l k) as [y|] eqn:E; [|discriminate].
  intros [= <-]. now exists k.
Qed.

Lemma getitem_int_dict_inv (v : value) (i : Z) (d : list (str * value)) :
  getitem_int v i = Ok (PyDict d) ->
  exists l k, v = PyList l /\ norm_index (length l) i = Some k
              /\ nth_error l k = Some (PyDict d).
Proof.
  destruct v as [| | |s|l|d0]; cbn [getitem_int]; try discriminate.
  - destruct (norm_index (length s) i) as [k|]; [|discriminate].
    destruct (nth_error s k); discriminate.
  - destruct (norm_index (length l) i) as [k|] eqn:Hk; [|discriminate].
    destruct (nth_error l k) as [y|] eqn:E; [|discriminate].
    intros [= ->]. now exists l, k.
Qed.

Lemma entry_at_nested_inv (l : list value) (p i : Z) (dc : list (str * value)) :
  Spec.entry_at (PyList l) (Some p) i = Ok (PyDict dc) ->
  exists kp d kids k,
    norm_index (length l) p = Some kp /\ nth_error l kp = Some (PyDict d)
    /\ dict_get d k_children = Some (PyList kids)
    /\ norm_index (length kids) i = Some k
    /\ nth_error kids k = Some (PyDict dc).
Proof.
  cbn [Spec.entry_at getitem_int].
  destruct (norm_index (length l) p) as [kp|] eqn:Hkp; [|discriminate].
  destruct (nth_error l kp) as [e|] eqn:He; [|discriminate]. cbn [rbind].
  destruct e as [| | | | |d]; cbn [getitem_str rbind]; try discriminate.
  destruct (dict_get d k_children) as [ch|] eqn:Hch; [|discriminate].
  cbn [rbind]. intros H.
  apply getitem_int_dict_inv in H as (kids & k & -> & Hk & Hdc).
  now exists kp, d, kids, k.
Qed.

End FrameFacts.

(* ================================================================== *)
(** ** The form, while the user types *)
(* ================================================================== *)

Module FormFacts.
Import Form.

Lemma opt_eqb_Z_refl (o : option Z) : opt_eqb Z.eqb o o = true.
Proof. destruct o as [z|]; cbn; [apply Z.eqb_refl|reflexivity]. Qed.

Lemma opt_eqb_str_refl (o : option str) : opt_eqb str_eqb o o = true.
Proof. destruct o as [z|]; cbn; [apply str_eqb_refl|reflexivity]. Qed.

Lemma str_eqb_sym (a b : str) : str_eqb a b = str_eqb b a.
Proof.
  revert b. induction a as [|x a IH]; intros [|y b]; cbn; try reflexivity.
  now rewrite IH, N.eqb_sym.
Qed.

Lemma str_eqb_cons_self (c : char) (v : str) : str_eqb (c :: v) v = false.
Proof.
  apply str_eqb_neq. intros E. apply (f_equal (@length char)) in E.
  cbn [length] in E. lia.
Qed.

Lemma str_eqb_self_cons (c : char) (v : str) : str_eqb v (c :: v) = false.
Proof. rewrite str_eqb_sym. apply str_eqb_cons_self. Qed.

Lemma data_eqb_refl (d : data_t) : data_eqb d d = true.
Proof.
  unfold data_eqb. now rewrite !opt_eqb_Z_refl, !opt_eqb_str_refl.
Qed.

Lemma data_eqb_name (i p : option Z) (ty n n' c t : option str) :
  data_eqb (Data i p ty n c t) (Data i p ty n' c t) = opt_eqb str_eqb n n'.
Proof.
  unfold data_eqb. cbn [index parent type name command text].
  rewrite !opt_eqb_Z_refl, !opt_eqb_str_refl. cbn [andb].
  now rewrite !andb_true_r.
Qed.

Lemma data_eqb_command (i p : option Z) (ty n c c' t : option str) :
  data_eqb (Data i p ty n c t) (Data i p ty n c' t) = opt_eqb str_eqb c c'.
Proof.
  unfold data_eqb. cbn [index parent type name command text].
  rewrite !opt_eqb_Z_refl, !opt_eqb_str_refl. cbn [andb].
  now rewrite !andb_true_r.
Qed.

Lemma data_eqb_text (i p : option Z) (ty n c t t' : option str) :
  data_eqb (Data i p ty n c t) (Data i p ty n c t') = opt_eqb str_eqb t t'.
Proof.
  unfold data_eqb. cbn [index parent type name command text].
  now rewrite !opt_eqb_Z_refl, !opt_eqb_str_refl.
Qed.

(** A field that does not show [v] does not hold [v]. *)
Lemma opt_eqb_shown (o : option str) (v : str) :
  str_eqb (get_or_empty o) v = false -> opt_eqb str_eqb o (Some v) = false.
Proof. destruct o as [x|]; cbn [get_or_empty opt_eqb]; auto. Qed.

(** *** The event loop *)

Lemma run_cons (n : nat) (d : data_t) (nv cv ta : str) (m : message)
  (q : list message) :
  run (S n) (Make d nv cv ta (m :: q))
  = run n (dispatch (Make d nv cv ta (m :: q))).
Proof. reflexivity. Qed.

Lemma run_nil (n : nat) (d : data_t) (nv cv ta : str) :
  run n (Make d nv cv ta []) = Make d nv cv ta [].
Proof. destruct n; reflexivity. Qed.

Lemma run_at_rest (n : nat) (f : t) : pending f = [] -> run n f = f.
Proof. intros H. destruct n; cbn [run]; [reflexivity|]. now rewrite H. Qed.

Lemma run_add (n m : nat) (f : t) : run (n + m) f = run m (run n f).
Proof.
  revert f. induction n as [|n IH]; intros f; cbn [Nat.add run]; [reflexivity|].
  destruct (pending f) as [|x q] eqn:E.
  - symmetry. now apply run_at_rest.
  - apply IH.
Qed.

(** Once the queue is empty, more turns of the loop change nothing. *)
Lemma run_more (n m : nat) (f : t) :
  pending (run n f) = [] -> (n <= m)%nat -> run m f = run n f.
Proof.
  intros H Hle. replace m with (n + (m - n))%nat by lia.
  rewrite run_add. now apply run_at_rest.
Qed.

Lemma dispatch_input (id : input_id) (d : data_t) (nv cv ta : str)
  (q : list message) :
  dispatch (Make d nv cv ta (InputChanged id :: q))
  = on_input_changed id (Make d nv cv ta q).
Proof. reflexivity. Qed.

Lemma dispatch_text (d : data_t) (nv cv ta : str) (q : list message) :
  dispatch (Make d nv cv ta (TextAreaChanged :: q))
  = on_text_area_changed (Make d nv cv ta q).
Proof. reflexivity. Qed.

(** *** The handlers, on a form given by its parts *)

Lemma set_data_same (d : data_t) (nv cv ta : str) (q : list message) :
  set_data d (Make d nv cv ta q) = Make d nv cv ta q.
Proof. unfold set_data. cbn [data]. now rewrite data_eqb_refl. Qed.

Lemma set_data_other (d d' : data_t) (nv cv ta : str) (q : list message) :
  data_eqb d d' = false ->
  set_data d' (Make d nv cv ta q) = watch_data d' (Make d' nv cv ta q).
Proof. intros H. unfold set_data. cbn [data]. now rewrite H. Qed.

(** [watch_data] on a form whose name field already shows the name. *)
Lemma watch_data_command_same (d : data_t) (ta : str) (q : list message) :
  watch_data d
    (Make d (get_or_empty (name d)) (get_or_empty (command d)) ta q)
  = Make d (get_or_empty (name d)) (get_or_empty (command d))
      (get_or_empty (text d)) (q ++ [TextAreaChanged]).
Proof.
  unfold watch_data, set_input_value, set_text.
  cbn [input_value name_value command_value data text_area pending].
  rewrite !str_eqb_refl.
  cbn [input_value name_value command_value data text_area pending].
  now rewrite ?str_eqb_refl.
Qed.

Lemma watch_data_command_other (d : data_t) (cv ta : str) (q : list message) :
  str_eqb cv (get_or_empty (command d)) = false ->
  watch_data d (Make d (get_or_empty (name d)) cv ta q)
  = Make d (get_or_empty (name d)) (get_or_empty (command d))
      (get_or_empty (text d))
      ((q ++ [InputChanged Command]) ++ [TextAreaChanged]).
Proof.
  intros H. unfold watch_data, set_input_value, set_text.
  cbn [input_value name_value command_value data text_area pending].
  rewrite !str_eqb_refl.
  cbn [input_value name_value command_value data text_area pending].
  now rewrite H.
Qed.

Lemma changed_name (d : data_t) (nv cv ta : str) (q : list message) :
  on_input_changed Name (Make d nv cv ta q)
  = set_data (with_input Name nv d) (Make d nv cv ta q).
Proof. reflexivity. Qed.

Lemma changed_command_slash (d : data_t) (nv cv ta : str) (q : list message) :
  startswith cv s_slash = true ->
  on_input_changed Command (Make d nv cv ta q)
  = set_data (with_input Command cv d) (Make d nv cv ta q).
Proof.
  intros H. unfold on_input_changed.
  cbn [input_value command_value]. now rewrite H.
Qed.

Lemma changed_command_bare (d : data_t) (nv cv ta : str) (q : list message) :
  startswith cv s_slash = false ->
  on_input_changed Command (Make d nv cv ta q)
  = set_data (with_input Command cv d)
      (Make d nv (s_slash ++ cv) ta (q ++ [InputChanged Command])).
Proof.
  intros H. unfold on_input_changed.
  cbn [input_value command_value]. rewrite H. cbn [negb].
  unfold set_input_value. cbn [input_value command_value].
  change (s_slash ++ cv) with (47%N :: cv).
  now rewrite str_eqb_self_cons.
Qed.

Lemma changed_text (i p : option Z) (ty n c t : option str) (nv cv ta : str)
  (q : list message) :
  on_text_area_changed (Make (Data i p ty n c t) nv cv ta q)
  = set_data (Data i p ty n c (Some ta)) (Make (Data i p ty n c t) nv cv ta q).
Proof. reflexivity. Qed.

(** The text area reports its change and [data] takes the text; the one
    more report this can cause changes nothing. *)
Lemma text_reported (i p : option Z) (ty n c t : option str)
  (q : list message) :
  let d := Data i p ty n c t in
  let d' := Data i p ty n c (Some (get_or_empty t)) in
  dispatch
    (Make d (get_or_empty n) (get_or_empty c) (get_or_empty t)
       (TextAreaChanged :: q))
  = match t with
    | Some _ => Make d (get_or_empty n) (get_or_empty c) (get_or_empty t) q
    | None =>
        Make d' (get_or_empty n) (get_or_empty c) [] (q ++ [TextAreaChanged])
    end.
Proof.
  intros d d'. rewrite dispatch_text. unfold d. rewrite changed_text.
  destruct t as [x|]; cbn [get_or_empty].
  - apply set_data_same.
  - rewrite set_data_other by now rewrite data_eqb_text.
    apply (watch_data_command_same (Data i p ty n c (Some []))).
Qed.

(** *** Reports that change nothing *)

Lemma name_report_idle (i p : option Z) (ty c t : option str) (nv cv ta : str)
  (q : list message) :
  dispatch (Make (Data i p ty (Some nv) c t) nv cv ta (InputChanged Name :: q))
  = Make (Data i p ty (Some nv) c t) nv cv ta q.
Proof. rewrite dispatch_input, changed_name. apply set_data_same. Qed.

Lemma command_report_idle (i p : option Z) (ty n t : option str)
  (nv cv ta : str) (q : list message) :
  startswith cv s_slash = true ->
  dispatch
    (Make (Data i p ty n (Some cv) t) nv cv ta (InputChanged Command :: q))
  = Make (Data i p ty n (Some cv) t) nv cv ta q.
Proof.
  intros H. rewrite dispatch_input, changed_command_slash by assumption.
  apply set_data_same.
Qed.

Lemma text_report_idle (i p : option Z) (ty n c : option str) (nv cv ta : str)
  (q : list message) :
  dispatch (Make (Data i p ty n c (Some ta)) nv cv ta (TextAreaChanged :: q))
  = Make (Data i p ty n c (Some ta)) nv cv ta q.
Proof. rewrite dispatch_text, changed_text. apply set_data_same. Qed.

(** [watch_data], whatever the two fields show. *)
Lemma watch_data_posts (d : data_t) (nv cv ta : str) (q : list message) :
  watch_data d (Make d nv cv ta q)
  = Make d (get_or_empty (name d)) (get_or_empty (command d))
      (get_or_empty (text d))
      (((q ++ (if str_eqb nv (get_or_empty (name d)) then []
               else [InputChanged Name]))
        ++ (if str_eqb cv (get_or_empty (command d)) then []
            else [InputChanged Command]))
       ++ [TextAreaChanged]).
Proof.
  unfold watch_data, set_input_value, set_text.
  cbn [input_value name_value command_value data text_area pending].
  destruct (str_eqb nv (get_or_empty (name d))) eqn:En;
    cbn [input_value name_value command_value data text_area pending];
    destruct (str_eqb cv (get_or_empty (command d))) eqn:Ec;
    cbn [input_value name_value command_value data text_area pending];
    try (apply str_eqb_eq in En; subst nv);
    try (apply str_eqb_eq in Ec; subst cv);
    now rewrite ?List.app_nil_r.
Qed.

Lemma startswith_normalize (v : str) :
  startswith (Spec.normalize v) s_slash = true.
Proof.
  unfold Spec.normalize. destruct (startswith v s_slash) eqn:E; [assumption|].
  reflexivity.
Qed.

Lemma normalize_slash (v : str) :
  startswith v s_slash = true -> Spec.normalize v = v.
Proof. intros H. unfold Spec.normalize. now rewrite H. Qed.

Lemma normalize_bare (v : str) :
  startswith v s_slash = false -> Spec.normalize v = s_slash ++ v.
Proof. intros H. unfold Spec.normalize. now rewrite H. Qed.

(** A run that ends at rest, with fuel to spare. *)
Lemma run_to (n k : nat) (f g : t) :
  run n f = g -> pending g = [] -> (n <= k)%nat -> run k f = g.
Proof. intros <- H Hle. now apply run_more. Qed.

Lemma data_eqb_eq (a b : data_t) : data_eqb a b = true -> a = b.
Proof.
  assert (HZ : forall x y : option Z, opt_eqb Z.eqb x y = true -> x = y).
  { intros [x|] [y|]; cbn [opt_eqb]; try discriminate; [|reflexivity].
    intros H. apply Z.eqb_eq in H. now subst. }
  assert (HS : forall x y : option str, opt_eqb str_eqb x y = true -> x = y).
  { intros [x|] [y|]; cbn [opt_eqb]; try discriminate; [|reflexivity].
    intros H. apply str_eqb_eq in H. now subst. }
  destruct a as [i p ty n c t], b as [i' p' ty' n' c' t']. unfold data_eqb.
  cbn [index parent type name command text]. intros H.
  repeat (apply andb_true_iff in H as [H ?]).
  f_equal; auto.
Qed.

(** *** The loop keeps the address *)

Lemma set_input_value_data (id : input_id) (v : str) (f : t) :
  data (set_input_value id v f) = data f.
Proof.
  unfold set_input_value. destruct (str_eqb (input_value id f) v);
    [reflexivity|]. now destruct id.
Qed.

Lemma watch_data_data (d : data_t) (f : t) : data (watch_data d f) = data f.
Proof.
  unfold watch_data, set_text. cbn [data]. now rewrite !set_input_value_data.
Qed.

Lemma set_data_data (d : data_t) (f : t) :
  data (set_data d f) = d.
Proof.
  unfold set_data. destruct (data_eqb (data f) d) eqn:E.
  - now apply data_eqb_eq.
  - now rewrite watch_data_data.
Qed.

Lemma dispatch_address (f : t) :
  index (data (dispatch f)) = index (data f)
  /\ parent (data (dispatch f)) = parent (data f)
  /\ type (data (dispatch f)) = type (data f).
Proof.
  unfold dispatch. destruct (pending f) as [|m q]; [repeat split|].
  destruct m as [id|].
  - unfold on_input_changed. rewrite set_data_data.
    destruct id; cbn [with_input index parent type];
      rewrite ?set_input_value_data;
      try (destruct (negb _); rewrite ?set_input_value_data);
      repeat split.
  - unfold on_text_area_changed. rewrite set_data_data. repeat split.
Qed.

Lemma run_address (n : nat) (f : t) :
  index (data (run n f)) = index (data f)
  /\ parent (data (run n f)) = parent (data f)
  /\ type (data (run n f)) = type (data f).
Proof.
  revert f. induction n as [|n IH]; intros f; cbn [run]; [repeat split|].
  destruct (pending f) as [|m q] eqn:E; [repeat split|].
  destruct (IH (dispatch f)) as (H1 & H2 & H3).
  destruct (dispatch_address f) as (G1 & G2 & G3).
  rewrite H1, H2, H3. repeat split; assumption.
Qed.

End FormFacts.

(* ================================================================== *)
(** ** The form after an edit *)
(* ================================================================== *)

Module EditFacts.
Import Form FormFacts.

(** The text area reports until [data] holds what it shows: two reports
    at most. *)
Lemma text_settles (i p : option Z) (ty n c t : option str) (k : nat) :
  run (2 + k)
    (Make (Data i p ty n c t) (get_or_empty n) (get_or_empty c)
       (get_or_empty t) [TextAreaChanged])
  = showing (Data i p ty n c (Some (get_or_empty t))).
Proof.
  cbn [Nat.add]. rewrite run_cons.
  rewrite (text_reported i p ty n c t []).
  destruct t as [x|]; cbn [get_or_empty List.app].
  - apply run_nil.
  - rewrite run_cons. rewrite (text_report_idle i p ty n c (get_or_empty n)
                                 (get_or_empty c) [] []).
    apply run_nil.
Qed.

Lemma typed_name_run (i p : option Z) (ty n c t : option str) (v : str)
  (k : nat) :
  get_or_empty n <> v -> (3 <= k)%nat ->
  run k (type_name v (showing (Data i p ty n c t)))
  = showing (Data i p ty (Some v) c (Some (get_or_empty t))).
Proof.
  intros Hne Hk. apply str_eqb_neq in Hne.
  apply (run_to 3); [|reflexivity|assumption].
  unfold type_name, showing, set_input_value.
  cbn [input_value name_value command_value text_area data pending
       name command text List.app].
  rewrite Hne. rewrite run_cons, dispatch_input, changed_name.
  cbn [with_input index parent type name command text].
  rewrite set_data_other
    by (rewrite data_eqb_name; now apply opt_eqb_shown).
  rewrite (watch_data_command_same (Data i p ty (Some v) c t)).
  cbn [name command text get_or_empty List.app].
  apply (text_settles i p ty (Some v) c t 0).
Qed.

Lemma typed_text_run (i p : option Z) (ty n c t : option str) (v : str)
  (k : nat) :
  (2 <= k)%nat ->
  run k (type_text v (showing (Data i p ty n c t)))
  = showing (Data i p ty n c (Some v)).
Proof.
  intros Hk. apply (run_to 2); [|reflexivity|assumption].
  unfold type_text, showing, set_text.
  cbn [input_value name_value command_value text_area data pending
       name command text List.app].
  rewrite run_cons, dispatch_text, changed_text.
  destruct (data_eqb (Data i p ty n c t) (Data i p ty n c (Some v))) eqn:E.
  - apply data_eqb_eq in E. injection E as ->. rewrite set_data_same.
    apply run_nil.
  - rewrite set_data_other by assumption.
    rewrite (watch_data_command_same (Data i p ty n c (Some v))).
    cbn [name command text get_or_empty List.app].
    rewrite run_cons, text_report_idle. apply run_nil.
Qed.

Lemma typed_command_run (i p : option Z) (ty n c t : option str) (v : str)
  (k : nat) :
  get_or_empty c <> v -> (8 <= k)%nat ->
  run k (type_command v (showing (Data i p ty n c t)))
  = showing (Data i p ty n (Some (Spec.normalize v)) (Some (get_or_empty t))).
Proof.
  intros Hne Hk. apply str_eqb_neq in Hne.
  apply (run_to 8); [|reflexivity|assumption].
  unfold type_command, showing, set_input_value.
  cbn [input_value name_value command_value text_area data pending
       name command text List.app].
  rewrite Hne. rewrite run_cons, dispatch_input.
  destruct (startswith v s_slash) eqn:Hs.
  - rewrite (normalize_slash v Hs).
    rewrite changed_command_slash by assumption.
    cbn [with_input index parent type name command text].
    rewrite set_data_other
      by (rewrite data_eqb_command; now apply opt_eqb_shown).
    rewrite (watch_data_command_same (Data i p ty n (Some v) t)).
    cbn [name command text get_or_empty List.app].
    apply (text_settles i p ty n (Some v) t 5).
  - rewrite (normalize_bare v Hs).
    rewrite changed_command_bare by assumption.
    cbn [with_input index parent type name command text List.app].
    rewrite set_data_other
      by (rewrite data_eqb_command; now apply opt_eqb_shown).
    rewrite (watch_data_command_other (Data i p ty n (Some v) t))
      by apply str_eqb_cons_self.
    cbn [name command text get_or_empty List.app].
    (* the report of the slash that the handler put in *)
    rewrite run_cons, dispatch_input.
    rewrite changed_command_bare by assumption.
    cbn [with_input index parent type name command text List.app].
    rewrite set_data_same.
    (* the report of the bare trigger that [watch_data] put back *)
    rewrite run_cons, dispatch_input.
    rewrite changed_command_slash by reflexivity.
    cbn [with_input index parent type name command text List.app].
    rewrite set_data_other
      by (rewrite data_eqb_command; cbn [opt_eqb]; apply str_eqb_self_cons).
    rewrite (watch_data_command_same (Data i p ty n (Some (s_slash ++ v)) t)).
    cbn [name command text get_or_empty List.app].
    (* the first report of the text area *)
    rewrite run_cons.
    rewrite (text_reported i p ty n (Some (s_slash ++ v)) t).
    destruct t as [x|]; cbn [get_or_empty List.app].
    + rewrite run_cons, command_report_idle by reflexivity.
      rewrite run_cons, text_report_idle. apply run_nil.
    + rewrite run_cons, command_report_idle by reflexivity.
      rewrite run_cons, text_report_idle.
      rewrite run_cons, text_report_idle. apply run_nil.
Qed.

(** *** The form after [data] was assigned *)

(** The reports that [watch_data] leaves when the name field is done:
    that of the command field, if it changed, and that of the text area. *)
Lemma trigger_settles (i p : option Z) (ty : option str) (n c t : str)
  (changed : bool) (k : nat) :
  run (5 + k)
    (Make (Data i p ty (Some n) (Some c) (Some t)) n c t
       ((if changed then [InputChanged Command] else []) ++ [TextAreaChanged]))
  = showing
      (Data i p ty (Some n)
         (Some (if changed then Spec.normalize c else c)) (Some t)).
Proof.
  unfold showing. cbn [Nat.add name command text get_or_empty].
  destruct changed; cbn [List.app]; rewrite run_cons.
  - destruct (startswith c s_slash) eqn:Hs.
    + rewrite (normalize_slash c Hs).
      rewrite command_report_idle by assumption.
      rewrite run_cons, text_report_idle. apply run_nil.
    + rewrite (normalize_bare c Hs).
      rewrite dispatch_input, changed_command_bare by assumption.
      cbn [with_input index parent type name command text List.app].
      rewrite set_data_same.
      rewrite run_cons, text_report_idle.
      rewrite run_cons, dispatch_input, changed_command_slash by reflexivity.
      cbn [with_input index parent type name command text List.app].
      rewrite set_data_other
        by (rewrite data_eqb_command; cbn [opt_eqb]; apply str_eqb_self_cons).
      rewrite (watch_data_command_same
                 (Data i p ty (Some n) (Some (s_slash ++ c)) (Some t))).
      cbn [name command text get_or_empty List.app].
      rewrite run_cons, text_report_idle. apply run_nil.
  - rewrite text_report_idle. apply run_nil.
Qed.

(** The data of a node: a name, a trigger and a text.  The fields show
    them; a trigger without the slash, unless the command field showed it
    already, comes to [data] with the slash. *)
Lemma shown_run (d0 : data_t) (i p : option Z) (ty : option str)
  (n c t : str) (k : nat) :
  (6 <= k)%nat ->
  run k (set_data (Data i p ty (Some n) (Some c) (Some t)) (showing d0))
  = showing
      (Data i p ty (Some n)
         (Some (if str_eqb (get_or_empty (command d0)) c then c
                else Spec.normalize c)) (Some t)).
Proof.
  intros Hk. apply (run_to 6); [|reflexivity|assumption].
  destruct (data_eqb d0 (Data i p ty (Some n) (Some c) (Some t))) eqn:E.
  - apply data_eqb_eq in E. subst d0. unfold showing at 1.
    rewrite set_data_same.
    cbn [name command text get_or_empty]. rewrite str_eqb_refl. apply run_nil.
  - unfold showing at 1.
    rewrite set_data_other by assumption. rewrite watch_data_posts.
    cbn [name command text get_or_empty List.app].
    pose proof (trigger_settles i p ty n c t
                  (negb (str_eqb (get_or_empty (command d0)) c))) as H.
    destruct (str_eqb (get_or_empty (command d0)) c); cbn [negb] in H;
      destruct (str_eqb (get_or_empty (name d0)) n); cbn [List.app].
    + apply (H 1%nat).
    + rewrite run_cons, name_report_idle. apply (H 0%nat).
    + apply (H 1%nat).
    + rewrite run_cons, name_report_idle. apply (H 0%nat).
Qed.

(** The data that Add and Add Child assign, on a form that showed a name
    and a trigger: the two fields are emptied, and their reports put an
    empty name and the bare slash in [data]. *)
Lemma cleared_run (d0 : data_t) (p : option Z) (k : nat) :
  get_or_empty (name d0) <> [] -> get_or_empty (command d0) <> [] ->
  (10 <= k)%nat ->
  run k (set_data (Data None p None None None None) (showing d0))
  = showing (Data None p None (Some []) (Some s_slash) (Some [])).
Proof.
  intros Hn Hc Hk. apply str_eqb_neq in Hn, Hc.
  apply (run_to 10); [|reflexivity|assumption].
  unfold showing.
  rewrite set_data_other.
  2:{ destruct d0 as [i0 p0 ty0 [n0|] c0 t0]; cbn [name get_or_empty] in Hn.
      - unfold data_eqb. cbn [index parent type name command text opt_eqb].
        now rewrite !andb_false_r.
      - discriminate. }
  rewrite watch_data_posts. cbn [name command text get_or_empty List.app].
  rewrite Hn, Hc. cbn [List.app].
  (* the report of the name field *)
  rewrite run_cons, dispatch_input, changed_name.
  cbn [with_input index parent type name command text].
  rewrite set_data_other by (now rewrite data_eqb_name).
  rewrite (watch_data_command_same (Data None p None (Some []) None None)).
  cbn [name command text get_or_empty List.app].
  (* the report of the command field: the handler puts the slash in, the
     watcher takes it out *)
  rewrite run_cons, dispatch_input, changed_command_bare by reflexivity.
  cbn [with_input index parent type name command text List.app].
  rewrite set_data_other by (now rewrite data_eqb_command).
  rewrite (watch_data_command_other (Data None p None (Some []) (Some []) None))
    by reflexivity.
  cbn [name command text get_or_empty List.app].
  (* the two reports of the text area *)
  rewrite run_cons.
  rewrite (text_reported None p None (Some []) (Some []) None).
  cbn [get_or_empty List.app].
  rewrite run_cons, text_report_idle.
  (* the slash again, and its report *)
  rewrite run_cons, dispatch_input, changed_command_bare by reflexivity.
  cbn [with_input index parent type name command text List.app].
  rewrite set_data_same.
  rewrite run_cons, dispatch_input, changed_command_slash by reflexivity.
  cbn [with_input index parent type name command text List.app].
  rewrite set_data_other by (now rewrite data_eqb_command).
  rewrite (watch_data_command_same
             (Data None p None (Some []) (Some s_slash) (Some []))).
  cbn [name command text get_or_empty List.app].
  rewrite run_cons, text_report_idle.
  rewrite run_cons, text_report_idle.
  rewrite run_cons, command_report_idle by reflexivity.
  rewrite run_cons, text_report_idle.
  apply run_nil.
Qed.

End EditFacts.

(* ================================================================== *)
(** ** What the handlers leave alone *)
(* ================================================================== *)

Module HandlerFacts.
Import Py Json SeqFacts SaveFacts FrameFacts AutoTypeApp.
Local Open Scope py_scope.
Local Open Scope m_scope.

(** A handler that acts on the store alone, and on the collection rather
    than the file. *)
Definition store_only {A} (m : M A) : Prop :=
  forall s, fst (m s) = with_store s (st_store (fst (m s)))
            /\ file (st_store (fst (m s))) = file (st_store s).

Lemma with_store_id (s : state) : with_store s (st_store s) = s.
Proof. now destruct s. Qed.

Lemma with_store_twice (s : state) (x y : store) :
  with_store (with_store s x) y = with_store s y.
Proof. reflexivity. Qed.

Lemma store_only_lift {A} (r : result A) : store_only (lift r).
Proof. intros s. cbn [lift fst]. now rewrite with_store_id. Qed.

Lemma store_only_data_item (o : option str) : store_only (data_item o).
Proof. apply store_only_lift. Qed.

Lemma store_only_mutate (f : value -> result value) : store_only (mutate f).
Proof.
  intros s. unfold mutate. destruct (f (commands (st_store s))); cbn [fst].
  - split; reflexivity.
  - now rewrite with_store_id.
  - now rewrite with_store_id.
Qed.

Lemma store_only_bind {A B} (m : M A) (k : A -> M B) :
  store_only m -> (forall a, store_only (k a)) -> store_only (bind m k).
Proof.
  intros Hm Hk s. unfold bind. destruct (Hm s) as [H1 H2].
  destruct (m s) as [s1 [a| |]]; cbn [fst] in *; try (now split).
  destruct (Hk a s1) as [H3 H4]. split.
  - rewrite H3. rewrite H1 at 1. apply with_store_twice.
  - now rewrite H4.
Qed.

Lemma save_pressed_body (data : Form.data_t) :
  save_pressed data = (save_body data ;;; save).
Proof. reflexivity. Qed.

Lemma store_only_save_body (data : Form.data_t) : store_only (save_body data).
Proof.
  unfold save_body.
  destruct (Form.index data) as [i|]; destruct (Form.parent data) as [p|];
    repeat first
      [ apply store_only_bind; [|intros ?]
      | apply store_only_data_item
      | apply store_only_lift
      | apply store_only_mutate ].
Qed.

(** Nothing in the handler is outside the model. *)
Lemma at_int_modelled (v : value) (i : Z) (f : value -> result value) :
  (forall x, f x <> Unmodelled) -> at_int v i f <> Unmodelled.
Proof.
  intros Hf. destruct v as [| | |s|l|d]; cbn [at_int]; try discriminate.
  - unfold getitem_int. destruct (norm_index (length s) i) as [k|]; [|discriminate].
    destruct (nth_error s k) as [c|]; [|discriminate]. cbn [rbind].
    specialize (Hf (PyStr [c])). destruct (f (PyStr [c])); try discriminate.
    contradiction.
  - destruct (norm_index (length l) i) as [k|]; [|discriminate].
    destruct (nth_error l k) as [x|]; [|discriminate].
    specialize (Hf x). destruct (f x); try discriminate. contradiction.
Qed.

Lemma at_str_modelled (v : value) (key : str) (f : value -> result value) :
  (forall x, f x <> Unmodelled) -> at_str v key f <> Unmodelled.
Proof.
  intros Hf. destruct v as [| | | | |d]; cbn [at_str]; try discriminate.
  destruct (dict_get d key) as [x|]; [|discriminate].
  specialize (Hf x). destruct (f x); try discriminate. contradiction.
Qed.

Lemma setitem_str_modelled (key : str) (x v : value) :
  setitem_str key x v <> Unmodelled.
Proof. destruct v; discriminate. Qed.

Lemma append_modelled (x v : value) : append x v <> Unmodelled.
Proof. destruct v; discriminate. Qed.

(** *** Updates that repeat *)

Lemma update_fields_same (n c t : str) (d : list (str * value)) :
  dict_get d k_name = Some (PyStr n) -> dict_get d k_command = Some (PyStr c) ->
  dict_get d k_text = Some (PyStr t) -> Spec.update_fields n c t d = d.
Proof.
  intros Hn Hc Ht. unfold Spec.update_fields.
  now rewrite (dict_set_same d k_name _ Hn), (dict_set_same d k_command _ Hc),
    (dict_set_same d k_text _ Ht).
Qed.

Lemma update_fields_twice (n c t : str) (d : list (str * value)) :
  Spec.update_fields n c t (Spec.update_fields n c t d)
  = Spec.update_fields n c t d.
Proof.
  destruct (update_fields_get n c t d) as (Hn & Hc & Ht & _).
  now apply update_fields_same.
Qed.

Lemma top_updated_same (l : list value) (k : nat) (d : list (str * value))
  (n c t : str) :
  nth_error l k = Some (PyDict d) ->
  dict_get d k_name = Some (PyStr n) -> dict_get d k_command = Some (PyStr c) ->
  dict_get d k_text = Some (PyStr t) -> top_updated l k d n c t = PyList l.
Proof.
  intros Hd Hn Hc Ht. unfold top_updated.
  rewrite (update_fields_same n c t d Hn Hc Ht). now rewrite list_set_same.
Qed.

Lemma nested_updated_same (l kids : list value) (kp k : nat)
  (d dc : list (str * value)) (n c t : str) :
  nth_error l kp = Some (PyDict d) ->
  dict_get d k_children = Some (PyList kids) ->
  nth_error kids k = Some (PyDict dc) ->
  dict_get dc k_name = Some (PyStr n) -> dict_get dc k_command = Some (PyStr c) ->
  dict_get dc k_text = Some (PyStr t) ->
  nested_updated l kids kp k d dc n c t = PyList l.
Proof.
  intros Hd Hch Hdc Hn Hc Ht. unfold nested_updated.
  rewrite (update_fields_same n c t dc Hn Hc Ht).
  rewrite (list_set_same kids k _ Hdc), (dict_set_same d k_children _ Hch).
  now rewrite list_set_same.
Qed.

Lemma top_updated_twice (l : list value) (k : nat) (d : list (str * value))
  (n c t : str) :
  top_updated (list_set l k (PyDict (Spec.update_fields n c t d))) k
    (Spec.update_fields n c t d) n c t
  = top_updated l k d n c t.
Proof.
  unfold top_updated. now rewrite list_set_twice, update_fields_twice.
Qed.

Lemma nested_updated_twice (l kids : list value) (kp k : nat)
  (d dc : list (str * value)) (n c t : str) :
  nested_updated
    (list_set l kp
       (PyDict
          (dict_set d k_children
             (PyList (list_set kids k (PyDict (Spec.update_fields n c t dc)))))))
    (list_set kids k (PyDict (Spec.update_fields n c t dc))) kp k
    (dict_set d k_children
       (PyList (list_set kids k (PyDict (Spec.update_fields n c t dc)))))
    (Spec.update_fields n c t dc) n c t
  = nested_updated l kids kp k d dc n c t.
Proof.
  unfold nested_updated.
  now rewrite !list_set_twice, dict_set_twice, update_fields_twice.
Qed.

(** *** The update, in one statement *)

(** An update at an index pair that addresses a dict: the collection it
    leaves, what it changed in it, and that it changed nothing when the
    entry had the three values already. *)
Lemma save_updates (s : state) (data : Form.data_t) (l : list value) (i : Z)
  (n c t : str) (d : list (str * value)) :
  commands (st_store s) = PyList l ->
  Form.index data = Some i ->
  Form.name data = Some n -> Form.command data = Some c ->
  Form.text data = Some t ->
  Spec.entry_at (PyList l) (Form.parent data) i = Ok (PyDict d) ->
  exists l',
    save_pressed data s
    = (with_store s (save_store (Store (PyList l') (file (st_store s)))), Ok tt)
    /\ Spec.updated (Form.parent data) i n c t l l'
    /\ (dict_get d k_name = Some (PyStr n) ->
        dict_get d k_command = Some (PyStr c) ->
        dict_get d k_text = Some (PyStr t) -> l' = l).
Proof.
  intros Hl Hi Hn Hc Ht He.
  destruct (Form.parent data) as [p|] eqn:Hp.
  - apply entry_at_nested_inv
      in He as (kp & d0 & kids & k & Hkp & Hd0 & Hch & Hk & Hdc).
    rewrite (update_nested_ok s data l kids p i kp k d0 d n c t
               Hl Hkp Hd0 Hch Hk Hdc Hi Hp Hn Hc Ht).
    eexists. split; [reflexivity|]. split.
    + cbn [Spec.updated].
      exists kp, d0,
        (dict_set d0 k_children
           (PyList (list_set kids k (PyDict (Spec.update_fields n c t d))))),
        kids, (list_set kids k (PyDict (Spec.update_fields n c t d))).
      repeat split; try assumption.
      * apply list_set_length.
      * apply nth_error_list_set_same. now apply (norm_index_lt _ p).
      * intros j Hj. now apply nth_error_list_set_other.
      * apply dict_get_set_same.
      * intros key Hkey. now apply dict_get_set_other.
      * now apply updated_in_list_set.
    + intros Dn Dc Dt.
      pose proof (nested_updated_same l kids kp k d0 d n c t
                    Hd0 Hch Hdc Dn Dc Dt) as E.
      unfold nested_updated in E. now injection E.
  - apply entry_at_top_inv in He as (k & Hk & Hd).
    rewrite (update_top_ok s data l i k d n c t Hl Hk Hd Hi Hp Hn Hc Ht).
    eexists. split; [reflexivity|]. split.
    + cbn [Spec.updated]. now apply updated_in_list_set.
    + intros Dn Dc Dt.
      pose proof (top_updated_same l k d n c t Hd Dn Dc Dt) as E.
      unfold top_updated in E. now injection E.
Qed.

(** *** Events between two presses *)

Lemma settle_form (k : nat) (s : state) :
  form (settle k s) = Form.run k (form s).
Proof. reflexivity. Qed.

Lemma typing_form (edit : Form.t -> Form.t) (s : state) :
  form (typing edit s) = edit (form s).
Proof. reflexivity. Qed.

(** The form after the user typed a name, a trigger and a text, in this
    order, in a form that showed the name [n0] and the trigger [c0]. *)
Lemma filled_in (s : state) (i p : option Z) (ty n0 c0 t0 : option str)
  (n c t : str) (k : nat) :
  form s = Form.showing (Form.Data i p ty n0 c0 t0) ->
  Form.get_or_empty n0 <> n -> Form.get_or_empty c0 <> c -> (8 <= k)%nat ->
  form
    (settle k
       (typing (Form.type_text t)
          (settle k
             (typing (Form.type_command c)
                (settle k (typing (Form.type_name n) s))))))
  = Form.showing
      (Form.Data i p ty (Some n) (Some (Spec.normalize c)) (Some t)).
Proof.
  intros Hf Hn Hc Hk.
  rewrite settle_form, typing_form, settle_form, typing_form, settle_form,
    typing_form, Hf.
  rewrite (EditFacts.typed_name_run i p ty n0 c0 t0 n k Hn) by lia.
  rewrite (EditFacts.typed_command_run i p ty (Some n) c0 _ c k Hc) by lia.
  now rewrite EditFacts.typed_text_run by lia.
Qed.

End HandlerFacts.

(* ================================================================== *)
(** ** Registration on any collection *)
(* ================================================================== *)

Module RegisterFacts.
Import Py ListenFacts AutoTypeApp.
Local Open Scope m_scope.

(** A handler that hooks abbreviations and does nothing else. *)
Definition appends {A} (m : M A) : Prop :=
  forall s, exists l, fst (m s) = registering l s.

Lemma appends_lift {A} (r : result A) : appends (lift r).
Proof. intros s. exists []. cbn [lift fst]. now rewrite registering_nil. Qed.

Lemma appends_ret {A} (a : A) : appends (ret a).
Proof. intros s. exists []. cbn [ret fst]. now rewrite registering_nil. Qed.

Lemma appends_add_abbreviation (a b : value) : appends (add_abbreviation a b).
Proof.
  intros s. unfold add_abbreviation.
  destruct a as [| | |x| |]; try (exists []; cbn [fst]; now rewrite registering_nil).
  destruct b as [| | |y| |]; try (exists []; cbn [fst]; now rewrite registering_nil).
  now exists [(x, y)].
Qed.

Lemma appends_bind {A B} (m : M A) (k : A -> M B) :
  appends m -> (forall a, appends (k a)) -> appends (bind m k).
Proof.
  intros Hm Hk s. unfold bind. destruct (Hm s) as [l1 H1].
  destruct (m s) as [s1 [a| |]]; cbn [fst] in *; try (now exists l1).
  destruct (Hk a s1) as [l2 H2]. exists (l1 ++ l2).
  now rewrite H2, H1, registering_app.
Qed.

Lemma appends_for_each (items : list value) (body : value -> M unit) :
  (forall x, appends (body x)) -> appends (for_each items body).
Proof.
  intros Hb. induction items as [|x items IH]; cbn [for_each].
  - apply appends_ret.
  - apply appends_bind; [apply Hb|intros _; apply IH].
Qed.

Lemma appends_register_child (command child : value) :
  appends (register_child command child).
Proof.
  unfold register_child.
  repeat first [ apply appends_bind; [|intros ?]
               | apply appends_lift
               | apply appends_add_abbreviation ].
Qed.

Lemma appends_register_entry (command : value) :
  appends (register_entry command).
Proof.
  unfold register_entry.
  apply appends_bind; [apply appends_lift|intros c].
  apply appends_bind; [apply appends_lift|intros t].
  apply appends_bind; [apply appends_add_abbreviation|intros _].
  apply appends_bind; [apply appends_lift|intros ty].
  destruct (eq_str ty s_parent); [|apply appends_ret].
  apply appends_bind; [apply appends_lift|intros ch].
  apply appends_bind; [apply appends_lift|intros kids].
  apply appends_for_each. intros x. apply appends_register_child.
Qed.

Lemma appends_listen_keys : appends listen_keys.
Proof.
  intros s. unfold listen_keys.
  apply (appends_bind (lift (iter (commands (st_store s))))
           (fun items => for_each items register_entry)).
  - apply appends_lift.
  - intros items. apply appends_for_each. apply appends_register_entry.
Qed.

(** An entry with a trigger and a text but no [type]: its own pair is
    hooked before the missing key is met. *)
Lemma register_entry_untyped (d : list (str * value)) (c t : str) (s : state) :
  dict_get d k_command = Some (PyStr c) -> dict_get d k_text = Some (PyStr t) ->
  dict_get d k_type = None ->
  register_entry (PyDict d) s = (registering [(c, t)] s, Raise KeyError).
Proof.
  intros Hc Ht Hty. unfold register_entry, bind, lift, getitem_str.
  rewrite Hc, Ht. cbn [add_abbreviation]. now rewrite Hty.
Qed.

End RegisterFacts.

(* ================================================================== *)
(** ** The tree and the collection *)
(* ================================================================== *)

Module TreeFacts.
Import Py SeqFacts CommandList.
Local Open Scope py_scope.

Lemma rbind_inv {A B} (r : result A) (k : A -> result B) (b : B) :
  rbind r k = Ok b -> exists a, r = Ok a /\ k a = Ok b.
Proof. destruct r as [a| |]; cbn [rbind]; try discriminate. now exists a. Qed.

Lemma label_of_inv (v : value) (l : str) : label_of v = Ok l -> v = PyStr l.
Proof.
  destruct v as [| | |s| |]; cbn [label_of]; try discriminate.
  destruct (existsb (N.eqb LBRACKET) s); [discriminate|]. now intros [= ->].
Qed.

(** What the items of a successful iteration are, when one of them is a
    dict: the elements of a list. *)
Lemma iter_with_dict (v : value) (items : list value) (k : nat)
  (d : list (str * value)) :
  iter v = Ok items -> nth_error items k = Some (PyDict d) -> v = PyList items.
Proof.
  destruct v as [| | |s|l|d0]; cbn [iter]; try discriminate; intros [= <-].
  - intros H. apply nth_error_In in H. apply in_map_iff in H as (c & Hc & _).
    discriminate.
  - reflexivity.
  - intros H. apply nth_error_In in H. apply in_map_iff in H as (c & Hc & _).
    discriminate.
Qed.

Lemma getitem_str_inv (v x : value) (key : str) :
  getitem_str v key = Ok x -> exists d, v = PyDict d /\ dict_get d key = Some x.
Proof.
  destruct v as [| | | | |d]; cbn [getitem_str]; try discriminate.
  destruct (dict_get d key) as [y|] eqn:E; [|discriminate].
  intros [= <-]. now exists d.
Qed.

Lemma getitem_int_nth (l : list value) (k : nat) (x : value) :
  nth_error l k = Some x -> getitem_int (PyList l) (Z.of_nat k) = Ok x.
Proof.
  intros H. unfold getitem_int.
  rewrite norm_index_of_nat by (apply nth_error_Some; congruence).
  now rewrite H.
Qed.

(** The leaves of a branch, one per child and in the order of the
    children. *)
Lemma compose_children_nth (up : nat) (children : list value) :
  forall (i : nat) (leaves : list (str * node_data)),
  compose_children up i children = Ok leaves ->
  length leaves = length children
  /\ forall j lab nd,
       nth_error leaves j = Some (lab, nd) ->
       exists child,
         nth_error children j = Some child
         /\ nd_index nd = (i + j)%nat /\ nd_parent nd = Some up
         /\ nd_type nd = s_child
         /\ getitem_str child k_name = Ok (nd_name nd)
         /\ getitem_str child k_command = Ok (nd_command nd)
         /\ getitem_str child k_text = Ok (nd_text nd)
         /\ nd_name nd = PyStr lab.
Proof.
  induction children as [|child rest IH]; intros i leaves; cbn [compose_children].
  - intros [= <-]. split; [reflexivity|]. intros [|j] lab nd; discriminate.
  - intros H.
    apply rbind_inv in H as (label & Hlab & H).
    apply rbind_inv in H as (n & Hn & H).
    apply rbind_inv in H as (c & Hc & H).
    apply rbind_inv in H as (t & Ht & H).
    apply rbind_inv in H as (l & Hl & H).
    apply rbind_inv in H as (ls & Hls & H).
    injection H as <-. apply IH in Hls as [Hlen Hnth].
    split; [cbn [length]; now rewrite Hlen|].
    intros [|j] lab nd; cbn [nth_error].
    + intros [= <- <-]. exists child. cbn [nd_index nd_parent nd_type nd_name
                                           nd_command nd_text].
      rewrite Nat.add_0_r. repeat split; try assumption.
      apply label_of_inv in Hl. congruence.
    + intros H. apply Hnth in H as (ch & H1 & H2 & H3).
      exists ch. split; [assumption|]. split; [lia|assumption].
Qed.

(** A node, from the entry it was composed from. *)
Lemma compose_entry_inv (index : nat) (command : value) (nd : node) :
  compose_entry index command = Ok nd ->
  exists d ty,
    command = PyDict d /\ dict_get d k_type = Some ty
    /\ nd_index (data_of nd) = index /\ nd_parent (data_of nd) = None
    /\ dict_get d k_name = Some (nd_name (data_of nd))
    /\ dict_get d k_command = Some (nd_command (data_of nd))
    /\ dict_get d k_text = Some (nd_text (data_of nd))
    /\ (if eq_str ty s_parent
        then nd_type (data_of nd) = s_parent
             /\ exists label children items,
                  nd = Branch label (data_of nd) (leaves_of nd)
                  /\ dict_get d k_children = Some children
                  /\ iter children = Ok items
                  /\ compose_children index 0 items = Ok (leaves_of nd)
        else nd_type (data_of nd) = s_child
             /\ exists label, nd = Leaf label (data_of nd)).
Proof.
  unfold compose_entry. intros H.
  apply rbind_inv in H as (ty & Hty & H).
  apply getitem_str_inv in Hty as (d & -> & Hty).
  exists d, ty. split; [reflexivity|]. split; [assumption|].
  destruct (eq_str ty s_parent).
  - apply rbind_inv in H as (label & Hlab & H).
    apply rbind_inv in H as (n & Hn & H).
    apply rbind_inv in H as (c & Hc & H).
    apply rbind_inv in H as (t & Ht & H).
    apply rbind_inv in H as (l & Hl & H).
    apply rbind_inv in H as (children & Hch & H).
    apply rbind_inv in H as (items & Hit & H).
    apply rbind_inv in H as (leaves & Hls & H).
    injection H as <-. cbn [data_of leaves_of nd_index nd_parent nd_type nd_name
                            nd_command nd_text].
    cbn [getitem_str] in Hn, Hc, Ht, Hch.
    destruct (dict_get d k_name); [|discriminate].
    destruct (dict_get d k_command); [|discriminate].
    destruct (dict_get d k_text); [|discriminate].
    destruct (dict_get d k_children); [|discriminate].
    injection Hn as ->. injection Hc as ->. injection Ht as ->.
    injection Hch as ->.
    repeat split. now exists l, children, items.
  - apply rbind_inv in H as (label & Hlab & H).
    apply rbind_inv in H as (n & Hn & H).
    apply rbind_inv in H as (c & Hc & H).
    apply rbind_inv in H as (t & Ht & H).
    apply rbind_inv in H as (l & Hl & H).
    injection H as <-. cbn [data_of leaves_of nd_index nd_parent nd_type nd_name
                            nd_command nd_text].
    cbn [getitem_str] in Hn, Hc, Ht.
    destruct (dict_get d k_name); [|discriminate].
    destruct (dict_get d k_command); [|discriminate].
    destruct (dict_get d k_text); [|discriminate].
    injection Hn as ->. injection Hc as ->. injection Ht as ->.
    repeat split. now exists l.
Qed.

(** The nodes under the root, one per entry and in the order of the
    entries. *)
Lemma compose_from_nth (items : list value) :
  forall (i : nat) (nodes : list node),
  compose_from i items = Ok nodes ->
  length nodes = length items
  /\ forall k nd,
       nth_error nodes k = Some nd ->
       exists command,
         nth_error items k = Some command
         /\ compose_entry (i + k) command = Ok nd.
Proof.
  induction items as [|command rest IH]; intros i nodes; cbn [compose_from].
  - intros [= <-]. split; [reflexivity|]. intros [|k] nd; discriminate.
  - intros H.
    apply rbind_inv in H as (nd0 & Hnd & H).
    apply rbind_inv in H as (nds & Hnds & H).
    injection H as <-. apply IH in Hnds as [Hlen Hnth].
    split; [cbn [length]; now rewrite Hlen|].
    intros [|k] nd; cbn [nth_error].
    + intros [= <-]. exists command. now rewrite Nat.add_0_r.
    + intros H. apply Hnth in H as (cmd & H1 & H2).
      exists cmd. split; [assumption|].
      now replace (i + S k)%nat with (S i + k)%nat by lia.
Qed.

(** An entry without one of the four keys that [compose] reads. *)
Lemma compose_entry_missing (index : nat) (d : list (str * value)) :
  dict_get d k_type = None \/ dict_get d k_name = None
  \/ dict_get d k_command = None \/ dict_get d k_text = None ->
  compose_entry index (PyDict d) = Raise KeyError.
Proof.
  intros H. unfold compose_entry. cbn [getitem_str].
  destruct (dict_get d k_type) as [ty|]; [|reflexivity]. cbn [rbind].
  destruct (dict_get d k_name) as [n|];
    [|now destruct (eq_str ty s_parent)].
  destruct (dict_get d k_command) as [c|];
    [|now destruct (eq_str ty s_parent)].
  destruct (dict_get d k_text) as [t|];
    [|now destruct (eq_str ty s_parent)].
  destruct H as [H|[H|[H|H]]]; discriminate.
Qed.

End TreeFacts.

(* ================================================================== *)
(** ** The class body and what stands in its way *)
(* ================================================================== *)

Module BodyFacts.
Import Json CommandList.






(** [load] is the class body where the file can be written and the text
    is within the nesting that the decoder reaches. *)
Lemma class_body_load (E : env) (f : option text) :
  can_write E = true ->
  (forall t, f = Some t -> (nesting t <= max_nesting E)%nat) ->
  class_body E f = load f.
Proof.
  intros Hw Hn. unfold class_body, load, json_load_open, fallback. rewrite Hw.
  destruct f as [t|]; [|reflexivity].
  specialize (Hn t eq_refl).
  destruct (loads t) as [v|e|]; try reflexivity.
  destruct (Nat.ltb_spec (max_nesting E) (nesting t)); [lia|reflexivity].
Qed.

End BodyFacts.

(* ================================================================== *)
(** ** The form when it is mounted and when it is emptied *)
(* ================================================================== *)

Module MountFacts.
Import Form FormFacts EditFacts.

Lemma mounted_showing :
  mounted = showing (Data None None None None None (Some [])).
Proof. reflexivity. Qed.

(** The reports that [watch_data] leaves when Add or Add Child emptied
    the fields: one for each field that showed something, and that of the
    text area.  An emptied name comes to [data] as the empty string, an
    emptied trigger as the bare slash. *)
Lemma emptied_settles (p : option Z) (name_shown command_shown : bool)
  (k : nat) :
  run (10 + k)
    (Make (Data None p None None None None) [] [] []
       ((([] ++ (if name_shown then [InputChanged Name] else []))
         ++ (if command_shown then [InputChanged Command] else []))
        ++ [TextAreaChanged]))
  = showing
      (Data None p None (if name_shown then Some [] else None)
         (if command_shown then Some s_slash else None) (Some [])).
Proof.
  destruct name_shown, command_shown; cbn [List.app].
  - (* both fields showed something *)
    cbn [Nat.add].
    rewrite run_cons, dispatch_input, changed_name.
    cbn [with_input index parent type name command text].
    rewrite set_data_other by (now rewrite data_eqb_name).
    rewrite (watch_data_command_same (Data None p None (Some []) None None)).
    cbn [name command text get_or_empty List.app].
    rewrite run_cons, dispatch_input, changed_command_bare by reflexivity.
    cbn [with_input index parent type name command text List.app].
    rewrite set_data_other by (now rewrite data_eqb_command).
    rewrite (watch_data_command_other
               (Data None p None (Some []) (Some []) None)) by reflexivity.
    cbn [name command text get_or_empty List.app].
    rewrite run_cons.
    rewrite (text_reported None p None (Some []) (Some []) None).
    cbn [get_or_empty List.app].
    rewrite run_cons, text_report_idle.
    rewrite run_cons, dispatch_input, changed_command_bare by reflexivity.
    cbn [with_input index parent type name command text List.app].
    rewrite set_data_same.
    rewrite run_cons, dispatch_input, changed_command_slash by reflexivity.
    cbn [with_input index parent type name command text List.app].
    rewrite set_data_other by (now rewrite data_eqb_command).
    rewrite (watch_data_command_same
               (Data None p None (Some []) (Some s_slash) (Some []))).
    cbn [name command text get_or_empty List.app].
    rewrite run_cons, text_report_idle.
    rewrite run_cons, text_report_idle.
    rewrite run_cons, command_report_idle by reflexivity.
    rewrite run_cons, text_report_idle.
    apply run_nil.
  - (* the name field alone *)
    cbn [Nat.add].
    rewrite run_cons, dispatch_input, changed_name.
    cbn [with_input index parent type name command text].
    rewrite set_data_other by (now rewrite data_eqb_name).
    rewrite (watch_data_command_same (Data None p None (Some []) None None)).
    cbn [name command text get_or_empty List.app].
    rewrite run_cons.
    rewrite (text_reported None p None (Some []) None None).
    cbn [get_or_empty List.app].
    rewrite run_cons, text_report_idle.
    rewrite run_cons, text_report_idle.
    apply run_nil.
  - (* the command field alone *)
    cbn [Nat.add].
    rewrite run_cons, dispatch_input, changed_command_bare by reflexivity.
    cbn [with_input index parent type name command text List.app].
    rewrite set_data_other by (now rewrite data_eqb_command).
    rewrite (watch_data_command_other (Data None p None None (Some []) None))
      by reflexivity.
    cbn [name command text get_or_empty List.app].
    rewrite run_cons.
    rewrite (text_reported None p None None (Some []) None).
    cbn [get_or_empty List.app].
    rewrite run_cons, dispatch_input, changed_command_bare by reflexivity.
    cbn [with_input index parent type name command text List.app].
    rewrite set_data_same.
    rewrite run_cons, dispatch_input, changed_command_slash by reflexivity.
    cbn [with_input index parent type name command text List.app].
    rewrite set_data_other by (now rewrite data_eqb_command).
    rewrite (watch_data_command_same
               (Data None p None None (Some s_slash) (Some []))).
    cbn [name command text get_or_empty List.app].
    rewrite run_cons, text_report_idle.
    rewrite run_cons, text_report_idle.
    rewrite run_cons, command_report_idle by reflexivity.
    rewrite run_cons, text_report_idle.
    apply run_nil.
  - (* neither *)
    apply (text_settles None p None None None None (8 + k)).
Qed.

(** The form after Add or Add Child, whatever it showed: at rest, the
    name empty, the command field empty or showing the slash alone. *)
Lemma emptied_run (d0 : data_t) (p : option Z) (k : nat) :
  (10 <= k)%nat ->
  exists n' c' t',
    run k (set_data (Data None p None None None None) (showing d0))
    = showing (Data None p None n' c' t')
    /\ get_or_empty n' = []
    /\ (get_or_empty c' = [] \/ get_or_empty c' = s_slash).
Proof.
  intros Hk.
  destruct (data_eqb d0 (Data None p None None None None)) eqn:E.
  - apply data_eqb_eq in E. subst d0. exists None, None, None.
    unfold showing at 1. rewrite set_data_same. split; [|now split; [|left]].
    apply run_nil.
  - exists (if str_eqb (get_or_empty (name d0)) [] then None else Some []),
      (if str_eqb (get_or_empty (command d0)) [] then None else Some s_slash),
      (Some []).
    split.
    + apply (run_to 10); [|reflexivity|assumption].
      unfold showing at 1. rewrite set_data_other by assumption.
      rewrite watch_data_posts. cbn [name command text get_or_empty].
      pose proof (emptied_settles p
                    (negb (str_eqb (get_or_empty (name d0)) []))
                    (negb (str_eqb (get_or_empty (command d0)) [])) 0) as H.
      destruct (str_eqb (get_or_empty (name d0)) []);
        destruct (str_eqb (get_or_empty (command d0)) []);
        cbn [negb] in H; exact H.
    + split.
      * now destruct (str_eqb (get_or_empty (name d0)) []).
      * destruct (str_eqb (get_or_empty (command d0)) []); [now left|now right].
Qed.

End MountFacts.

(* ================================================================== *)
(** ** The trigger that a save stores *)
(* ================================================================== *)

Module TriggerFacts.
Import Py Json SeqFacts SaveFacts FrameFacts HandlerFacts AutoTypeApp.
Local Open Scope py_scope.
Local Open Scope m_scope.

(** A save that returns had the three fields to read. *)
Lemma save_pressed_fields (data : Form.data_t) (s s' : state) :
  save_pressed data s = (s', Ok tt) ->
  exists n c t,
    Form.name data = Some n /\ Form.command data = Some c
    /\ Form.text data = Some t.
Proof.
  destruct data as [i p ty [n|] [c|] [t|]];
    try (intros _; now exists n, c, t).
  all: unfold save_pressed, save_body;
    cbn [Form.index Form.parent Form.name Form.command Form.text];
    destruct i as [i|]; destruct p as [p|];
    unfold bind, data_item, lift;
    repeat match goal with
           | |- context [match ?m ?x with _ => _ end] =>
               match m with
               | set_top _ _ _ => destruct (m x) as [? [[]| |]]
               | set_nested _ _ _ _ => destruct (m x) as [? [[]| |]]
               end
           end;
    intros H; discriminate H.
Qed.

Lemma new_entry_command (n c t ty : str) :
  getitem_str (Spec.new_entry n c t ty) k_command = Ok (PyStr c).
Proof. reflexivity. Qed.

Lemma updated_command (n c t : str) (d : list (str * value)) :
  getitem_str (PyDict (Spec.update_fields n c t d)) k_command = Ok (PyStr c).
Proof.
  destruct (update_fields_get n c t d) as (_ & H & _).
  unfold getitem_str. now rewrite H.
Qed.

(** The handler stores the command of the form data as it is, at the
    entry that the index pair addresses, or in the entry it appends. *)
Lemma save_stores_trigger (data : Form.data_t) (s s' : state) (c : str) :
  Form.command data = Some c ->
  save_pressed data s = (s', Ok tt) ->
  Spec.stored_trigger (commands (st_store s')) (Form.parent data)
    (Form.index data) = Ok (PyStr c).
Proof.
  intros Hc H.
  destruct (save_pressed_fields data s s' H) as (n & c0 & t & Hn & Hc0 & Ht).
  rewrite Hc in Hc0. injection Hc0 as <-. revert H.
  unfold Spec.stored_trigger.
  destruct (Form.index data) as [i|] eqn:Hi;
    destruct (Form.parent data) as [p|] eqn:Hp.
  - destruct (at_int (commands (st_store s)) p (fun entry =>
                at_str entry k_children (fun children =>
                  at_int children i (setitem_str k_name (PyStr n)))))
      as [v|e|] eqn:E.
    + apply at_int_inv in E as (l & kp & x & x' & Hl & Hkp & Hx & E & _);
        [|intros; apply at_str_not_str].
      apply at_str_inv in E as (d & ch & ch' & -> & Hch & E & _).
      apply at_int_inv in E as (kids & k & y & y' & -> & Hk & Hy & E & _);
        [|intros; apply setitem_str_not_str].
      apply setitem_str_inv in E as (dc & -> & _).
      rewrite (update_nested_ok s data l kids p i kp k d dc n c t
                 Hl Hkp Hx Hch Hk Hy Hi Hp Hn Hc Ht).
      intros [= <-].
      cbn [with_store st_store save_store commands Spec.entry_at].
      unfold nested_updated.
      rewrite (getitem_int_list_set l p kp _ Hkp). cbn [rbind].
      rewrite getitem_str_dict_set. cbn [rbind].
      rewrite (getitem_int_list_set kids i k _ Hk). cbn [rbind].
      apply updated_command.
    + rewrite (update_nested_raises s data p i n e Hi Hp Hn E). discriminate.
    + exfalso. revert E. apply at_int_modelled. intros.
      apply at_str_modelled. intros. apply at_int_modelled. intros.
      apply setitem_str_modelled.
  - destruct (at_int (commands (st_store s)) i (setitem_str k_name (PyStr n)))
      as [v|e|] eqn:E.
    + apply at_int_inv in E as (l & k & x & x' & Hl & Hk & Hx & E & _);
        [|intros; apply setitem_str_not_str].
      apply setitem_str_inv in E as (d & -> & _).
      rewrite (update_top_ok s data l i k d n c t Hl Hk Hx Hi Hp Hn Hc Ht).
      intros [= <-].
      cbn [with_store st_store save_store commands Spec.entry_at].
      unfold top_updated.
      rewrite (getitem_int_list_set l i k _ Hk). cbn [rbind].
      apply updated_command.
    + rewrite (update_top_raises s data i n e Hi Hp Hn E). discriminate.
    + exfalso. revert E. apply at_int_modelled. intros.
      apply setitem_str_modelled.
  - destruct (at_int (commands (st_store s)) p (fun entry =>
                at_str entry k_children
                  (append (Spec.new_entry n c t s_child)))) as [v|e|] eqn:E.
    + apply at_int_inv in E as (l & kp & x & x' & Hl & Hkp & Hx & E & _);
        [|intros; apply at_str_not_str].
      apply at_str_inv in E as (d & ch & ch' & -> & Hch & E & _).
      apply append_inv in E as (kids & -> & _).
      rewrite (add_child_ok s data l kids p kp d n c t
                 Hl Hkp Hx Hch Hi Hp Hn Hc Ht).
      intros [= <-].
      cbn [with_store st_store save_store commands Spec.entry_at].
      unfold child_added.
      rewrite (getitem_int_list_set l p kp _ Hkp). cbn [rbind].
      rewrite getitem_str_dict_set. cbn [rbind].
      rewrite getitem_int_last. cbn [rbind].
      apply new_entry_command.
    + rewrite (add_child_raises s data p n c t e Hi Hp Hn Hc Ht E).
      discriminate.
    + exfalso. revert E. apply at_int_modelled. intros.
      apply at_str_modelled. intros. apply append_modelled.
  - destruct (commands (st_store s)) as [| | | |l|d] eqn:E.
    5:{ rewrite (add_top_ok s data l n c t E Hi Hp Hn Hc Ht).
        intros [= <-].
        cbn [with_store st_store save_store commands Spec.entry_at].
        rewrite getitem_int_last. cbn [rbind]. apply new_entry_command. }
    all: unfold save_pressed, save_body; rewrite Hi, Hp, Hn, Hc, Ht;
      rewrite bind_raise with (s1 := s) (e := AttributeError);
      [discriminate|];
      rewrite (bind_ok _ _ _ _ _ (data_item_some n s));
      rewrite (bind_ok _ _ _ _ _ (data_item_some c s));
      rewrite (bind_ok _ _ _ _ _ (data_item_some t s));
      apply mutate_raise; now rewrite E.
Qed.

End TriggerFacts.

(* ================================================================== *)
(** ** The assignments of a save, all or none *)
(* ================================================================== *)

Module AtomicFacts.
Import Py Json SeqFacts SaveFacts FrameFacts HandlerFacts AutoTypeApp.
Local Open Scope py_scope.
Local Open Scope m_scope.



End AtomicFacts.

(* ================================================================== *)
(** * The properties of the specification *)
(* ================================================================== *)

(** ** Loading and saving the store *)

Section Store.

Import Json CommandList.





(** C9: whatever the file holds, once the loaded collection has been
    saved, loading that file and saving again writes the same text. *)
Theorem save_load_idempotent (f : option text) (st1 : store) :
  load f = Ok st1 ->
  exists st2,
    load (file (save_store st1)) = Ok st2
    /\ file (save_store st2) = file (save_store st1).
Proof.
  intros H. exists (save_store st1). split.
  - apply LoadFacts.load_after_save. now apply (LoadFacts.load_wf f).
  - reflexivity.
Qed.

Lemma save_load_idempotent_witness :
  exists st2,
    load (Some (Json.dumps (PyList [PyInt 1; PyInt 2]))) = Ok st2
    /\ file (save_store st2) = Some (Json.dumps (PyList [PyInt 1; PyInt 2])).
Proof.
  apply (save_load_idempotent (Some (u "[1,2]"))
           (Store (PyList [PyInt 1; PyInt 2]) (Some (u "[1,2]")))).
  vm_compute. reflexivity.
Defined.

End Store.

(** ** Registering the abbreviations *)

Section Registration.

Import Py CommandList AutoTypeApp.
Local Open Scope py_scope.
Local Open Scope m_scope.

(** C2: on a collection of entries with string triggers and texts,
    [listen_keys] registers, in collection order, each entry's own pair and
    after it, for an entry of type ["parent"], one pair per child under the
    trigger of the parent followed by that of the child: the pairs of
    [Spec.compile]. *)
Theorem listen_keys_registers_compiled_table (s : state) (vs : list value)
  (es : list Spec.Entry) :
  commands (st_store s) = PyList vs ->
  Spec.view_list Spec.view_entry vs = Some es ->
  listen_keys s = (registering (Spec.compile es) s, Ok tt).
Proof. apply ListenFacts.listen_keys_ok. Qed.

(** The parent [/p] with text [P] and one child [/c] with text [C]. *)
Lemma listen_keys_registers_compiled_table_witness :
  abbreviations
    (fst (listen_keys
            (Sample.holding
               (PyList [Sample.entry "p" "/p" "P" "parent"
                          [Sample.child3 "c" "/c" "C"]]))))
  = [(u "/p", u "P"); (u "/p/c", u "C")].
Proof.
  rewrite (listen_keys_registers_compiled_table
             (Sample.holding
                (PyList [Sample.entry "p" "/p" "P" "parent"
                           [Sample.child3 "c" "/c" "C"]]))
             [Sample.entry "p" "/p" "P" "parent" [Sample.child3 "c" "/c" "C"]]
             [Spec.MkEntry (u "/p") (u "P") Spec.Parent
                [Spec.MkLeaf (u "/c") (u "C")]]
             eq_refl eq_refl).
  reflexivity.
Defined.

(** C6, as the code has it: nothing is replaced.  Two pairs that
    [Spec.compile] emits under the same trigger are both registered, the
    earlier before the later, after whatever was registered before. *)
Theorem identical_triggers_both_registered (s : state) (vs : list value)
  (es : list Spec.Entry) (i j : nat) (t x1 x2 : str) :
  commands (st_store s) = PyList vs ->
  Spec.view_list Spec.view_entry vs = Some es ->
  nth_error (Spec.compile es) i = Some (t, x1) ->
  nth_error (Spec.compile es) j = Some (t, x2) ->
  (i < j)%nat ->
  exists l1 l2 l3,
    abbreviations (fst (listen_keys s))
    = abbreviations s ++ l1 ++ (t, x1) :: l2 ++ (t, x2) :: l3.
Proof.
  intros Hc Hv Hi Hj Hlt.
  rewrite (ListenFacts.listen_keys_ok vs es s Hc Hv). cbn [fst registering abbreviations].
  destruct (nth_error_split _ _ Hi) as (l1 & r & E & Hl1).
  rewrite E in Hj. rewrite nth_error_app2 in Hj by lia.
  destruct (j - length l1)%nat as [|k] eqn:Ek; [lia|]. cbn [nth_error] in Hj.
  destruct (nth_error_split _ _ Hj) as (l2 & l3 & E2 & _).
  exists l1, l2, l3. now rewrite E, E2.
Qed.

Lemma identical_triggers_both_registered_witness :
  exists l1 l2 l3,
    abbreviations
      (fst (listen_keys
              (Sample.holding
                 (PyList [Sample.leaf "one" "/a" "one";
                          Sample.leaf "two" "/a" "two"]))))
    = [] ++ l1 ++ (u "/a", u "one") :: l2 ++ (u "/a", u "two") :: l3.
Proof.
  apply (identical_triggers_both_registered
           (Sample.holding
              (PyList [Sample.leaf "one" "/a" "one"; Sample.leaf "two" "/a" "two"]))
           [Sample.leaf "one" "/a" "one"; Sample.leaf "two" "/a" "two"]
           [Spec.MkEntry (u "/a") (u "one") Spec.Child [];
            Spec.MkEntry (u "/a") (u "two") Spec.Child []]
           0 1 (u "/a") (u "one") (u "two") eq_refl eq_refl eq_refl eq_refl).
  lia.
Defined.

(** Against C6: two top-level entries with the trigger [/a].  The
    bindings of [/a] after [listen_keys] are both pairs, not the later one
    alone. *)
Lemma identical_triggers_not_last_wins :
  Spec.bindings (u "/a")
    (abbreviations
       (fst (listen_keys
               (Sample.holding
                  (PyList [Sample.leaf "one" "/a" "one";
                           Sample.leaf "two" "/a" "two"])))))
  = [(u "/a", u "one"); (u "/a", u "two")]
  /\ Spec.bindings (u "/a")
       (abbreviations
          (fst (listen_keys
                  (Sample.holding
                     (PyList [Sample.leaf "one" "/a" "one";
                              Sample.leaf "two" "/a" "two"])))))
     <> [(u "/a", u "two")].
Proof. vm_compute. split; [reflexivity|discriminate]. Qed.

(** C10: an entry whose [type] is not ["parent"] (a top-level ["child"]
    in particular), anywhere in the collection and with or without a
    [children] field.  [listen_keys] registers its own pair and goes on
    with the entries after it; [compose] shows it as a leaf.  Neither
    reads [children]: no assumption is made on it. *)
Theorem top_level_leaf_needs_no_children (s : state)
  (before after : list value) (d : list (str * value)) (n c t : str)
  (ty : value) :
  commands (st_store s) = PyList (before ++ PyDict d :: after) ->
  dict_get d k_name = Some (PyStr n) ->
  existsb (N.eqb CommandList.LBRACKET) n = false ->
  dict_get d k_command = Some (PyStr c) ->
  dict_get d k_text = Some (PyStr t) ->
  dict_get d k_type = Some ty -> eq_str ty s_parent = false ->
  listen_keys s
  = (for_each before register_entry ;;;
     add_abbreviation (PyStr c) (PyStr t) ;;;
     for_each after register_entry) s
  /\ compose (commands (st_store s))
     = (nds1 <- compose_from 0 before ;;
        nds2 <- compose_from (S (length before)) after ;;
        Ok (nds1
            ++ Leaf n (NodeData (length before) None s_child
                         (PyStr n) (PyStr c) (PyStr t))
            :: nds2)).
Proof.
  intros Hs Hn Hl Hc Ht Hty Hp. split.
  - unfold listen_keys. rewrite Hs. unfold bind at 1, lift. cbn [iter].
    rewrite ListenFacts.for_each_app. unfold bind.
    destruct (for_each before register_entry s) as [s1 [[]| |]]; try reflexivity.
    rewrite ListenFacts.for_each_cons.
    now rewrite (ComposeFacts.register_entry_leaf d c t ty s1 Hc Ht Hty Hp).
  - rewrite Hs. unfold compose. cbn [iter rbind].
    rewrite ComposeFacts.compose_from_app. cbn [compose_from].
    rewrite (ComposeFacts.compose_entry_leaf _ d n c t ty Hn Hl Hc Ht Hty Hp).
    cbn [rbind]. rewrite Nat.add_0_l.
    destruct (compose_from 0 before) as [nds1| |]; cbn [rbind]; try reflexivity.
    now destruct (compose_from (S (length before)) after).
Qed.

(** A leaf without a [children] field between two others. *)
Lemma top_level_leaf_needs_no_children_witness :
  abbreviations
    (fst (listen_keys
            (Sample.holding
               (PyList [Sample.leaf "a" "/a" "A"; Sample.leaf "b" "/b" "B";
                        Sample.leaf "c" "/c" "C"]))))
  = [(u "/a", u "A"); (u "/b", u "B"); (u "/c", u "C")]
  /\ compose (PyList [Sample.leaf "a" "/a" "A"; Sample.leaf "b" "/b" "B";
                      Sample.leaf "c" "/c" "C"])
     = Ok [Leaf (u "a") (NodeData 0 None s_child (PyStr (u "a")) (PyStr (u "/a"))
                           (PyStr (u "A")));
           Leaf (u "b") (NodeData 1 None s_child (PyStr (u "b")) (PyStr (u "/b"))
                           (PyStr (u "B")));
           Leaf (u "c") (NodeData 2 None s_child (PyStr (u "c")) (PyStr (u "/c"))
                           (PyStr (u "C")))].
Proof.
  destruct (top_level_leaf_needs_no_children
              (Sample.holding
                 (PyList [Sample.leaf "a" "/a" "A"; Sample.leaf "b" "/b" "B";
                          Sample.leaf "c" "/c" "C"]))
              [Sample.leaf "a" "/a" "A"] [Sample.leaf "c" "/c" "C"]
              [(k_name, PyStr (u "b")); (k_command, PyStr (u "/b"));
               (k_text, PyStr (u "B")); (k_type, PyStr s_child)]
              (u "b") (u "/b") (u "B") (PyStr s_child)
              eq_refl eq_refl eq_refl eq_refl eq_refl eq_refl eq_refl) as [H1 H2].
  split.
  - rewrite H1. reflexivity.
  - exact H2.
Defined.

End Registration.

(** ** Editing the collection *)

Section Editing.

Import Py Json AutoTypeApp.
Local Open Scope py_scope.

(** C3, as the code has it: the save handler on the add-child path
    never looks at the kind of the addressed entry.  A parent index
    beyond the collection raises [IndexError]; an entry without a
    [children] field raises [KeyError]; in both cases nothing is changed
    or written.  An entry that has a list under [children] receives the
    new child, whatever its [type] says, and the file is rewritten. *)
Theorem add_child_checks_no_kind (s : state) (data : Form.data_t)
  (l : list value) (p : Z) (n c t : str) :
  Form.data (form s) = data ->
  commands (st_store s) = PyList l ->
  Form.index data = None -> Form.parent data = Some p ->
  Form.name data = Some n -> Form.command data = Some c ->
  Form.text data = Some t ->
  (Spec.out_of_range (length l) p ->
   on_button_pressed Save s = (s, Raise IndexError))
  /\ (forall d,
        getitem_int (PyList l) p = Ok (PyDict d) ->
        dict_get d k_children = None ->
        on_button_pressed Save s = (s, Raise KeyError))
  /\ (forall kp d kids,
        norm_index (length l) p = Some kp ->
        nth_error l kp = Some (PyDict d) ->
        dict_get d k_children = Some (PyList kids) ->
        on_button_pressed Save s
        = (with_store s
             (save_store
                (Store
                   (PyList
                      (list_set l kp
                         (PyDict
                            (dict_set d k_children
                               (PyList
                                  (kids ++ [Spec.new_entry n c t s_child]))))))
                   (file (st_store s)))), Ok tt)).
Proof.
  intros Hdata Hc Hi Hp Hn Hcm Ht.
  change (on_button_pressed Save s) with (save_pressed (Form.data (form s)) s).
  rewrite Hdata. repeat split.
  - intros Hr. apply (SaveFacts.add_child_raises s data p n c t); try assumption.
    rewrite Hc. apply SaveFacts.at_int_list_none.
    now apply SeqFacts.norm_index_none.
  - intros d Hd Hch.
    apply FrameFacts.getitem_int_dict_inv in Hd as (l0 & kp & [= <-] & Hkp & Hd).
    apply (SaveFacts.add_child_raises s data p n c t); try assumption.
    rewrite Hc. rewrite (SaveFacts.at_int_list l p kp (PyDict d) _ Hkp Hd).
    now rewrite (SaveFacts.at_str_dict_none d k_children _ Hch).
  - intros kp d kids Hkp Hd Hch.
    now apply (SaveFacts.add_child_ok s data l kids p kp d n c t).
Qed.

(** A child added under the only entry, a parent. *)
Lemma add_child_checks_no_kind_witness :
  commands
    (st_store
       (fst (on_button_pressed Save
               (Sample.editing
                  (PyList [Sample.entry "p" "/p" "P" "parent" []])
                  (Sample.filled None (Some 0%Z) "c" "/c" "C")))))
  = PyList [Sample.entry "p" "/p" "P" "parent"
              [Sample.entry "c" "/c" "C" "child" []]].
Proof.
  rewrite (proj2 (proj2
    (add_child_checks_no_kind
       (Sample.editing
          (PyList [Sample.entry "p" "/p" "P" "parent" []])
          (Sample.filled None (Some 0%Z) "c" "/c" "C"))
       (Sample.filled None (Some 0%Z) "c" "/c" "C")
       [Sample.entry "p" "/p" "P" "parent" []] 0 (u "c") (u "/c") (u "C")
       eq_refl eq_refl eq_refl eq_refl eq_refl eq_refl eq_refl))
    0%nat
    [(k_name, PyStr (u "p")); (k_command, PyStr (u "/p"));
     (k_text, PyStr (u "P")); (k_type, PyStr (u "parent"));
     (k_children, PyList [])]
    [] eq_refl eq_refl eq_refl).
  reflexivity.
Defined.

(** Against C3: the only entry is a top-level leaf (type ["child"]) that
    has a [children] list.  Adding a child under it raises nothing: the
    leaf gets the child and the file is written. *)
Lemma add_child_under_leaf_accepted :
  option_map Spec.kind
    (Spec.view_entry (Sample.entry "a" "/a" "A" "child" []))
  = Some Spec.Child
  /\ snd (on_button_pressed Save
            (Sample.editing
               (PyList [Sample.entry "a" "/a" "A" "child" []])
               (Sample.filled None (Some 0%Z) "b" "/b" "B")))
     = Ok tt
  /\ commands
       (st_store
          (fst (on_button_pressed Save
                  (Sample.editing
                     (PyList [Sample.entry "a" "/a" "A" "child" []])
                     (Sample.filled None (Some 0%Z) "b" "/b" "B")))))
     = PyList [Sample.entry "a" "/a" "A" "child"
                 [Sample.entry "b" "/b" "B" "child" []]].
Proof. vm_compute. repeat split. Qed.

(** C4: an update whose index is beyond the collection, or whose parent
    index is, or whose child index is beyond the children of the addressed
    parent, raises [IndexError] (Python's index-out-of-range error) out of
    the handler; nothing is changed and nothing is written. *)
Theorem update_out_of_range_raises (s : state) (data : Form.data_t)
  (l : list value) (i : Z) (n : str) :
  Form.data (form s) = data ->
  commands (st_store s) = PyList l ->
  Form.index data = Some i -> Form.name data = Some n ->
  match Form.parent data with
  | None => Spec.out_of_range (length l) i
  | Some p =>
      Spec.out_of_range (length l) p
      \/ exists kids,
           (e <- getitem_int (PyList l) p ;; getitem_str e k_children)
           = Ok (PyList kids)
           /\ Spec.out_of_range (length kids) i
  end ->
  on_button_pressed Save s = (s, Raise IndexError).
Proof.
  intros Hdata Hc Hi Hn Hr.
  change (on_button_pressed Save s) with (save_pressed (Form.data (form s)) s).
  rewrite Hdata. destruct (Form.parent data) as [p|] eqn:Hp.
  - apply (SaveFacts.update_nested_raises s data p i n); try assumption.
    rewrite Hc. destruct Hr as [Hr|(kids & Hk & Hr)].
    + apply SaveFacts.at_int_list_none. now apply SeqFacts.norm_index_none.
    + cbn [getitem_int] in Hk.
      destruct (norm_index (length l) p) as [kp|] eqn:Hkp; [|discriminate].
      destruct (nth_error l kp) as [e|] eqn:He; [|discriminate].
      cbn [rbind] in Hk.
      destruct e as [| | | | |d]; cbn [getitem_str] in Hk; try discriminate.
      destruct (dict_get d k_children) as [ch|] eqn:Hch; [|discriminate].
      injection Hk as ->.
      rewrite (SaveFacts.at_int_list l p kp (PyDict d) _ Hkp He).
      rewrite (SaveFacts.at_str_dict d k_children (PyList kids) _ Hch).
      rewrite SaveFacts.at_int_list_none; [reflexivity|].
      now apply SeqFacts.norm_index_none.
  - apply (SaveFacts.update_top_raises s data i n); try assumption.
    rewrite Hc. apply SaveFacts.at_int_list_none.
    now apply SeqFacts.norm_index_none.
Qed.

(** Index 1 in a collection of one entry. *)
Lemma update_out_of_range_raises_witness :
  snd (on_button_pressed Save
         (Sample.editing
            (PyList [Sample.entry "a" "/a" "A" "parent" []])
            (Sample.filled (Some 1%Z) None "b" "/b" "B")))
  = Raise IndexError.
Proof.
  rewrite (update_out_of_range_raises
             (Sample.editing
                (PyList [Sample.entry "a" "/a" "A" "parent" []])
                (Sample.filled (Some 1%Z) None "b" "/b" "B"))
             (Sample.filled (Some 1%Z) None "b" "/b" "B")
             [Sample.entry "a" "/a" "A" "parent" []] 1 (u "b")
             eq_refl eq_refl eq_refl eq_refl).
  - reflexivity.
  - right. cbn. lia.
Defined.

(** C7, as the code has it: the child that the add-child path appends
    and saves is the dict of five fields that every new entry is, with
    [type] set to ["child"] and an empty [children] list; it is the last
    child of the addressed entry in the file that is written, and in what
    the next start of the program loads from it. *)
Theorem added_child_has_five_fields (s : state) (data : Form.data_t)
  (l kids : list value) (p : Z) (kp : nat) (d : list (str * value))
  (n c t : str) :
  Form.data (form s) = data ->
  commands (st_store s) = PyList l -> wf_value (PyList l) = true ->
  Form.index data = None -> Form.parent data = Some p ->
  Form.name data = Some n -> Form.command data = Some c ->
  Form.text data = Some t ->
  wf_str n = true -> wf_str c = true -> wf_str t = true ->
  norm_index (length l) p = Some kp -> nth_error l kp = Some (PyDict d) ->
  dict_get d k_children = Some (PyList kids) ->
  exists s',
    on_button_pressed Save s = (s', Ok tt)
    /\ file (st_store s') = Some (dumps (commands (st_store s')))
    /\ CommandList.load (file (st_store s')) = Ok (st_store s')
    /\ Spec.entry_at (commands (st_store s')) (Some p) (-1)
       = Ok (PyDict [(k_name, PyStr n); (k_command, PyStr c);
                     (k_text, PyStr t); (k_type, PyStr s_child);
                     (k_children, PyList [])]).
Proof.
  intros Hdata Hc Hwf Hi Hp Hn Hcm Ht Wn Wc Wt Hkp Hd Hch.
  change (on_button_pressed Save s) with (save_pressed (Form.data (form s)) s).
  rewrite Hdata.
  rewrite (SaveFacts.add_child_ok s data l kids p kp d n c t
             Hc Hkp Hd Hch Hi Hp Hn Hcm Ht).
  eexists. split; [reflexivity|]. split; [reflexivity|]. split.
  - apply FrameFacts.reload_saved.
    now apply FrameFacts.wf_child_added.
  - cbn [with_store st_store save_store commands Spec.entry_at].
    unfold SaveFacts.child_added.
    rewrite (SaveFacts.getitem_int_list_set l p kp _ Hkp). cbn [rbind].
    rewrite SaveFacts.getitem_str_dict_set. cbn [rbind].
    apply SaveFacts.getitem_int_last.
Qed.

Lemma added_child_has_five_fields_witness :
  exists s',
    on_button_pressed Save
      (Sample.editing
         (PyList [Sample.entry "p" "/p" "P" "parent" []])
         (Sample.filled None (Some 0%Z) "c" "/c" "C"))
    = (s', Ok tt)
    /\ file (st_store s') = Some (dumps (commands (st_store s')))
    /\ CommandList.load (file (st_store s')) = Ok (st_store s')
    /\ Spec.entry_at (commands (st_store s')) (Some 0%Z) (-1)
       = Ok (PyDict [(k_name, PyStr (u "c")); (k_command, PyStr (u "/c"));
                     (k_text, PyStr (u "C")); (k_type, PyStr s_child);
                     (k_children, PyList [])]).
Proof.
  apply (added_child_has_five_fields
           (Sample.editing
              (PyList [Sample.entry "p" "/p" "P" "parent" []])
              (Sample.filled None (Some 0%Z) "c" "/c" "C"))
           (Sample.filled None (Some 0%Z) "c" "/c" "C")
           [Sample.entry "p" "/p" "P" "parent" []] [] 0 0%nat
           [(k_name, PyStr (u "p")); (k_command, PyStr (u "/p"));
            (k_text, PyStr (u "P")); (k_type, PyStr (u "parent"));
            (k_children, PyList [])]
           (u "c") (u "/c") (u "C"));
    reflexivity.
Defined.

(** Against C7: the child saved under the parent [/p] is not the dict of
    three fields; it carries [type] and a [children] field of its own,
    and so does the text written to the file. *)
Lemma added_child_not_three_fields :
  commands
    (st_store
       (fst (on_button_pressed Save
               (Sample.editing
                  (PyList [Sample.entry "p" "/p" "P" "parent" []])
                  (Sample.filled None (Some 0%Z) "c" "/c" "C")))))
  = PyList [Sample.entry "p" "/p" "P" "parent"
              [Sample.entry "c" "/c" "C" "child" []]]
  /\ file
       (st_store
          (fst (on_button_pressed Save
                  (Sample.editing
                     (PyList [Sample.entry "p" "/p" "P" "parent" []])
                     (Sample.filled None (Some 0%Z) "c" "/c" "C")))))
     = Some (dumps (PyList [Sample.entry "p" "/p" "P" "parent"
                              [Sample.entry "c" "/c" "C" "child" []]]))
  /\ Sample.entry "c" "/c" "C" "child" [] <> Sample.child3 "c" "/c" "C"
  /\ getitem_str (Sample.entry "c" "/c" "C" "child" []) k_children
     = Ok (PyList []).
Proof. vm_compute. repeat split. discriminate. Qed.

(** C8: an update at a valid index pair, top-level or nested, in a
    collection that came from the file.  The save succeeds, the next start
    of the program loads the collection [l'], and [l'] is [l] with the
    addressed entry carrying the new name, trigger and text, its other
    fields ([type] and [children]) as before, and every sibling at both
    levels as before. *)
Theorem update_then_reload (s : state) (data : Form.data_t) (l : list value)
  (i : Z) (n c t : str) (d : list (str * value)) :
  Form.data (form s) = data ->
  commands (st_store s) = PyList l -> wf_value (PyList l) = true ->
  Form.index data = Some i ->
  Form.name data = Some n -> Form.command data = Some c ->
  Form.text data = Some t ->
  wf_str n = true -> wf_str c = true -> wf_str t = true ->
  Spec.entry_at (PyList l) (Form.parent data) i = Ok (PyDict d) ->
  exists s' l',
    on_button_pressed Save s = (s', Ok tt)
    /\ CommandList.load (file (st_store s'))
       = Ok (Store (PyList l') (file (st_store s')))
    /\ Spec.updated (Form.parent data) i n c t l l'.
Proof.
  intros Hdata Hc Hwf Hi Hn Hcm Ht Wn Wc Wt He.
  change (on_button_pressed Save s) with (save_pressed (Form.data (form s)) s).
  rewrite Hdata. destruct (Form.parent data) as [p|] eqn:Hp.
  - apply FrameFacts.entry_at_nested_inv
      in He as (kp & d0 & kids & k & Hkp & Hd0 & Hch & Hk & Hdc).
    rewrite (SaveFacts.update_nested_ok s data l kids p i kp k d0 d n c t
               Hc Hkp Hd0 Hch Hk Hdc Hi Hp Hn Hcm Ht).
    eexists. eexists. split; [reflexivity|]. split.
    + apply FrameFacts.reload_saved.
      now apply FrameFacts.wf_nested_updated.
    + cbn [Spec.updated].
      exists kp, d0,
        (dict_set d0 k_children
           (PyList (list_set kids k (PyDict (Spec.update_fields n c t d))))),
        kids, (list_set kids k (PyDict (Spec.update_fields n c t d))).
      repeat split; try assumption.
      * apply SeqFacts.list_set_length.
      * apply SeqFacts.nth_error_list_set_same.
        now apply (SeqFacts.norm_index_lt _ p).
      * intros j Hj. now apply SeqFacts.nth_error_list_set_other.
      * apply SeqFacts.dict_get_set_same.
      * intros key Hkey. now apply SeqFacts.dict_get_set_other.
      * now apply FrameFacts.updated_in_list_set.
  - apply FrameFacts.entry_at_top_inv in He as (k & Hk & Hd).
    rewrite (SaveFacts.update_top_ok s data l i k d n c t
               Hc Hk Hd Hi Hp Hn Hcm Ht).
    eexists. eexists. split; [reflexivity|]. split.
    + apply FrameFacts.reload_saved.
      now apply FrameFacts.wf_top_updated.
    + cbn [Spec.updated]. now apply FrameFacts.updated_in_list_set.
Qed.

(** The child of the second entry is renamed. *)
Lemma update_then_reload_witness :
  exists s' l',
    on_button_pressed Save
      (Sample.editing
         (PyList [Sample.entry "a" "/a" "A" "parent" [];
                  Sample.entry "p" "/p" "P" "parent"
                    [Sample.entry "c" "/c" "C" "child" []]])
         (Sample.filled (Some 0%Z) (Some 1%Z) "d" "/d" "D"))
    = (s', Ok tt)
    /\ CommandList.load (file (st_store s'))
       = Ok (Store (PyList l') (file (st_store s')))
    /\ Spec.updated (Some 1%Z) 0 (u "d") (u "/d") (u "D")
         [Sample.entry "a" "/a" "A" "parent" [];
          Sample.entry "p" "/p" "P" "parent"
            [Sample.entry "c" "/c" "C" "child" []]]
         l'.
Proof.
  apply (update_then_reload
           (Sample.editing
              (PyList [Sample.entry "a" "/a" "A" "parent" [];
                       Sample.entry "p" "/p" "P" "parent"
                         [Sample.entry "c" "/c" "C" "child" []]])
              (Sample.filled (Some 0%Z) (Some 1%Z) "d" "/d" "D"))
           (Sample.filled (Some 0%Z) (Some 1%Z) "d" "/d" "D")
           [Sample.entry "a" "/a" "A" "parent" [];
            Sample.entry "p" "/p" "P" "parent"
              [Sample.entry "c" "/c" "C" "child" []]]
           0 (u "d") (u "/d") (u "D")
           [(k_name, PyStr (u "c")); (k_command, PyStr (u "/c"));
            (k_text, PyStr (u "C")); (k_type, PyStr (u "child"));
            (k_children, PyList [])]);
    reflexivity.
Defined.

End Editing.

Section Normalisation.

Import Py AutoTypeApp.

(** C5: a trigger typed in the form is stored with its slash, on the add
    paths and on the update paths alike.  On a form at rest the user edits
    the command field to [v]; once the messages are handled, a save that
    returns has stored [v] itself if it starts with the slash and
    ["/" + v] otherwise: at the entry that the form addresses when it holds
    an index (update), in the entry appended last when it holds none
    (add), at top level or among the children of the parent it holds. *)
Theorem typed_trigger_is_stored_with_slash (s s' : state) (v : str) (k : nat) :
  Form.settled (form s) -> Form.command_value (form s) <> v -> (8 <= k)%nat ->
  on_button_pressed Save (settle k (typing (Form.type_command v) s))
  = (s', Ok tt) ->
  Spec.stored_trigger (commands (st_store s'))
    (Form.parent (Form.data (form s))) (Form.index (Form.data (form s)))
  = Ok (PyStr (Spec.normalize v))
  /\ (startswith v s_slash = true -> Spec.normalize v = v)
  /\ (startswith v s_slash = false -> Spec.normalize v = s_slash ++ v).
Proof.
  intros Hs Hne Hk H.
  split; [|split; [apply FormFacts.normalize_slash|apply FormFacts.normalize_bare]].
  change (on_button_pressed Save (settle k (typing (Form.type_command v) s)))
    with (save_pressed
            (Form.data (Form.run k (Form.type_command v (form s))))
            (settle k (typing (Form.type_command v) s))) in H.
  destruct (form s) as [[i p ty n c t] nv cv ta q] eqn:Hf.
  unfold Form.settled in Hs.
  cbn [Form.pending Form.name_value Form.command_value Form.text_area
       Form.data Form.name Form.command Form.text Form.index Form.parent] in *.
  destruct Hs as (-> & -> & -> & ->).
  change (Form.Make (Form.Data i p ty n c t) (Form.get_or_empty n)
            (Form.get_or_empty c) (Form.get_or_empty t) [])
    with (Form.showing (Form.Data i p ty n c t)) in H.
  rewrite (EditFacts.typed_command_run i p ty n c t v k Hne Hk) in H.
  cbn [Form.showing Form.data] in H.
  exact (TriggerFacts.save_stores_trigger
           (Form.Data i p ty n (Some (Spec.normalize v))
              (Some (Form.get_or_empty t)))
           _ _ (Spec.normalize v) eq_refl H).
Qed.

(** The two inputs of the specification: [abc] typed for a new entry,
    [/abc] typed for the only entry there is. *)
Lemma typed_trigger_is_stored_with_slash_witness :
  Spec.stored_trigger
    (commands
       (st_store
          (fst (on_button_pressed Save
                  (settle 8
                     (typing (Form.type_command (u "abc"))
                        (Sample.editing (PyList [])
                           (Form.Data None None None (Some (u "n")) None
                              (Some (u "T")))))))))) None None
  = Ok (PyStr (u "/abc"))
  /\ Spec.stored_trigger
       (commands
          (st_store
             (fst (on_button_pressed Save
                     (settle 8
                        (typing (Form.type_command (u "/abc"))
                           (Sample.editing
                              (PyList [Sample.entry "a" "/a" "A" "parent" []])
                              (Sample.filled (Some 0%Z) None "a" "/a" "A"))))))))
       None (Some 0%Z)
     = Ok (PyStr (u "/abc")).
Proof.
  split.
  - apply (typed_trigger_is_stored_with_slash
             (Sample.editing (PyList [])
                (Form.Data None None None (Some (u "n")) None (Some (u "T"))))
             _ (u "abc") 8).
    + repeat split.
    + discriminate.
    + lia.
    + reflexivity.
  - apply (typed_trigger_is_stored_with_slash
             (Sample.editing (PyList [Sample.entry "a" "/a" "A" "parent" []])
                (Sample.filled (Some 0%Z) None "a" "/a" "A"))
             _ (u "/abc") 8).
    + repeat split.
    + discriminate.
    + lia.
    + reflexivity.
Defined.

End Normalisation.

(* ================================================================== *)
(** * Further properties of the handlers *)
(* ================================================================== *)

(** ** The save handler *)

Section Saving.

Import Py Json AutoTypeApp.
Local Open Scope py_scope.

(** X1: whatever the form holds and whatever the collection is, the save
    handler acts on the store alone: the form and its data, the four
    display styles and the registered abbreviations are as before, whether
    the handler returns or raises. *)
Theorem save_leaves_form_and_hook (s : state) :
  form (fst (on_button_pressed Save s)) = form s
  /\ abbreviations (fst (on_button_pressed Save s)) = abbreviations s
  /\ text_opening_display (fst (on_button_pressed Save s))
     = text_opening_display s
  /\ form_display (fst (on_button_pressed Save s)) = form_display s
  /\ save_display (fst (on_button_pressed Save s)) = save_display s
  /\ add_child_display (fst (on_button_pressed Save s)) = add_child_display s.
Proof.
  change (on_button_pressed Save s) with (save_pressed (Form.data (form s)) s).
  rewrite HandlerFacts.save_pressed_body.
  destruct (HandlerFacts.store_only_save_body (Form.data (form s)) s) as [E _].
  unfold bind.
  destruct (save_body (Form.data (form s)) s) as [s1 [[]| |]];
    cbn [fst save] in *; rewrite E; repeat split.
Qed.

(** X2: the file is written last.  The assignments of the save branch
    act on the collection in memory and never on the file.  When reading
    the form data or an assignment raises, the handler raises that
    exception with the state the assignments left, the write is not reached
    and the file is what it was.  When the handler returns, the file holds
    the text of the collection as it then is in memory. *)
Theorem file_written_after_assignments (s : state) :
  file (st_store (fst (save_body (Form.data (form s)) s))) = file (st_store s)
  /\ (forall s1 e,
        save_body (Form.data (form s)) s = (s1, Raise e) ->
        on_button_pressed Save s = (s1, Raise e)
        /\ file (st_store s1) = file (st_store s))
  /\ (forall s',
        on_button_pressed Save s = (s', Ok tt) ->
        file (st_store s') = Some (dumps (commands (st_store s')))).
Proof.
  change (on_button_pressed Save s) with (save_pressed (Form.data (form s)) s).
  destruct (HandlerFacts.store_only_save_body (Form.data (form s)) s) as [_ E].
  split; [exact E|]. split.
  - intros s1 e H. split; [now apply SaveFacts.bind_raise|].
    now rewrite H in E.
  - unfold save_pressed, bind.
    destruct (save_body (Form.data (form s)) s) as [s1 [[]| |]];
      intros s' H; try discriminate H.
    now injection H as <-.
Qed.





(** X5: an update is not atomic when the form data has a name but no
    trigger.  The first of the three assignments is made, so the addressed
    entry carries the new name in memory; then [data["command"]] raises
    [KeyError], and the file is not written: memory and file disagree. *)
Theorem update_without_trigger_renames (s : state) (l : list value) (i : Z)
  (k : nat) (d : list (str * value)) (n : str) :
  commands (st_store s) = PyList l ->
  Form.index (Form.data (form s)) = Some i ->
  Form.parent (Form.data (form s)) = None ->
  Form.name (Form.data (form s)) = Some n ->
  Form.command (Form.data (form s)) = None ->
  norm_index (length l) i = Some k -> nth_error l k = Some (PyDict d) ->
  on_button_pressed Save s
  = (with_store s
       (Store (PyList (list_set l k (PyDict (dict_set d k_name (PyStr n)))))
          (file (st_store s))), Raise KeyError).
Proof.
  intros Hl Hi Hp Hn Hc Hk Hd.
  change (on_button_pressed Save s) with (save_pressed (Form.data (form s)) s).
  unfold save_pressed, save_body. rewrite Hi, Hp, Hn, Hc.
  apply SaveFacts.bind_raise.
  rewrite SaveFacts.bind_ok
    with (s1 := with_store s
                  (Store
                     (PyList (list_set l k (PyDict (dict_set d k_name (PyStr n)))))
                     (file (st_store s)))) (a := tt).
  - reflexivity.
  - rewrite (SaveFacts.bind_ok _ _ _ _ _ (SaveFacts.data_item_some n s)).
    now apply SaveFacts.set_top_ok.
Qed.

Lemma update_without_trigger_renames_witness :
  on_button_pressed Save
    (Sample.editing (PyList [Sample.entry "a" "/a" "A" "parent" []])
       (Form.Data (Some 0%Z) None None (Some (u "b")) None None))
  = (with_store
       (Sample.editing (PyList [Sample.entry "a" "/a" "A" "parent" []])
          (Form.Data (Some 0%Z) None None (Some (u "b")) None None))
       (Store (PyList [Sample.entry "b" "/a" "A" "parent" []]) None),
     Raise KeyError).
Proof.
  apply (update_without_trigger_renames
           (Sample.editing (PyList [Sample.entry "a" "/a" "A" "parent" []])
              (Form.Data (Some 0%Z) None None (Some (u "b")) None None))
           [Sample.entry "a" "/a" "A" "parent" []] 0 0%nat
           [(k_name, PyStr (u "a")); (k_command, PyStr (u "/a"));
            (k_text, PyStr (u "A")); (k_type, PyStr (u "parent"));
            (k_children, PyList [])] (u "b"));
    reflexivity.
Defined.

(** X6: the top-level append.  With the three fields in the form data
    and no index and no parent, the save appends one entry after the
    entries there are, which stay as they are: a dict of the five fields
    with type ["parent"] and no children.  The file holds the new
    collection and, for a collection and strings as a file can hold them,
    the next start of the program loads it. *)
Theorem add_appends_parent_entry (s : state) (l : list value) (n c t : str) :
  commands (st_store s) = PyList l ->
  Form.index (Form.data (form s)) = None ->
  Form.parent (Form.data (form s)) = None ->
  Form.name (Form.data (form s)) = Some n ->
  Form.command (Form.data (form s)) = Some c ->
  Form.text (Form.data (form s)) = Some t ->
  exists s',
    on_button_pressed Save s = (s', Ok tt)
    /\ commands (st_store s')
       = PyList (l ++ [PyDict [(k_name, PyStr n); (k_command, PyStr c);
                               (k_text, PyStr t); (k_type, PyStr s_parent);
                               (k_children, PyList [])]])
    /\ file (st_store s') = Some (dumps (commands (st_store s')))
    /\ (wf_value (PyList l) = true -> wf_str n = true -> wf_str c = true ->
        wf_str t = true ->
        CommandList.load (file (st_store s')) = Ok (st_store s')).
Proof.
  intros Hl Hi Hp Hn Hc Ht.
  change (on_button_pressed Save s) with (save_pressed (Form.data (form s)) s).
  rewrite (SaveFacts.add_top_ok s _ l n c t Hl Hi Hp Hn Hc Ht).
  eexists. split; [reflexivity|]. split; [reflexivity|]. split; [reflexivity|].
  intros Wl Wn Wc Wt. apply FrameFacts.reload_saved.
  apply SeqFacts.wf_value_snoc; [assumption|].
  now apply FrameFacts.wf_new_entry.
Qed.

Lemma add_appends_parent_entry_witness :
  exists s',
    on_button_pressed Save
      (Sample.editing (PyList [Sample.leaf "a" "/a" "A"])
         (Sample.filled None None "b" "/b" "B")) = (s', Ok tt)
    /\ commands (st_store s')
       = PyList ([Sample.leaf "a" "/a" "A"]
                 ++ [PyDict [(k_name, PyStr (u "b")); (k_command, PyStr (u "/b"));
                             (k_text, PyStr (u "B")); (k_type, PyStr s_parent);
                             (k_children, PyList [])]])
    /\ file (st_store s') = Some (dumps (commands (st_store s')))
    /\ (wf_value (PyList [Sample.leaf "a" "/a" "A"]) = true ->
        wf_str (u "b") = true -> wf_str (u "/b") = true ->
        wf_str (u "B") = true ->
        CommandList.load (file (st_store s')) = Ok (st_store s')).
Proof.
  apply (add_appends_parent_entry
           (Sample.editing (PyList [Sample.leaf "a" "/a" "A"])
              (Sample.filled None None "b" "/b" "B"))
           [Sample.leaf "a" "/a" "A"] (u "b") (u "/b") (u "B"));
    reflexivity.
Defined.

(** X7: the handler does not reset the form, so a second Save after a
    top-level append appends the same entry once more: the collection ends
    with two equal entries. *)
Theorem save_again_appends_again (s : state) (l : list value) (n c t : str) :
  commands (st_store s) = PyList l ->
  Form.index (Form.data (form s)) = None ->
  Form.parent (Form.data (form s)) = None ->
  Form.name (Form.data (form s)) = Some n ->
  Form.command (Form.data (form s)) = Some c ->
  Form.text (Form.data (form s)) = Some t ->
  exists s1 s2,
    on_button_pressed Save s = (s1, Ok tt)
    /\ on_button_pressed Save s1 = (s2, Ok tt)
    /\ commands (st_store s2)
       = PyList (l ++ [Spec.new_entry n c t s_parent;
                       Spec.new_entry n c t s_parent]).
Proof.
  intros Hl Hi Hp Hn Hc Ht.
  change (on_button_pressed Save s) with (save_pressed (Form.data (form s)) s).
  rewrite (SaveFacts.add_top_ok s _ l n c t Hl Hi Hp Hn Hc Ht).
  eexists. eexists. split; [reflexivity|].
  match goal with |- on_button_pressed Save ?s1 = _ /\ _ =>
    change (on_button_pressed Save s1)
      with (save_pressed (Form.data (form s)) s1);
    rewrite (SaveFacts.add_top_ok s1 _ (l ++ [Spec.new_entry n c t s_parent])
               n c t eq_refl Hi Hp Hn Hc Ht)
  end.
  split; [reflexivity|].
  cbn [with_store st_store save_store commands]. now rewrite <- List.app_assoc.
Qed.

Lemma save_again_appends_again_witness :
  exists s1 s2,
    on_button_pressed Save
      (Sample.editing (PyList []) (Sample.filled None None "b" "/b" "B"))
    = (s1, Ok tt)
    /\ on_button_pressed Save s1 = (s2, Ok tt)
    /\ commands (st_store s2)
       = PyList ([] ++ [Spec.new_entry (u "b") (u "/b") (u "B") s_parent;
                        Spec.new_entry (u "b") (u "/b") (u "B") s_parent]).
Proof.
  apply (save_again_appends_again
           (Sample.editing (PyList []) (Sample.filled None None "b" "/b" "B"))
           [] (u "b") (u "/b") (u "B"));
    reflexivity.
Defined.

(** X8: an update can be repeated.  After an update that returned, top-level
    or nested, a second Save on the same form data returns and leaves the
    state, file included, exactly as the first left it. *)
Theorem update_again_changes_nothing (s : state) (l : list value) (i : Z)
  (n c t : str) (d : list (str * value)) :
  commands (st_store s) = PyList l ->
  Form.index (Form.data (form s)) = Some i ->
  Form.name (Form.data (form s)) = Some n ->
  Form.command (Form.data (form s)) = Some c ->
  Form.text (Form.data (form s)) = Some t ->
  Spec.entry_at (PyList l) (Form.parent (Form.data (form s))) i
  = Ok (PyDict d) ->
  exists s1,
    on_button_pressed Save s = (s1, Ok tt)
    /\ on_button_pressed Save s1 = (s1, Ok tt).
Proof.
  intros Hl Hi Hn Hc Ht He.
  change (on_button_pressed Save s) with (save_pressed (Form.data (form s)) s).
  destruct (Form.parent (Form.data (form s))) as [p|] eqn:Hp.
  - apply FrameFacts.entry_at_nested_inv
      in He as (kp & d0 & kids & k & Hkp & Hd0 & Hch & Hk & Hdc).
    rewrite (SaveFacts.update_nested_ok s _ l kids p i kp k d0 d n c t
               Hl Hkp Hd0 Hch Hk Hdc Hi Hp Hn Hc Ht).
    eexists. split; [reflexivity|].
    match goal with |- on_button_pressed Save ?s1 = _ =>
      change (on_button_pressed Save s1)
        with (save_pressed (Form.data (form s)) s1)
    end.
    rewrite SaveFacts.update_nested_ok
      with (l := list_set l kp
                   (PyDict
                      (dict_set d0 k_children
                         (PyList
                            (list_set kids k
                               (PyDict (Spec.update_fields n c t d)))))))
           (kids := list_set kids k (PyDict (Spec.update_fields n c t d)))
           (p := p) (i := i) (kp := kp) (k := k)
           (d := dict_set d0 k_children
                   (PyList
                      (list_set kids k (PyDict (Spec.update_fields n c t d)))))
           (dc := Spec.update_fields n c t d) (n := n) (c := c) (t := t);
      try assumption.
    + now rewrite HandlerFacts.nested_updated_twice.
    + reflexivity.
    + now rewrite SeqFacts.list_set_length.
    + apply SeqFacts.nth_error_list_set_same.
      now apply (SeqFacts.norm_index_lt _ p).
    + apply SeqFacts.dict_get_set_same.
    + now rewrite SeqFacts.list_set_length.
    + apply SeqFacts.nth_error_list_set_same.
      now apply (SeqFacts.norm_index_lt _ i).
  - apply FrameFacts.entry_at_top_inv in He as (k & Hk & Hd).
    rewrite (SaveFacts.update_top_ok s _ l i k d n c t
               Hl Hk Hd Hi Hp Hn Hc Ht).
    eexists. split; [reflexivity|].
    match goal with |- on_button_pressed Save ?s1 = _ =>
      change (on_button_pressed Save s1)
        with (save_pressed (Form.data (form s)) s1)
    end.
    rewrite SaveFacts.update_top_ok
      with (l := list_set l k (PyDict (Spec.update_fields n c t d)))
           (i := i) (k := k) (d := Spec.update_fields n c t d)
           (n := n) (c := c) (t := t);
      try assumption.
    + now rewrite HandlerFacts.top_updated_twice.
    + reflexivity.
    + now rewrite SeqFacts.list_set_length.
    + apply SeqFacts.nth_error_list_set_same.
      now apply (SeqFacts.norm_index_lt _ i).
Qed.

Lemma update_again_changes_nothing_witness :
  exists s1,
    on_button_pressed Save
      (Sample.editing
         (PyList [Sample.entry "p" "/p" "P" "parent"
                    [Sample.entry "c" "/c" "C" "child" []]])
         (Sample.filled (Some 0%Z) (Some 0%Z) "d" "/d" "D"))
    = (s1, Ok tt)
    /\ on_button_pressed Save s1 = (s1, Ok tt).
Proof.
  apply (update_again_changes_nothing
           (Sample.editing
              (PyList [Sample.entry "p" "/p" "P" "parent"
                         [Sample.entry "c" "/c" "C" "child" []]])
              (Sample.filled (Some 0%Z) (Some 0%Z) "d" "/d" "D"))
           [Sample.entry "p" "/p" "P" "parent"
              [Sample.entry "c" "/c" "C" "child" []]]
           0 (u "d") (u "/d") (u "D")
           [(k_name, PyStr (u "c")); (k_command, PyStr (u "/c"));
            (k_text, PyStr (u "C")); (k_type, PyStr (u "child"));
            (k_children, PyList [])]);
    reflexivity.
Defined.

(** X9: a save that changes nothing.  When the form data holds the name,
    trigger and text that the addressed entry has (as after the selection
    of its node), the save leaves the collection in memory as it is and
    writes it to the file. *)
Theorem save_unedited_keeps_collection (s : state) (l : list value) (i : Z)
  (n c t : str) (d : list (str * value)) :
  commands (st_store s) = PyList l ->
  Form.index (Form.data (form s)) = Some i ->
  Form.name (Form.data (form s)) = Some n ->
  Form.command (Form.data (form s)) = Some c ->
  Form.text (Form.data (form s)) = Some t ->
  Spec.entry_at (PyList l) (Form.parent (Form.data (form s))) i
  = Ok (PyDict d) ->
  dict_get d k_name = Some (PyStr n) ->
  dict_get d k_command = Some (PyStr c) ->
  dict_get d k_text = Some (PyStr t) ->
  on_button_pressed Save s
  = (with_store s (Store (PyList l) (Some (dumps (PyList l)))), Ok tt).
Proof.
  intros Hl Hi Hn Hc Ht He Dn Dc Dt.
  change (on_button_pressed Save s) with (save_pressed (Form.data (form s)) s).
  destruct (Form.parent (Form.data (form s))) as [p|] eqn:Hp.
  - apply FrameFacts.entry_at_nested_inv
      in He as (kp & d0 & kids & k & Hkp & Hd0 & Hch & Hk & Hdc).
    rewrite (SaveFacts.update_nested_ok s _ l kids p i kp k d0 d n c t
               Hl Hkp Hd0 Hch Hk Hdc Hi Hp Hn Hc Ht).
    now rewrite (HandlerFacts.nested_updated_same l kids kp k d0 d n c t).
  - apply FrameFacts.entry_at_top_inv in He as (k & Hk & Hd).
    rewrite (SaveFacts.update_top_ok s _ l i k d n c t
               Hl Hk Hd Hi Hp Hn Hc Ht).
    now rewrite (HandlerFacts.top_updated_same l k d n c t).
Qed.

Lemma save_unedited_keeps_collection_witness :
  on_button_pressed Save
    (Sample.editing (PyList [Sample.leaf "a" "/a" "A"; Sample.leaf "b" "/b" "B"])
       (Sample.filled (Some 1%Z) None "b" "/b" "B"))
  = (with_store
       (Sample.editing
          (PyList [Sample.leaf "a" "/a" "A"; Sample.leaf "b" "/b" "B"])
          (Sample.filled (Some 1%Z) None "b" "/b" "B"))
       (Store (PyList [Sample.leaf "a" "/a" "A"; Sample.leaf "b" "/b" "B"])
          (Some (dumps (PyList [Sample.leaf "a" "/a" "A";
                                Sample.leaf "b" "/b" "B"])))), Ok tt).
Proof.
  apply (save_unedited_keeps_collection
           (Sample.editing
              (PyList [Sample.leaf "a" "/a" "A"; Sample.leaf "b" "/b" "B"])
              (Sample.filled (Some 1%Z) None "b" "/b" "B"))
           [Sample.leaf "a" "/a" "A"; Sample.leaf "b" "/b" "B"] 1
           (u "b") (u "/b") (u "B")
           [(k_name, PyStr (u "b")); (k_command, PyStr (u "/b"));
            (k_text, PyStr (u "B")); (k_type, PyStr s_child)]);
    reflexivity.
Defined.

End Saving.

(** ** The registration of the abbreviations *)

Section Listening.

Import Py AutoTypeApp.
Local Open Scope m_scope.

(** X10: whatever the collection holds, and whether the loop ends or an
    entry makes it raise, Start only adds to what is hooked: the
    abbreviations registered before are all still there, in their order,
    at the head of the list, and the store, the form and the displays are
    untouched. *)
Theorem start_only_adds (s : state) :
  exists added,
    abbreviations (fst (on_button_pressed Start s)) = abbreviations s ++ added
    /\ st_store (fst (on_button_pressed Start s)) = st_store s
    /\ form (fst (on_button_pressed Start s)) = form s
    /\ text_opening_display (fst (on_button_pressed Start s))
       = text_opening_display s
    /\ form_display (fst (on_button_pressed Start s)) = form_display s
    /\ save_display (fst (on_button_pressed Start s)) = save_display s
    /\ add_child_display (fst (on_button_pressed Start s))
       = add_child_display s.
Proof.
  change (on_button_pressed Start s) with (listen_keys s).
  destruct (RegisterFacts.appends_listen_keys s) as [l H].
  exists l. rewrite H. repeat split.
Qed.

(** X11: an entry that has a trigger and a text but no [type] stops the
    registration with [KeyError].  The entries before it are registered in
    full and so is the entry's own pair, which is hooked before [type] is
    read; nothing of the entries after it is. *)
Theorem start_stops_at_untyped_entry (s : state) (before after : list value)
  (es : list Spec.Entry) (d : list (str * value)) (c t : str) :
  commands (st_store s) = PyList (before ++ PyDict d :: after) ->
  Spec.view_list Spec.view_entry before = Some es ->
  dict_get d k_command = Some (PyStr c) -> dict_get d k_text = Some (PyStr t) ->
  dict_get d k_type = None ->
  on_button_pressed Start s
  = (registering (Spec.compile es ++ [(c, t)]) s, Raise KeyError).
Proof.
  intros Hl Hv Hc Ht Hty.
  change (on_button_pressed Start s) with (listen_keys s).
  unfold listen_keys. rewrite Hl. unfold bind at 1, lift. cbn [iter].
  rewrite ListenFacts.for_each_app. unfold bind.
  rewrite (ListenFacts.for_each_register_ok before es s Hv).
  rewrite ListenFacts.for_each_cons.
  rewrite (RegisterFacts.register_entry_untyped d c t _ Hc Ht Hty).
  now rewrite ListenFacts.registering_app.
Qed.

Lemma start_stops_at_untyped_entry_witness :
  on_button_pressed Start
    (Sample.holding
       (PyList [Sample.leaf "a" "/a" "A"; Sample.child3 "b" "/b" "B";
                Sample.leaf "c" "/c" "C"]))
  = (registering
       (Spec.compile [Spec.MkEntry (u "/a") (u "A") Spec.Child []]
        ++ [(u "/b", u "B")])
       (Sample.holding
          (PyList [Sample.leaf "a" "/a" "A"; Sample.child3 "b" "/b" "B";
                   Sample.leaf "c" "/c" "C"])), Raise KeyError).
Proof.
  apply (start_stops_at_untyped_entry
           (Sample.holding
              (PyList [Sample.leaf "a" "/a" "A"; Sample.child3 "b" "/b" "B";
                       Sample.leaf "c" "/c" "C"]))
           [Sample.leaf "a" "/a" "A"] [Sample.leaf "c" "/c" "C"]
           [Spec.MkEntry (u "/a") (u "A") Spec.Child []]
           [(k_name, PyStr (u "b")); (k_command, PyStr (u "/b"));
            (k_text, PyStr (u "B"))] (u "/b") (u "B"));
    reflexivity.
Defined.

(** X12: Start does not clear what an earlier Start hooked.  On a
    collection of well-shaped entries, pressing Start twice leaves every
    pair of the compiled table registered twice, the second run after the
    first. *)
Theorem start_twice_registers_twice (s : state) (vs : list value)
  (es : list Spec.Entry) :
  commands (st_store s) = PyList vs ->
  Spec.view_list Spec.view_entry vs = Some es ->
  exists s1 s2,
    on_button_pressed Start s = (s1, Ok tt)
    /\ on_button_pressed Start s1 = (s2, Ok tt)
    /\ abbreviations s2
       = abbreviations s ++ Spec.compile es ++ Spec.compile es.
Proof.
  intros Hl Hv.
  change (on_button_pressed Start s) with (listen_keys s).
  rewrite (ListenFacts.listen_keys_ok vs es s Hl Hv).
  eexists. eexists. split; [reflexivity|].
  match goal with |- on_button_pressed Start ?s1 = _ /\ _ =>
    change (on_button_pressed Start s1) with (listen_keys s1);
    rewrite (ListenFacts.listen_keys_ok vs es s1 Hl Hv)
  end.
  split; [reflexivity|].
  cbn [registering abbreviations]. now rewrite <- List.app_assoc.
Qed.

Lemma start_twice_registers_twice_witness :
  exists s1 s2,
    on_button_pressed Start (Sample.holding (PyList [Sample.leaf "a" "/a" "A"]))
    = (s1, Ok tt)
    /\ on_button_pressed Start s1 = (s2, Ok tt)
    /\ abbreviations s2
       = abbreviations (Sample.holding (PyList [Sample.leaf "a" "/a" "A"]))
         ++ Spec.compile [Spec.MkEntry (u "/a") (u "A") Spec.Child []]
         ++ Spec.compile [Spec.MkEntry (u "/a") (u "A") Spec.Child []].
Proof.
  apply (start_twice_registers_twice
           (Sample.holding (PyList [Sample.leaf "a" "/a" "A"]))
           [Sample.leaf "a" "/a" "A"]
           [Spec.MkEntry (u "/a") (u "A") Spec.Child []]);
    reflexivity.
Defined.

End Listening.

(** ** The tree of the collection *)

Section Tree.

Import Py CommandList.
Local Open Scope py_scope.

(** X13: the tree addresses what it displays.  When [compose] builds the
    tree, the node at position [k] under the root carries index [k] and no
    parent, each leaf at position [j] under it carries index [j] and
    parent [k], and the entry that such a pair addresses in the collection
    (the one an update from the form will assign to) has the name, trigger
    and text that the node carries. *)
Theorem compose_addresses_entries (cmds : value) (nodes : list node)
  (k : nat) (nd : node) :
  compose cmds = Ok nodes -> nth_error nodes k = Some nd ->
  nd_index (data_of nd) = k /\ nd_parent (data_of nd) = None
  /\ Spec.shows cmds (data_of nd)
  /\ forall j label leaf,
       nth_error (leaves_of nd) j = Some (label, leaf) ->
       nd_index leaf = j /\ nd_parent leaf = Some k /\ Spec.shows cmds leaf.
Proof.
  unfold compose. intros H Hk.
  apply TreeFacts.rbind_inv in H as (items & Hit & H).
  apply TreeFacts.compose_from_nth in H as [_ H].
  apply H in Hk as (command & Hcmd & He). cbn [Nat.add] in He.
  apply TreeFacts.compose_entry_inv
    in He as (d & ty & -> & Hty & Hi & Hp & Hn & Hc & Ht & Hkind).
  apply (TreeFacts.iter_with_dict cmds items k d Hit) in Hcmd as Hl.
  subst cmds.
  assert (Htop : getitem_int (PyList items) (Z.of_nat k) = Ok (PyDict d))
    by now apply TreeFacts.getitem_int_nth.
  split; [assumption|]. split; [assumption|]. split.
  - exists (PyDict d). rewrite Hi, Hp. cbn [option_map Spec.entry_at getitem_str].
    now rewrite Hn, Hc, Ht.
  - intros j label leaf Hj.
    destruct (eq_str ty s_parent).
    + destruct Hkind as (_ & lab & children & kids & _ & Hch & Hkids & Hls).
      apply TreeFacts.compose_children_nth in Hls as [_ Hls].
      apply Hls in Hj as (child & Hchild & Hji & Hjp & _ & Cn & Cc & Ct & _).
      cbn [Nat.add] in Hji. split; [assumption|]. split; [assumption|].
      apply TreeFacts.getitem_str_inv in Cn as Hd. destruct Hd as (dc & -> & _).
      apply (TreeFacts.iter_with_dict children kids j dc Hkids) in Hchild as Hl.
      subst children.
      exists (PyDict dc). rewrite Hji, Hjp.
      cbn [option_map Spec.entry_at]. rewrite Htop. cbn [rbind getitem_str].
      rewrite Hch. cbn [rbind].
      rewrite (TreeFacts.getitem_int_nth kids j (PyDict dc) Hchild).
      repeat split; assumption.
    + destruct Hkind as (_ & lab & E). rewrite E in Hj. cbn [leaves_of] in Hj.
      destruct j; discriminate.
Qed.

(** The child of the second entry: the leaf carries index 0 and parent 1. *)
Lemma compose_addresses_entries_witness :
  nd_index
    (data_of
       (Branch (u "p")
          (NodeData 1 None s_parent (PyStr (u "p")) (PyStr (u "/p"))
             (PyStr (u "P")))
          [(u "c",
            NodeData 0 (Some 1%nat) s_child (PyStr (u "c")) (PyStr (u "/c"))
              (PyStr (u "C")))])) = 1%nat
  /\ Spec.shows
       (PyList [Sample.leaf "a" "/a" "A";
                Sample.entry "p" "/p" "P" "parent" [Sample.child3 "c" "/c" "C"]])
       (NodeData 0 (Some 1%nat) s_child (PyStr (u "c")) (PyStr (u "/c"))
          (PyStr (u "C"))).
Proof.
  destruct (compose_addresses_entries
              (PyList [Sample.leaf "a" "/a" "A";
                       Sample.entry "p" "/p" "P" "parent"
                         [Sample.child3 "c" "/c" "C"]])
              [Leaf (u "a")
                 (NodeData 0 None s_child (PyStr (u "a")) (PyStr (u "/a"))
                    (PyStr (u "A")));
               Branch (u "p")
                 (NodeData 1 None s_parent (PyStr (u "p")) (PyStr (u "/p"))
                    (PyStr (u "P")))
                 [(u "c",
                   NodeData 0 (Some 1%nat) s_child (PyStr (u "c"))
                     (PyStr (u "/c")) (PyStr (u "C")))]]
              1%nat
              (Branch (u "p")
                 (NodeData 1 None s_parent (PyStr (u "p")) (PyStr (u "/p"))
                    (PyStr (u "P")))
                 [(u "c",
                   NodeData 0 (Some 1%nat) s_child (PyStr (u "c"))
                     (PyStr (u "/c")) (PyStr (u "C")))])
              eq_refl eq_refl) as (Hi & _ & _ & Hleaf).
  split; [exact Hi|].
  exact (proj2 (proj2 (Hleaf 0%nat (u "c") _ eq_refl))).
Defined.

(** X14: one node per entry.  When [compose] builds the tree of a list,
    there are as many nodes under the root as the list has entries, each
    from the dict at its position; the node is a branch exactly when the
    [type] of the entry equals ["parent"], with one leaf per child, and a
    leaf otherwise, whatever [children] the entry may have. *)
Theorem compose_one_node_per_entry (l : list value) (nodes : list node) :
  compose (PyList l) = Ok nodes ->
  length nodes = length l
  /\ forall k nd,
       nth_error nodes k = Some nd ->
       exists d ty,
         nth_error l k = Some (PyDict d) /\ dict_get d k_type = Some ty
         /\ match nd with
            | Branch _ _ leaves =>
                eq_str ty s_parent = true
                /\ exists children kids,
                     dict_get d k_children = Some children
                     /\ iter children = Ok kids
                     /\ length leaves = length kids
            | Leaf _ _ => eq_str ty s_parent = false
            end.
Proof.
  unfold compose. cbn [iter rbind]. intros H.
  apply TreeFacts.compose_from_nth in H as [Hlen H].
  split; [assumption|]. intros k nd Hk.
  apply H in Hk as (command & Hcmd & He). cbn [Nat.add] in He.
  apply TreeFacts.compose_entry_inv
    in He as (d & ty & -> & Hty & _ & _ & _ & _ & _ & Hkind).
  exists d, ty. split; [assumption|]. split; [assumption|].
  destruct (eq_str ty s_parent).
  - destruct Hkind as (_ & lab & children & kids & E & Hch & Hkids & Hls).
    destruct nd as [lab0 dn leaves|lab0 dn]; [|discriminate].
    cbn [leaves_of] in Hls. split; [reflexivity|].
    exists children, kids. split; [assumption|]. split; [assumption|].
    now apply TreeFacts.compose_children_nth in Hls as [Hlen' _].
  - destruct Hkind as (_ & lab & E).
    destruct nd as [lab0 dn leaves|lab0 dn]; [discriminate|reflexivity].
Qed.

(** An entry of type ["child"] that has a child: a leaf. *)
Lemma compose_one_node_per_entry_witness :
  exists d ty,
    nth_error [Sample.entry "a" "/a" "A" "child" [Sample.child3 "c" "/c" "C"]] 0
    = Some (PyDict d)
    /\ dict_get d k_type = Some ty /\ eq_str ty s_parent = false.
Proof.
  exact (proj2
    (compose_one_node_per_entry
       [Sample.entry "a" "/a" "A" "child" [Sample.child3 "c" "/c" "C"]]
       [Leaf (u "a")
          (NodeData 0 None s_child (PyStr (u "a")) (PyStr (u "/a"))
             (PyStr (u "A")))]
       eq_refl)
    0%nat
    (Leaf (u "a")
       (NodeData 0 None s_child (PyStr (u "a")) (PyStr (u "/a")) (PyStr (u "A"))))
    eq_refl).
Defined.

(** X15: one entry without [type], [name], [command] or [text] leaves the
    program without a tree.  The loading accepts such an entry; [compose]
    raises [KeyError] when it reaches it, whatever the entries before it
    gave. *)
Theorem compose_raises_on_missing_key (before after : list value)
  (d : list (str * value)) (nodes : list node) :
  compose_from 0 before = Ok nodes ->
  dict_get d k_type = None \/ dict_get d k_name = None
  \/ dict_get d k_command = None \/ dict_get d k_text = None ->
  compose (PyList (before ++ PyDict d :: after)) = Raise KeyError.
Proof.
  intros Hb Hd. unfold compose. cbn [iter rbind].
  rewrite ComposeFacts.compose_from_app, Hb. cbn [rbind compose_from].
  now rewrite (TreeFacts.compose_entry_missing _ d Hd).
Qed.

Lemma compose_raises_on_missing_key_witness :
  compose
    (PyList ([Sample.leaf "a" "/a" "A"]
             ++ PyDict [(k_name, PyStr (u "x"))] :: [Sample.leaf "c" "/c" "C"]))
  = Raise KeyError.
Proof.
  apply (compose_raises_on_missing_key
           [Sample.leaf "a" "/a" "A"] [Sample.leaf "c" "/c" "C"]
           [(k_name, PyStr (u "x"))]
           [Leaf (u "a")
              (NodeData 0 None s_child (PyStr (u "a")) (PyStr (u "/a"))
                 (PyStr (u "A")))]).
  - reflexivity.
  - left. reflexivity.
Defined.

End Tree.

(** ** The form *)

Section Typing.

Import Form.

(** X16: the handlers of the form never change the address it holds.
    Whatever is typed and however many messages are handled, the index,
    the parent and the type in [data] are the ones that were assigned: a
    save goes to the entry that was selected. *)
Theorem form_keeps_address (n : nat) (f : t) :
  index (data (run n f)) = index (data f)
  /\ parent (data (run n f)) = parent (data f)
  /\ type (data (run n f)) = type (data f).
Proof. apply FormFacts.run_address. Qed.

(** X17: the trigger is normalised as it is typed.  On a form at rest,
    an edit of the command field to [v] ends, after eight messages at most,
    in a form at rest whose [data] and command field both hold [v] with a
    leading slash: [v] itself when it starts with one, ["/" + v] otherwise.
    Name, index, parent and type are as before. *)
Theorem typed_trigger_gets_slash (f : t) (v : str) (k : nat) :
  settled f -> command_value f <> v -> (8 <= k)%nat ->
  settled (run k (type_command v f))
  /\ command (data (run k (type_command v f))) = Some (Spec.normalize v)
  /\ command_value (run k (type_command v f)) = Spec.normalize v
  /\ startswith (Spec.normalize v) s_slash = true
  /\ name (data (run k (type_command v f))) = name (data f)
  /\ index (data (run k (type_command v f))) = index (data f)
  /\ parent (data (run k (type_command v f))) = parent (data f)
  /\ type (data (run k (type_command v f))) = type (data f).
Proof.
  destruct f as [[i p ty n c t] nv cv ta q]. unfold settled.
  cbn [pending name_value command_value text_area data name command text
       index parent type].
  intros (-> & -> & -> & ->) Hne Hk.
  change (Make (Data i p ty n c t) (get_or_empty n) (get_or_empty c)
            (get_or_empty t) []) with (showing (Data i p ty n c t)).
  rewrite (EditFacts.typed_command_run i p ty n c t v k Hne Hk).
  cbn [showing pending name_value command_value text_area data name command
       text index parent type get_or_empty].
  repeat split. apply FormFacts.startswith_normalize.
Qed.

Lemma typed_trigger_gets_slash_witness :
  command (data (run 8 (type_command (u "hi") initial))) = Some (u "/hi")
  /\ command_value (run 8 (type_command (u "hi") initial)) = u "/hi".
Proof.
  destruct (typed_trigger_gets_slash initial (u "hi") 8) as (_ & H1 & H2 & _).
  - repeat split.
  - discriminate.
  - lia.
  - split; [exact H1|exact H2].
Defined.

(** X18: the name is stored as typed.  On a form at rest, an edit of the
    name field to [v] ends, after three messages at most, in a form at rest
    whose [data] holds [v] as the name, with no slash added; the trigger,
    index, parent and type are as before. *)
Theorem typed_name_is_kept (f : t) (v : str) (k : nat) :
  settled f -> name_value f <> v -> (3 <= k)%nat ->
  settled (run k (type_name v f))
  /\ name (data (run k (type_name v f))) = Some v
  /\ command (data (run k (type_name v f))) = command (data f)
  /\ index (data (run k (type_name v f))) = index (data f)
  /\ parent (data (run k (type_name v f))) = parent (data f)
  /\ type (data (run k (type_name v f))) = type (data f).
Proof.
  destruct f as [[i p ty n c t] nv cv ta q]. unfold settled.
  cbn [pending name_value command_value text_area data name command text
       index parent type].
  intros (-> & -> & -> & ->) Hne Hk.
  change (Make (Data i p ty n c t) (get_or_empty n) (get_or_empty c)
            (get_or_empty t) []) with (showing (Data i p ty n c t)).
  rewrite (EditFacts.typed_name_run i p ty n c t v k Hne Hk).
  cbn [showing pending name_value command_value text_area data name command
       text index parent type get_or_empty].
  repeat split.
Qed.

Lemma typed_name_is_kept_witness :
  name (data (run 3 (type_name (u "hi") initial))) = Some (u "hi").
Proof.
  destruct (typed_name_is_kept initial (u "hi") 3) as (_ & H & _).
  - repeat split.
  - discriminate.
  - lia.
  - exact H.
Defined.

(** X19: the text is stored as typed.  On a form at rest, an edit of the
    text area to [v] ends, after two messages at most, in a form at rest
    whose [data] holds [v] as the text; everything else in [data] is as
    before. *)
Theorem typed_text_is_kept (f : t) (v : str) (k : nat) :
  settled f -> (2 <= k)%nat ->
  settled (run k (type_text v f))
  /\ text (data (run k (type_text v f))) = Some v
  /\ name (data (run k (type_text v f))) = name (data f)
  /\ command (data (run k (type_text v f))) = command (data f)
  /\ index (data (run k (type_text v f))) = index (data f)
  /\ parent (data (run k (type_text v f))) = parent (data f)
  /\ type (data (run k (type_text v f))) = type (data f).
Proof.
  destruct f as [[i p ty n c t] nv cv ta q]. unfold settled.
  cbn [pending name_value command_value text_area data name command text
       index parent type].
  intros (-> & -> & -> & ->) Hk.
  change (Make (Data i p ty n c t) (get_or_empty n) (get_or_empty c)
            (get_or_empty t) []) with (showing (Data i p ty n c t)).
  rewrite (EditFacts.typed_text_run i p ty n c t v k Hk).
  cbn [showing pending name_value command_value text_area data name command
       text index parent type get_or_empty].
  repeat split.
Qed.

Lemma typed_text_is_kept_witness :
  text (data (run 2 (type_text (u "hi") initial))) = Some (u "hi").
Proof.
  destruct (typed_text_is_kept initial (u "hi") 2) as (_ & H & _).
  - repeat split.
  - lia.
  - exact H.
Defined.

End Typing.

(** ** From the tree to the file *)

Section Flows.

Import Py Json CommandList AutoTypeApp.
Local Open Scope py_scope.

(** X20: the selection of a node.  The form and the Save button are
    shown, Add Child exactly for a node of type ["parent"], and the store
    is not touched.  Once the messages are handled the form is at rest on
    the data of the node, with its index, parent, type, name and text; the
    trigger is the node's, but for a trigger without the slash, which the
    command handler completes unless the field showed it already. *)
Theorem selection_shows_node (s : state) (d0 : Form.data_t) (nd : node_data)
  (n c t : str) (k : nat) :
  form s = Form.showing d0 ->
  nd_name nd = PyStr n -> nd_command nd = PyStr c -> nd_text nd = PyStr t ->
  (6 <= k)%nat ->
  exists s1,
    on_tree_node_selected (Some nd) s = (s1, Ok tt)
    /\ st_store s1 = st_store s
    /\ form_display s1 = true /\ save_display s1 = true
    /\ text_opening_display s1 = false
    /\ add_child_display s1 = str_eqb (nd_type nd) s_parent
    /\ form (settle k s1)
       = Form.showing
           (Form.Data (Some (Z.of_nat (nd_index nd)))
              (option_map Z.of_nat (nd_parent nd)) (Some (nd_type nd)) (Some n)
              (Some (if str_eqb (Form.get_or_empty (Form.command d0)) c then c
                     else Spec.normalize c)) (Some t)).
Proof.
  intros Hf Hn Hc Ht Hk. unfold on_tree_node_selected, data_of_node.
  rewrite Hn, Hc, Ht. eexists. split; [reflexivity|].
  repeat (split; [reflexivity|]).
  rewrite HandlerFacts.settle_form. cbn [form]. rewrite Hf.
  now apply EditFacts.shown_run.
Qed.

(** A stored trigger without the slash, selected on the form as it
    starts. *)
Lemma selection_shows_node_witness :
  Form.command
    (Form.data
       (form
          (settle 6
             (fst (on_tree_node_selected
                     (Some (NodeData 0 None s_child (PyStr (u "a"))
                              (PyStr (u "hi")) (PyStr (u "A"))))
                     (Sample.holding (PyList [Sample.leaf "a" "hi" "A"])))))))
  = Some (u "/hi").
Proof.
  destruct (selection_shows_node
              (Sample.holding (PyList [Sample.leaf "a" "hi" "A"]))
              (Form.Data None None None None None (Some []))
              (NodeData 0 None s_child (PyStr (u "a")) (PyStr (u "hi"))
                 (PyStr (u "A")))
              (u "a") (u "hi") (u "A") 6
              eq_refl eq_refl eq_refl eq_refl (le_n 6))
    as (s1 & H1 & _ & _ & _ & _ & _ & H2).
  rewrite H1. cbn [fst]. rewrite H2. reflexivity.
Defined.

(** X21: a new entry, from the first press to the file.  The form is
    at rest, whatever it shows (as it is once mounted, or after an entry
    was viewed or saved).  Add, then a name, a trigger other than the bare
    slash and a text typed in this order, the messages handled after each
    of these, and Save: the collection gets one more entry at its end, of
    type ["parent"] with no children, holding the name and the text as
    typed and the trigger with its leading slash. *)
Theorem new_entry_is_appended (s : state) (d0 : Form.data_t) (l : list value)
  (n c t : str) (k : nat) :
  commands (st_store s) = PyList l -> form s = Form.showing d0 ->
  n <> [] -> c <> [] -> c <> s_slash -> (10 <= k)%nat ->
  exists s',
    on_button_pressed Save
      (settle k
         (typing (Form.type_text t)
            (settle k
               (typing (Form.type_command c)
                  (settle k
                     (typing (Form.type_name n)
                        (settle k (fst (on_button_pressed Add s)))))))))
    = (s', Ok tt)
    /\ commands (st_store s')
       = PyList (l ++ [Spec.new_entry n (Spec.normalize c) t s_parent])
    /\ file (st_store s') = Some (dumps (commands (st_store s'))).
Proof.
  intros Hl Hf Hn Hc Hsl Hk.
  set (s1 := settle k (fst (on_button_pressed Add s))).
  destruct (MountFacts.emptied_run d0 None k Hk) as (n' & c' & t' & H1 & En & Ec).
  assert (Hf1 : form s1 = Form.showing (Form.Data None None None n' c' t')).
  { unfold s1. rewrite HandlerFacts.settle_form.
    cbn [on_button_pressed fst form]. now rewrite Hf. }
  set (s4 := settle k _).
  assert (Hf4 : form s4
                = Form.showing
                    (Form.Data None None None (Some n)
                       (Some (Spec.normalize c)) (Some t))).
  { apply (HandlerFacts.filled_in s1 None None None n' c' t' n c t k Hf1).
    - rewrite En. congruence.
    - destruct Ec as [Ec|Ec]; rewrite Ec; congruence.
    - lia. }
  change (on_button_pressed Save s4) with (save_pressed (Form.data (form s4)) s4).
  rewrite Hf4. cbn [Form.showing Form.data].
  rewrite (SaveFacts.add_top_ok s4
             (Form.Data None None None (Some n) (Some (Spec.normalize c))
                (Some t))
             l n (Spec.normalize c) t Hl
             eq_refl eq_refl eq_refl eq_refl eq_refl).
  eexists. repeat split.
Qed.

(** On the app as it is once mounted, with no entry yet. *)
Lemma new_entry_is_appended_witness :
  exists s',
    on_button_pressed Save
      (settle 10
         (typing (Form.type_text (u "Hello"))
            (settle 10
               (typing (Form.type_command (u "hi"))
                  (settle 10
                     (typing (Form.type_name (u "greet"))
                        (settle 10
                           (fst (on_button_pressed Add
                                   (running (Store (PyList []) None)))))))))))
    = (s', Ok tt)
    /\ commands (st_store s')
       = PyList ([] ++ [Spec.new_entry (u "greet") (Spec.normalize (u "hi"))
                          (u "Hello") s_parent])
    /\ file (st_store s') = Some (dumps (commands (st_store s'))).
Proof.
  apply (new_entry_is_appended (running (Store (PyList []) None))
           (Form.Data None None None None None (Some [])) [] (u "greet")
           (u "hi") (u "Hello") 10 eq_refl eq_refl).
  - discriminate.
  - discriminate.
  - discriminate.
  - lia.
Defined.

(** X22: a selection followed by Save.  For a node that shows an entry of
    the collection, with strings as name, trigger and text, Save after the
    selection is an update of that entry with its own name and text and
    its trigger normalised: a trigger that starts with the slash leaves the
    collection as it is, and one without it (in a file edited by hand) is
    stored with the slash, though nobody typed, provided the command field
    did not show that very string before. *)
Theorem select_then_save (s : state) (l : list value) (d0 : Form.data_t)
  (nd : node_data) (n c t : str) (k : nat) :
  commands (st_store s) = PyList l ->
  form s = Form.showing d0 ->
  Form.get_or_empty (Form.command d0) <> c \/ startswith c s_slash = true ->
  Spec.shows (PyList l) nd ->
  nd_name nd = PyStr n -> nd_command nd = PyStr c -> nd_text nd = PyStr t ->
  (6 <= k)%nat ->
  exists s1 s2 l',
    on_tree_node_selected (Some nd) s = (s1, Ok tt)
    /\ on_button_pressed Save (settle k s1) = (s2, Ok tt)
    /\ commands (st_store s2) = PyList l'
    /\ file (st_store s2) = Some (dumps (PyList l'))
    /\ Spec.updated (option_map Z.of_nat (nd_parent nd))
         (Z.of_nat (nd_index nd)) n (Spec.normalize c) t l l'
    /\ (startswith c s_slash = true -> l' = l).
Proof.
  intros Hl Hf Hne (e & He & En & Ec & Et) Hn Hc Ht Hk.
  assert (Hnorm : (if str_eqb (Form.get_or_empty (Form.command d0)) c then c
                   else Spec.normalize c) = Spec.normalize c).
  { destruct Hne as [Hne|Hsl].
    - apply str_eqb_neq in Hne. now rewrite Hne.
    - rewrite (FormFacts.normalize_slash c Hsl).
      now destruct (str_eqb (Form.get_or_empty (Form.command d0)) c). }
  unfold on_tree_node_selected, data_of_node. rewrite Hn, Hc, Ht.
  set (s1 := State _ _ _ _ _ _ _).
  assert (Hs : form (settle k s1)
               = Form.showing
                   (Form.Data (Some (Z.of_nat (nd_index nd)))
                      (option_map Z.of_nat (nd_parent nd)) (Some (nd_type nd))
                      (Some n) (Some (Spec.normalize c)) (Some t))).
  { rewrite HandlerFacts.settle_form. unfold s1. cbn [form]. rewrite Hf.
    rewrite EditFacts.shown_run by assumption. now rewrite Hnorm. }
  rewrite Hn in En. rewrite Hc in Ec. rewrite Ht in Et.
  apply TreeFacts.getitem_str_inv in En as (d & -> & Dn).
  cbn [getitem_str] in Ec, Et.
  destruct (dict_get d k_command) as [x|] eqn:Dc; [|discriminate].
  injection Ec as ->.
  destruct (dict_get d k_text) as [x|] eqn:Dt; [|discriminate].
  injection Et as ->.
  destruct (HandlerFacts.save_updates (settle k s1)
              (Form.Data (Some (Z.of_nat (nd_index nd)))
                 (option_map Z.of_nat (nd_parent nd)) (Some (nd_type nd))
                 (Some n) (Some (Spec.normalize c)) (Some t))
              l (Z.of_nat (nd_index nd)) n (Spec.normalize c) t d
              Hl eq_refl eq_refl eq_refl eq_refl He) as (l' & E & Hu & Hsame).
  exists s1,
    (with_store (settle k s1)
       (save_store (Store (PyList l') (file (st_store (settle k s1)))))), l'.
  split; [reflexivity|]. split.
  - change (on_button_pressed Save (settle k s1))
      with (save_pressed (Form.data (form (settle k s1))) (settle k s1)).
    rewrite Hs. exact E.
  - split; [reflexivity|]. split; [reflexivity|]. split; [exact Hu|].
    intros Hsl. apply Hsame; try assumption.
    now rewrite (FormFacts.normalize_slash c Hsl).
Qed.

(** The only entry has the trigger [hi] in the file; it is selected and
    saved. *)
Lemma select_then_save_witness :
  exists s1 s2 l',
    on_tree_node_selected
      (Some (NodeData 0 None s_child (PyStr (u "a")) (PyStr (u "hi"))
               (PyStr (u "A"))))
      (Sample.holding (PyList [Sample.leaf "a" "hi" "A"])) = (s1, Ok tt)
    /\ on_button_pressed Save (settle 6 s1) = (s2, Ok tt)
    /\ commands (st_store s2) = PyList l'
    /\ file (st_store s2) = Some (dumps (PyList l'))
    /\ Spec.updated (option_map Z.of_nat None) (Z.of_nat 0) (u "a")
         (Spec.normalize (u "hi")) (u "A") [Sample.leaf "a" "hi" "A"] l'
    /\ (startswith (u "hi") s_slash = true -> l' = [Sample.leaf "a" "hi" "A"]).
Proof.
  apply (select_then_save
           (Sample.holding (PyList [Sample.leaf "a" "hi" "A"]))
           [Sample.leaf "a" "hi" "A"]
           (Form.Data None None None None None (Some []))
           (NodeData 0 None s_child (PyStr (u "a")) (PyStr (u "hi"))
              (PyStr (u "A")))
           (u "a") (u "hi") (u "A") 6 eq_refl eq_refl).
  - left. discriminate.
  - exists (Sample.leaf "a" "hi" "A"). repeat split.
  - reflexivity.
  - reflexivity.
  - reflexivity.
  - lia.
Defined.

(** X23: a child, from the first press to the file.  The form is at
    rest on data with the index [i0], a name and a trigger, and the entry
    at [i0] of the collection has a list of children.  Add Child empties
    the fields (the command field then shows the slash alone); a name, a
    trigger and a text typed in this order and Save append, to the children
    of that entry, a child of type ["child"] with the name and the text as
    typed and the trigger with its leading slash.  The other entries and
    the other children are as before. *)
Theorem new_child_is_appended (s : state) (d0 : Form.data_t)
  (l kids : list value) (i0 : Z) (kp : nat) (d : list (str * value))
  (n c t : str) (k : nat) :
  commands (st_store s) = PyList l ->
  form s = Form.showing d0 -> Form.index d0 = Some i0 ->
  Form.get_or_empty (Form.name d0) <> [] ->
  Form.get_or_empty (Form.command d0) <> [] ->
  norm_index (length l) i0 = Some kp -> nth_error l kp = Some (PyDict d) ->
  dict_get d k_children = Some (PyList kids) ->
  n <> [] -> c <> s_slash -> (10 <= k)%nat ->
  exists s',
    on_button_pressed Save
      (settle k
         (typing (Form.type_text t)
            (settle k
               (typing (Form.type_command c)
                  (settle k
                     (typing (Form.type_name n)
                        (settle k (fst (on_button_pressed AddChild s)))))))))
    = (s', Ok tt)
    /\ commands (st_store s')
       = PyList
           (list_set l kp
              (PyDict
                 (dict_set d k_children
                    (PyList
                       (kids
                        ++ [Spec.new_entry n (Spec.normalize c) t s_child])))))
    /\ file (st_store s') = Some (dumps (commands (st_store s'))).
Proof.
  intros Hl Hf Hi0 Hn0 Hc0 Hkp Hd Hch Hn Hc Hk.
  set (s1 := settle k (fst (on_button_pressed AddChild s))).
  assert (H1 : form s1
               = Form.showing
                   (Form.Data None (Some i0) None (Some []) (Some s_slash)
                      (Some []))).
  { unfold s1. rewrite HandlerFacts.settle_form.
    cbn [on_button_pressed fst form]. rewrite Hf.
    cbn [Form.showing Form.data]. rewrite Hi0.
    now apply (EditFacts.cleared_run d0 (Some i0) k). }
  set (s4 := settle k _).
  assert (Hf4 : form s4
                = Form.showing
                    (Form.Data None (Some i0) None (Some n)
                       (Some (Spec.normalize c)) (Some t))).
  { apply (HandlerFacts.filled_in s1 None (Some i0) None (Some [])
             (Some s_slash) (Some []) n c t k H1).
    - cbn [Form.get_or_empty]. congruence.
    - cbn [Form.get_or_empty]. congruence.
    - lia. }
  change (on_button_pressed Save s4) with (save_pressed (Form.data (form s4)) s4).
  rewrite Hf4. cbn [Form.showing Form.data].
  rewrite (SaveFacts.add_child_ok s4
             (Form.Data None (Some i0) None (Some n) (Some (Spec.normalize c))
                (Some t))
             l kids i0 kp d n (Spec.normalize c) t Hl Hkp Hd Hch
             eq_refl eq_refl eq_refl eq_refl eq_refl).
  eexists. repeat split.
Qed.

Lemma new_child_is_appended_witness :
  exists s',
    on_button_pressed Save
      (settle 10
         (typing (Form.type_text (u "C"))
            (settle 10
               (typing (Form.type_command (u "/c"))
                  (settle 10
                     (typing (Form.type_name (u "c"))
                        (settle 10
                           (fst (on_button_pressed AddChild
                                   (Sample.editing
                                      (PyList
                                         [Sample.entry "p" "/p" "P" "parent" []])
                                      (Sample.filled (Some 0%Z) None
                                         "p" "/p" "P")))))))))))
    = (s', Ok tt)
    /\ commands (st_store s')
       = PyList
           (list_set [Sample.entry "p" "/p" "P" "parent" []] 0
              (PyDict
                 (dict_set
                    [(k_name, PyStr (u "p")); (k_command, PyStr (u "/p"));
                     (k_text, PyStr (u "P")); (k_type, PyStr (u "parent"));
                     (k_children, PyList [])] k_children
                    (PyList
                       ([] ++ [Spec.new_entry (u "c") (Spec.normalize (u "/c"))
                                 (u "C") s_child])))))
    /\ file (st_store s') = Some (dumps (commands (st_store s'))).
Proof.
  apply (new_child_is_appended
           (Sample.editing (PyList [Sample.entry "p" "/p" "P" "parent" []])
              (Sample.filled (Some 0%Z) None "p" "/p" "P"))
           (Sample.filled (Some 0%Z) None "p" "/p" "P")
           [Sample.entry "p" "/p" "P" "parent" []] [] 0 0%nat
           [(k_name, PyStr (u "p")); (k_command, PyStr (u "/p"));
            (k_text, PyStr (u "P")); (k_type, PyStr (u "parent"));
            (k_children, PyList [])]
           (u "c") (u "/c") (u "C") 10
           eq_refl eq_refl eq_refl).
  - discriminate.
  - discriminate.
  - reflexivity.
  - reflexivity.
  - reflexivity.
  - discriminate.
  - discriminate.
  - lia.
Defined.

End Flows.

(** ** From the file to the next start *)

Section Persistence.

Import Py Json CommandList AutoTypeApp.
Local Open Scope py_scope.

(** X24: the store round trip.  A collection as a JSON file can hold it
    (strings of Unicode code points, integers, lists, dicts with distinct
    keys), once written by the save, is read back by the class body as the
    same collection, and the file is left as written. *)
Theorem saved_store_is_read_back (st : store) :
  wf_value (commands st) = true ->
  load (file (save_store st)) = Ok (save_store st)
  /\ commands (save_store st) = commands st.
Proof.
  intros H. split; [|reflexivity]. now apply LoadFacts.load_after_save.
Qed.

Lemma saved_store_is_read_back_witness :
  load (file (save_store
                (Store (PyList [Sample.entry "p" "/p" "P" "parent"
                                  [Sample.child3 "c" "/c" "C"]]) None)))
  = Ok (save_store
          (Store (PyList [Sample.entry "p" "/p" "P" "parent"
                            [Sample.child3 "c" "/c" "C"]]) None)).
Proof.
  apply (saved_store_is_read_back
           (Store (PyList [Sample.entry "p" "/p" "P" "parent"
                             [Sample.child3 "c" "/c" "C"]]) None)).
  reflexivity.
Defined.

(** X25: every save that returns can be restarted from.  Whatever the
    shape of the collection and whichever path the save takes, if the
    collection came from a file and the form holds a name, a trigger and a
    text of Unicode code points, then after a save that returned the next
    start of the program loads the collection that is in memory. *)
Theorem save_then_restart (s s' : state) (n c t : str) :
  wf_value (commands (st_store s)) = true ->
  Form.name (Form.data (form s)) = Some n ->
  Form.command (Form.data (form s)) = Some c ->
  Form.text (Form.data (form s)) = Some t ->
  wf_str n = true -> wf_str c = true -> wf_str t = true ->
  on_button_pressed Save s = (s', Ok tt) ->
  start (file (st_store s')) = Ok (running (st_store s')).
Proof.
  intros Hwf Hn Hc Ht Wn Wc Wt.
  change (on_button_pressed Save s) with (save_pressed (Form.data (form s)) s).
  assert (Hgo : forall v,
            wf_value v = true ->
            start (file (st_store (with_store s
                                     (save_store (Store v (file (st_store s)))))))
            = Ok (running (st_store (with_store s
                                       (save_store
                                          (Store v (file (st_store s)))))))).
  { intros v Hv. unfold start.
    now rewrite (FrameFacts.reload_saved s v (file (st_store s)) Hv). }
  destruct (Form.index (Form.data (form s))) as [i|] eqn:Hi;
    destruct (Form.parent (Form.data (form s))) as [p|] eqn:Hp.
  - destruct (at_int (commands (st_store s)) p (fun entry =>
                at_str entry k_children (fun children =>
                  at_int children i (setitem_str k_name (PyStr n)))))
      as [v|e|] eqn:E.
    + apply SaveFacts.at_int_inv in E as (l & kp & x & x' & Hl & Hkp & Hx & E & _);
        [|intros; apply SaveFacts.at_str_not_str].
      apply SaveFacts.at_str_inv in E as (d & ch & ch' & -> & Hch & E & _).
      apply SaveFacts.at_int_inv in E as (kids & k & y & y' & -> & Hk & Hy & E & _);
        [|intros; apply SaveFacts.setitem_str_not_str].
      apply SaveFacts.setitem_str_inv in E as (dc & -> & _).
      rewrite (SaveFacts.update_nested_ok s _ l kids p i kp k d dc n c t
                 Hl Hkp Hx Hch Hk Hy Hi Hp Hn Hc Ht).
      intros [= <-]. apply Hgo. rewrite Hl in Hwf.
      now apply FrameFacts.wf_nested_updated.
    + rewrite (SaveFacts.update_nested_raises s _ p i n e Hi Hp Hn E).
      discriminate.
    + exfalso. revert E. apply HandlerFacts.at_int_modelled. intros.
      apply HandlerFacts.at_str_modelled. intros.
      apply HandlerFacts.at_int_modelled. intros.
      apply HandlerFacts.setitem_str_modelled.
  - destruct (at_int (commands (st_store s)) i (setitem_str k_name (PyStr n)))
      as [v|e|] eqn:E.
    + apply SaveFacts.at_int_inv in E as (l & k & x & x' & Hl & Hk & Hx & E & _);
        [|intros; apply SaveFacts.setitem_str_not_str].
      apply SaveFacts.setitem_str_inv in E as (d & -> & _).
      rewrite (SaveFacts.update_top_ok s _ l i k d n c t
                 Hl Hk Hx Hi Hp Hn Hc Ht).
      intros [= <-]. apply Hgo. rewrite Hl in Hwf.
      now apply FrameFacts.wf_top_updated.
    + rewrite (SaveFacts.update_top_raises s _ i n e Hi Hp Hn E). discriminate.
    + exfalso. revert E. apply HandlerFacts.at_int_modelled. intros.
      apply HandlerFacts.setitem_str_modelled.
  - destruct (at_int (commands (st_store s)) p (fun entry =>
                at_str entry k_children
                  (append (Spec.new_entry n c t s_child)))) as [v|e|] eqn:E.
    + apply SaveFacts.at_int_inv in E as (l & kp & x & x' & Hl & Hkp & Hx & E & _);
        [|intros; apply SaveFacts.at_str_not_str].
      apply SaveFacts.at_str_inv in E as (d & ch & ch' & -> & Hch & E & _).
      apply SaveFacts.append_inv in E as (kids & -> & _).
      rewrite (SaveFacts.add_child_ok s _ l kids p kp d n c t
                 Hl Hkp Hx Hch Hi Hp Hn Hc Ht).
      intros [= <-]. apply Hgo. rewrite Hl in Hwf.
      now apply FrameFacts.wf_child_added.
    + rewrite (SaveFacts.add_child_raises s _ p n c t e Hi Hp Hn Hc Ht E).
      discriminate.
    + exfalso. revert E. apply HandlerFacts.at_int_modelled. intros.
      apply HandlerFacts.at_str_modelled. intros.
      apply HandlerFacts.append_modelled.
  - destruct (commands (st_store s)) as [| | | |l|d] eqn:E.
    5:{ rewrite (SaveFacts.add_top_ok s _ l n c t E Hi Hp Hn Hc Ht).
        intros [= <-]. apply Hgo.
        apply SeqFacts.wf_value_snoc; [assumption|].
        now apply FrameFacts.wf_new_entry. }
    all: unfold save_pressed, save_body; rewrite Hi, Hp, Hn, Hc, Ht;
      rewrite SaveFacts.bind_raise with (s1 := s) (e := AttributeError);
      [discriminate|];
      rewrite (SaveFacts.bind_ok _ _ _ _ _ (SaveFacts.data_item_some n s));
      rewrite (SaveFacts.bind_ok _ _ _ _ _ (SaveFacts.data_item_some c s));
      rewrite (SaveFacts.bind_ok _ _ _ _ _ (SaveFacts.data_item_some t s));
      apply SaveFacts.mutate_raise; now rewrite E.
Qed.

Lemma save_then_restart_witness :
  start
    (file
       (st_store
          (fst (on_button_pressed Save
                  (Sample.editing
                     (PyList [Sample.entry "p" "/p" "P" "parent" []])
                     (Sample.filled None (Some 0%Z) "c" "/c" "C"))))))
  = Ok (running
          (st_store
             (fst (on_button_pressed Save
                     (Sample.editing
                        (PyList [Sample.entry "p" "/p" "P" "parent" []])
                        (Sample.filled None (Some 0%Z) "c" "/c" "C")))))).
Proof.
  apply (save_then_restart
           (Sample.editing (PyList [Sample.entry "p" "/p" "P" "parent" []])
              (Sample.filled None (Some 0%Z) "c" "/c" "C"))
           _ (u "c") (u "/c") (u "C"));
    reflexivity.
Defined.

End Persistence.
